(** * Capture pipeline of the ESP32 touch front end

    Shallow embedding of [src/esp32/main_final.py] (the fixed-window
    firmware) and [src/esp32/mainESPold.py] (the bounding-box firmware).
    The two files share most of their [TouchScreen] class; the embedding
    keeps one definition per method and takes the firmware as a
    [variant] argument wherever the two sources differ.

    Python integers are [Z]; a [bytearray] is a [list Z] whose elements lie
    in [0, 256); [None]-able attributes are [option Z]; [self] is a record
    threaded through a state-and-exception monad; calls on the display, the
    UART, the file system and [print] are recorded as events, a formatted
    line as its fixed text and the integers it interpolates.  The
    [while True] loop of [draw_line] takes fuel; that it never needs more
    than [|dx| + |dy| + 1] iterations is proved below. *)

From Stdlib Require Import ZArith Lia String.
From stdpp Require Import base tactics option list numbers.
From stdpp Require sorting.
From Stdlib Require SpecFloat.

Local Open Scope Z_scope.

(** ** Outcomes and the method monad *)

Inductive exn := IndexError | ValueError | TypeError.

Inductive outcome (A : Type) : Type :=
| Ok (a : A)
| Raise (e : exn)
| OutOfFuel.
Arguments Ok {A} a.
Arguments Raise {A} e.
Arguments OutOfFuel {A}.

Definition obind {A B} (o : outcome A) (k : A -> outcome B) : outcome B :=
  match o with
  | Ok a => k a
  | Raise e => Raise e
  | OutOfFuel => OutOfFuel
  end.

(** ** Python values used by the firmware *)

(** [range(start, stop)] with the default step. *)
Record pyrange := Range { start : Z; stop : Z }.

(** [v in r] *)
Definition in_range (v : Z) (r : pyrange) : bool :=
  (start r <=? v) && (v <? stop r).

(** [for v in r] *)
Definition range_list (r : pyrange) : list Z :=
  seqZ (start r) (stop r - start r).

(** [bytearray(n)] *)
Definition bytearray (n : Z) : list Z := replicate (Z.to_nat n) 0.
Arguments bytearray : simpl never.

(** Subscript normalisation: a negative subscript counts from the end. *)
Definition py_index (len i : Z) : Z := if i <? 0 then i + len else i.

(** [b[i]] *)
Definition getitem (b : list Z) (i : Z) : outcome Z :=
  let j := py_index (Z.of_nat (length b)) i in
  if (j <? 0) || (Z.of_nat (length b) <=? j) then Raise IndexError
  else match b !! Z.to_nat j with
       | Some v => Ok v
       | None => Raise IndexError
       end.

(** [b[i] = v] *)
Definition setitem (b : list Z) (i v : Z) : outcome (list Z) :=
  let j := py_index (Z.of_nat (length b)) i in
  if (j <? 0) || (Z.of_nat (length b) <=? j) then Raise IndexError
  else if (0 <=? v) && (v <? 256) then Ok (<[Z.to_nat j := v]> b)
  else Raise ValueError.

(** [b[i] |= v] *)
Definition ior_item (b : list Z) (i v : Z) : outcome (list Z) :=
  obind (getitem b i) (fun old => setitem b i (Z.lor old v)).

(** Truth value of an attribute holding [None] or an int. *)
Definition truthy (o : option Z) : bool :=
  match o with
  | Some v => negb (v =? 0)
  | None => false
  end.

(** ** Events on the external collaborators *)

Inductive color := WHITE | BLACK.

Inductive event :=
| Printed (text : string) (values : list Z)
| ScreenClear (c : color)
| FillRectangle (x y w h : Z) (c : color)
| DrawRectangle (x y w h : Z) (c : color)
| DrawText8x8 (x y : Z) (text : string) (fg bg : color)
| FillCircle (x y r : Z) (c : color)
| UartInit (id baudrate bits : Z) (parity : option Z) (stop tx rx : Z)
| UartWrite (data : list Z)
| UartAny
| FileWrite (name : string) (data : list Z).
Arguments Printed text%_string values.
Arguments DrawText8x8 x y text%_string fg bg.
Arguments FileWrite name%_string data.

(** ** The [TouchScreen] object *)

Inductive variant := Old | Final.

Record TouchArea := { x_range : pyrange; y_range : pyrange }.

(** The bound methods stored in [Touch_callbacks]. *)
Inductive callback := save_mnist_method.

Record TouchScreen := {
  last_x : option Z;
  last_y : option Z;
  freeze : bool;
  buffer : list Z;
  Touch_items : list TouchArea;
  Touch_callbacks : list callback;
  trace : list event
}.

(** What the host decides: the double-precision sampling coordinate
    [int(start + k * (extent / 28))] of [scale_and_convert_to_bytearray],
    whether [open("tmp.txt", "wb")] succeeds, and what [uart.any()]
    reports. *)
Class Platform := {
  float_sample : Z -> Z -> Z -> Z;
  tmp_writable : bool;
  uart_any : Z
}.

Definition M (A : Type) : Type := TouchScreen -> outcome (A * TouchScreen).

Definition ret {A} (a : A) : M A := fun self => Ok (a, self).

Definition bind {A B} (m : M A) (k : A -> M B) : M B :=
  fun self =>
    match m self with
    | Ok (a, self') => k a self'
    | Raise e => Raise e
    | OutOfFuel => OutOfFuel
    end.

Declare Scope method_scope.
Delimit Scope method_scope with method.
Notation "x <- m ;; k" := (bind m (fun x => k))
  (at level 100, m at next level, k at level 200, right associativity) : method_scope.
Notation "m ;; k" := (bind m (fun _ => k))
  (at level 100, k at level 200, right associativity) : method_scope.
Local Open Scope method_scope.

Definition raise {A} (e : exn) : M A := fun _ => Raise e.
Definition out_of_fuel {A} : M A := fun _ => OutOfFuel.
Definition lift {A} (o : outcome A) : M A :=
  fun self => obind o (fun a => Ok (a, self)).
Definition get {A} (f : TouchScreen -> A) : M A := fun self => Ok (f self, self).
Definition modify (f : TouchScreen -> TouchScreen) : M unit :=
  fun self => Ok (tt, f self).

(** [for v in l: body(v)], the loop's local variables carried in [acc]. *)
Fixpoint for_fold {A B} (l : list A) (body : A -> B -> M B) (acc : B) : M B :=
  match l with
  | [] => ret acc
  | v :: l' => acc' <- body v acc ;; for_fold l' body acc'
  end.

(** An operand that must be an int: arithmetic and ordering on [None]
    raise [TypeError]. *)
Definition as_int (o : option Z) : M Z :=
  match o with
  | Some v => ret v
  | None => raise TypeError
  end.

Definition set_last_x (v : option Z) (s : TouchScreen) : TouchScreen :=
  {| last_x := v; last_y := last_y s; freeze := freeze s; buffer := buffer s;
     Touch_items := Touch_items s; Touch_callbacks := Touch_callbacks s;
     trace := trace s |}.
Definition set_last_y (v : option Z) (s : TouchScreen) : TouchScreen :=
  {| last_x := last_x s; last_y := v; freeze := freeze s; buffer := buffer s;
     Touch_items := Touch_items s; Touch_callbacks := Touch_callbacks s;
     trace := trace s |}.
Definition set_freeze (v : bool) (s : TouchScreen) : TouchScreen :=
  {| last_x := last_x s; last_y := last_y s; freeze := v; buffer := buffer s;
     Touch_items := Touch_items s; Touch_callbacks := Touch_callbacks s;
     trace := trace s |}.
Definition set_buffer (v : list Z) (s : TouchScreen) : TouchScreen :=
  {| last_x := last_x s; last_y := last_y s; freeze := freeze s; buffer := v;
     Touch_items := Touch_items s; Touch_callbacks := Touch_callbacks s;
     trace := trace s |}.
Definition add_item (a : TouchArea) (s : TouchScreen) : TouchScreen :=
  {| last_x := last_x s; last_y := last_y s; freeze := freeze s; buffer := buffer s;
     Touch_items := Touch_items s ++ [a]; Touch_callbacks := Touch_callbacks s;
     trace := trace s |}.
Definition add_callback (c : callback) (s : TouchScreen) : TouchScreen :=
  {| last_x := last_x s; last_y := last_y s; freeze := freeze s; buffer := buffer s;
     Touch_items := Touch_items s; Touch_callbacks := Touch_callbacks s ++ [c];
     trace := trace s |}.
Definition clear_ui (s : TouchScreen) : TouchScreen :=
  {| last_x := last_x s; last_y := last_y s; freeze := freeze s; buffer := buffer s;
     Touch_items := []; Touch_callbacks := []; trace := trace s |}.
Definition add_event (e : event) (s : TouchScreen) : TouchScreen :=
  {| last_x := last_x s; last_y := last_y s; freeze := freeze s; buffer := buffer s;
     Touch_items := Touch_items s; Touch_callbacks := Touch_callbacks s;
     trace := trace s ++ [e] |}.

Definition emit (e : event) : M unit := modify (add_event e).

(** ** Packed frame buffer: [set_pixel] and [get_pixel] (identical in both
    firmwares) *)

Definition in_canvas (x y : Z) : bool :=
  (0 <=? x) && (x <? 320) && (0 <=? y) && (y <? 240).

Definition set_pixel (x y : Z) (state : bool) : M unit :=
  if in_canvas x y then
    let idx := y * 320 + x in
    buf <- get buffer ;;
    buf' <- lift (ior_item buf (idx / 8) (Z.shiftl (Z.b2z state) (7 - idx mod 8))) ;;
    modify (set_buffer buf')
  else ret tt.

Definition get_pixel (x y : Z) : M bool :=
  if in_canvas x y then
    let idx := y * 320 + x in
    buf <- get buffer ;;
    b <- lift (getitem buf (idx / 8)) ;;
    ret (negb (Z.land b (Z.shiftl 1 (7 - idx mod 8)) =? 0))
  else ret false.

(** ** Drawing *)

Definition draw_size : Z := 1.
Definition draw_area : Z := 28.
Definition d_x : Z := 140.
Definition d_y : Z := 100.

Definition draw_point (v : variant) (x y : Z) : M unit :=
  if in_canvas x y then
    match v with
    | Final =>
        emit (FillCircle x y draw_size BLACK) ;;
        set_pixel x y true ;;
        set_pixel (x + 1) y true ;;
        set_pixel (x - 1) y true ;;
        set_pixel x (y + 1) true ;;
        set_pixel x (y - 1) true
    | Old =>
        emit (FillCircle x y 3 BLACK) ;;
        set_pixel x y true ;;
        emit (Printed "[DRAW] Point" [x; y])
    end
  else ret tt.

(** The [while True] loop of [draw_line]; [err] is the loop's local, the
    current point lives in [self.last_x], [self.last_y]. *)
Fixpoint draw_line_loop (v : variant) (fuel : nat) (x y dx dy sx sy err : Z) : M unit :=
  match fuel with
  | O => out_of_fuel
  | S fuel' =>
      lx <- (o <- get last_x ;; as_int o) ;;
      ly <- (o <- get last_y ;; as_int o) ;;
      draw_point v lx ly ;;
      if (lx =? x) && (ly =? y) then ret tt
      else
        let e2 := 2 * err in
        err1 <- (if e2 >? - dy
                 then modify (set_last_x (Some (lx + sx))) ;; ret (err - dy)
                 else ret err) ;;
        err2 <- (if e2 <? dx
                 then modify (set_last_y (Some (ly + sy))) ;; ret (err1 + dx)
                 else ret err1) ;;
        draw_line_loop v fuel' x y dx dy sx sy err2
  end.

Definition draw_line (v : variant) (fuel : nat) (x y : Z) : M unit :=
  lx <- (o <- get last_x ;; as_int o) ;;
  ly <- (o <- get last_y ;; as_int o) ;;
  emit (Printed "[DRAW] Line from to" [lx; ly; x; y]) ;;
  let dx := Z.abs (x - lx) in
  let dy := Z.abs (y - ly) in
  let sx := if x >? lx then 1 else -1 in
  let sy := if y >? ly then 1 else -1 in
  let err := dx - dy in
  draw_line_loop v fuel x y dx dy sx sy err.

Definition process_drawing (v : variant) (fuel : nat) (x y : Z) : M unit :=
  lx <- get last_x ;;
  match lx with
  | None => draw_point v x y
  | Some _ => draw_line v fuel x y
  end ;;
  modify (set_last_x (Some x)) ;;
  modify (set_last_y (Some y)).

(** ** User interface *)

(** [TouchArea.__init__] *)
Definition TouchArea_init (x y w h : Z) : M TouchArea :=
  emit (Printed "[DEBUG] Created TouchArea at" [x; y; w; h]) ;;
  ret {| x_range := Range x (x + w); y_range := Range y (y + h) |}.

Definition addTouchItem (area : TouchArea) (cb : callback) : M unit :=
  modify (add_item area) ;;
  modify (add_callback cb) ;;
  emit (Printed "[UI] Registered save_mnist for area"
          [start (x_range area); stop (x_range area);
           start (y_range area); stop (y_range area)]).

Definition initialize_ui (v : variant) : M unit :=
  emit (Printed "[UI] Building interface..." []) ;;
  match v with
  | Final =>
      let btn_size := 64 in
      let btn_x := 248 in
      let btn_y := 176 in
      emit (FillRectangle btn_x btn_y btn_size btn_size WHITE) ;;
      emit (DrawRectangle btn_x btn_y btn_size btn_size BLACK) ;;
      emit (DrawText8x8 (btn_x + 16) (btn_y + 30) "SEND" BLACK WHITE) ;;
      area <- TouchArea_init btn_x btn_y btn_size btn_size ;;
      addTouchItem area save_mnist_method ;;
      let draw_area := 28 in
      let d_x := 140 in
      let d_y := 100 in
      emit (FillRectangle d_x d_y draw_area draw_area WHITE) ;;
      emit (DrawRectangle d_x d_y draw_area draw_area BLACK) ;;
      emit (DrawText8x8 10 10 "Draw Digit" BLACK WHITE) ;;
      emit (DrawText8x8 10 30 "Press SEND when done" BLACK WHITE)
  | Old =>
      let btn_size := 32 in
      let btn_x := 280 in
      let btn_y := 208 in
      emit (FillRectangle btn_x btn_y btn_size btn_size WHITE) ;;
      emit (DrawRectangle btn_x btn_y btn_size btn_size BLACK) ;;
      emit (DrawText8x8 (btn_x + 8) (btn_y + 12) "SAVE" BLACK WHITE) ;;
      area <- TouchArea_init btn_x btn_y btn_size btn_size ;;
      addTouchItem area save_mnist_method ;;
      emit (DrawText8x8 10 10 "Draw Digit" BLACK WHITE) ;;
      emit (DrawText8x8 10 30 "Press SAVE when done" BLACK WHITE)
  end ;;
  emit (Printed "[UI] Interface built" []).

Definition reset_canvas (v : variant) : M unit :=
  emit (Printed "[CLEAN] Resetting..." []) ;;
  emit (ScreenClear WHITE) ;;
  modify (set_buffer (bytearray 9600)) ;;
  modify (set_last_x None) ;;
  modify (set_last_y None) ;;
  initialize_ui v ;;
  emit (Printed "[CLEAN] Ready" []).

(** ** Transmission *)

Definition send_uart_data `{Platform} (v : variant) (mnist_data : list Z) : M unit :=
  emit (Printed "[UART] Initializing UART..." []) ;;
  emit (UartInit 1 9600 8 None 1 22 27) ;;
  let data_bytes :=
    match v with
    | Final => [0] ++ mnist_data
    | Old => mnist_data
    end in
  emit (Printed "bytearray" data_bytes) ;;
  emit (Printed "[UART] Sending bytes..." [Z.of_nat (length data_bytes)]) ;;
  emit (UartWrite data_bytes) ;;
  emit UartAny ;;
  emit (Printed "" [uart_any]).

(** ** Region extraction *)

(** The body shared by both packers:
    [if pixel: bits[bit_index // 8] |= 1 << (7 - bit_index % 8)]
    followed by [bit_index += 1]. *)
Definition pack_bit (pixel : bool) (acc : list Z * Z) : M (list Z * Z) :=
  let '(bits, bit_index) := acc in
  bits' <- (if pixel
            then lift (ior_item bits (bit_index / 8)
                         (Z.shiftl 1 (7 - bit_index mod 8)))
            else ret bits) ;;
  ret (bits', bit_index + 1).

(** main_final.py *)
Definition extract_mnist_region : M (list Z) :=
  r <- for_fold (range_list (Range d_y (d_y + draw_area)))
         (fun y acc =>
            for_fold (range_list (Range d_x (d_x + draw_area)))
              (fun x acc =>
                 pixel <- get_pixel x y ;;
                 pack_bit pixel acc)
              acc)
         (bytearray 98, 0) ;;
  ret (fst r).

(** mainESPold.py *)
Definition scale_and_convert_to_bytearray `{Platform}
    (x_start y_start src_width src_height : Z) : M (list Z) :=
  let dst_width := 28 in
  let dst_height := 28 in
  let total_bits := dst_width * dst_height in
  let total_bytes := total_bits / 8 in
  r <- for_fold (range_list (Range 0 dst_height))
         (fun y acc =>
            for_fold (range_list (Range 0 dst_width))
              (fun x acc =>
                 let src_x := float_sample x_start x src_width in
                 let src_y := float_sample y_start y src_height in
                 pixel <- (if in_canvas src_x src_y
                           then get_pixel src_x src_y
                           else ret false) ;;
                 pack_bit pixel acc)
              acc)
         (bytearray total_bytes, 0) ;;
  let result := fst r in
  (if tmp_writable
   then emit (FileWrite "tmp.txt" result) ;;
        emit (Printed "[FILE] Saved to 'tmp.txt'" [Z.of_nat (length result)])
   else emit (Printed "[ERROR] Failed to write file" [])) ;;
  ret result.

(** The four locals of the bounding-box scan. *)
Record bounds := {
  min_x : option Z;
  max_x : option Z;
  min_y : option Z;
  max_y : option Z
}.

Definition no_bounds : bounds :=
  {| min_x := None; max_x := None; min_y := None; max_y := None |}.

(** [min(c, cur) if cur else c] and [max(c, cur) if cur else c] *)
Definition min_or (c : Z) (cur : option Z) : option Z :=
  if truthy cur then Z.min c <$> cur else Some c.
Definition max_or (c : Z) (cur : option Z) : option Z :=
  if truthy cur then Z.max c <$> cur else Some c.

Definition widen (x y : Z) (b : bounds) : bounds :=
  {| min_x := min_or x (min_x b);
     max_x := max_or x (max_x b);
     min_y := min_or y (min_y b);
     max_y := max_or y (max_y b) |}.

(** The nested [for y in range(240): for x in range(320)] loop of
    [process_mnist_data]. *)
Definition find_bounds : M bounds :=
  for_fold (range_list (Range 0 240))
    (fun y b =>
       for_fold (range_list (Range 0 320))
         (fun x b =>
            pixel <- get_pixel x y ;;
            ret (if pixel then widen x y b else b))
         b)
    no_bounds.

Definition process_mnist_data `{Platform} (v : variant) : M unit :=
  emit (Printed "[MNIST] Processing..." []) ;;
  b <- find_bounds ;;
  let no_drawing :=
    match v with
    | Old => negb (truthy (min_x b))
    | Final => match min_x b with None => true | Some _ => false end
    end in
  if no_drawing then emit (Printed "[ERROR] No drawing found!" [])
  else
    lo_x <- as_int (min_x b) ;;
    hi_x <- as_int (max_x b) ;;
    lo_y <- as_int (min_y b) ;;
    hi_y <- as_int (max_y b) ;;
    emit (Printed "[MNIST] Bounds X Y" [lo_x; hi_x; lo_y; hi_y]) ;;
    let width := hi_x - lo_x in
    let height := hi_y - lo_y in
    match v with
    | Old =>
        image_sc <- scale_and_convert_to_bytearray
                      (lo_x - 5) (lo_y - 5) (width + 10) (height + 10) ;;
        send_uart_data Old image_sc
    | Final =>
        mnist_data <- extract_mnist_region ;;
        emit (Printed "[MNIST] Prepared bytes" [Z.of_nat (length mnist_data)]) ;;
        send_uart_data Final mnist_data
    end.

(** ** The save action and the touch handler *)

Definition save_mnist `{Platform} (v : variant) : M unit :=
  emit (Printed "[SAVE] Initiating..." []) ;;
  modify (set_freeze true) ;;
  process_mnist_data v ;;
  reset_canvas v ;;
  modify (set_freeze false) ;;
  emit (Printed "[SAVE] Completed" []).

Definition call `{Platform} (v : variant) (cb : callback) : M unit :=
  match cb with
  | save_mnist_method => save_mnist v
  end.

(** The [for i, area in enumerate(self.Touch_items)] loop; the result
    tells whether the loop left the handler through its [return]. *)
Fixpoint check_ui `{Platform} (v : variant) (items : list TouchArea) (i : nat)
    (x y : Z) : M bool :=
  match items with
  | [] => ret false
  | area :: rest =>
      if in_range x (x_range area) && in_range y (y_range area) then
        emit (Printed "[UI] Button pressed" [Z.of_nat i]) ;;
        cbs <- get Touch_callbacks ;;
        match cbs !! i with
        | Some cb => call v cb
        | None => raise IndexError
        end ;;
        ret true
      else check_ui v rest (S i) x y
  end.

Definition touch_handler `{Platform} (v : variant) (fuel : nat) (x y : Z) : M unit :=
  frozen <- get freeze ;;
  if frozen then emit (Printed "[TOUCH] Input frozen" [])
  else
    let '(x, y) := (y, x) in
    emit (Printed "[TOUCH] Raw" [x; y]) ;;
    items <- get Touch_items ;;
    returned <- check_ui v items 0 x y ;;
    if returned then ret tt
    else
      frozen <- get freeze ;;
      if negb frozen then
        let inside :=
          match v with
          | Final => (d_x <? x) && (x <? d_x + draw_area)
                     && (d_y <? y) && (y <? d_y + draw_area)
          | Old => true
          end in
        if inside then
          emit (Printed "[DRAW] Start at" [x; y]) ;;
          process_drawing v fuel x y
        else ret tt
      else ret tt.

(** [TouchScreen.__init__]: the attribute values before the constructor
    body runs, and the body (bus and pin bring-up leave no event). *)
Definition blank : TouchScreen :=
  {| last_x := None; last_y := None; freeze := false; buffer := [];
     Touch_items := []; Touch_callbacks := []; trace := [] |}.

Definition init (v : variant) : M unit :=
  emit (Printed "[SYSTEM] Initializing..." []) ;;
  emit (ScreenClear WHITE) ;;
  emit (Printed "[DISPLAY] Ready (320x240)" []) ;;
  emit (Printed "[TOUCH] Controller ready" []) ;;
  modify (set_last_x None) ;;
  modify (set_last_y None) ;;
  modify (set_freeze false) ;;
  modify (set_buffer (bytearray 9600)) ;;
  modify clear_ui ;;
  initialize_ui v ;;
  emit (Printed "[UI] Ready" []).

(** * Vocabulary of the verification *)

(** The object right after construction. *)
Definition power_on (v : variant) : TouchScreen :=
  match init v blank with
  | Ok (_, self) => self
  | _ => blank
  end.

(** The invariant of [self.buffer]: 9600 bytes. *)
Definition wf_buffer (b : list Z) : Prop :=
  length b = Z.to_nat 9600 /\ Forall (fun v => 0 <= v < 256) b.

(** The pixel a well-formed buffer holds at [(x, y)], read off the bit
    layout directly. *)
Definition ink (b : list Z) (x y : Z) : bool :=
  in_canvas x y &&
  match b !! Z.to_nat ((y * 320 + x) / 8) with
  | Some v => Z.testbit v (7 - (y * 320 + x) mod 8)
  | None => false
  end.

(** A sequence of [set_pixel] calls. *)
Definition set_pixels (calls : list (Z * Z * bool)) : M unit :=
  for_fold calls (fun c _ => set_pixel (fst (fst c)) (snd (fst c)) (snd c)) tt.

(** Stroke events: the brush's circle and the [DRAW] log lines. *)
Definition is_draw (e : event) : bool :=
  match e with
  | FillCircle _ _ _ _ => true
  | Printed text _ => String.prefix "[DRAW]" text
  | _ => false
  end.

(** What reached the serial peripheral: the argument of each [uart.write]. *)
Definition uart_writes (t : list event) : list (list Z) :=
  omap (fun e => match e with UartWrite d => Some d | _ => None end) t.

(** [m] relates the object before and after by [R] whenever it returns. *)
Definition keeps {A} (R : relation TouchScreen) (m : M A) : Prop :=
  forall s a s', m s = Ok (a, s') -> R s s'.

(** Nothing was drawn between [s] and [s']: no pixel gained ink and no
    stroke event was emitted. *)
Definition calm (s s' : TouchScreen) : Prop :=
  (forall x y, ink (buffer s') x y = true -> ink (buffer s) x y = true) /\
  exists evs, trace s' = trace s ++ evs /\ Forall (fun e => is_draw e = false) evs.

(** The drawing bound of main_final.py's [touch_handler]. *)
Definition in_window (x y : Z) : Prop :=
  d_x < x < d_x + draw_area /\ d_y < y < d_y + draw_area.

(** The button main_final.py's [initialize_ui] registers. *)
Definition send_button : TouchArea :=
  {| x_range := Range 248 (248 + 64); y_range := Range 176 (176 + 64) |}.

(** A bench host for running the firmware on concrete inputs: sampling in
    exact arithmetic, truncated toward zero as [int()] does, a writable file
    system, an idle receive line. *)
Definition bench : Platform :=
  {| float_sample := fun first k extent => Z.quot (28 * first + k * extent) 28;
     tmp_writable := true;
     uart_any := 0 |}.

(** The object a method leaves behind when it returns. *)
Definition after (m : M unit) (s : TouchScreen) : TouchScreen :=
  match m s with
  | Ok (_, s') => s'
  | _ => s
  end.

(** mainESPold.py after power-on and one touch at the canvas origin. *)
Definition origin_dot : TouchScreen :=
  after (touch_handler (H := bench) Old 0 0 0) (power_on Old).

(** ... and a second touch five pixels to the right (raw [(0, 5)]): the
    stroke [(0,0) .. (5,0)]. *)
Definition origin_stroke : TouchScreen :=
  after (touch_handler (H := bench) Old 6 0 5) origin_dot.

(** The bounding-box scan as a fold over a picture [p]. *)
Definition scan_cell (p : Z -> Z -> bool) (y : Z) (b : bounds) (x : Z) : bounds :=
  if p x y then widen x y b else b.
Definition scan_row (p : Z -> Z -> bool) (xs : list Z) (b : bounds) (y : Z) : bounds :=
  foldl (scan_cell p y) b xs.
Definition scan (p : Z -> Z -> bool) (ys xs : list Z) (b : bounds) : bounds :=
  foldl (scan_row p xs) b ys.

(** The lattice points the [while True] loop of [draw_line] hands to
    [draw_point], in order: the loop with its drawing left out. *)
Fixpoint line_points (fuel : nat) (lx ly x y dx dy sx sy err : Z)
    : option (list (Z * Z)) :=
  match fuel with
  | O => None
  | S fuel' =>
      if (lx =? x) && (ly =? y) then Some [(lx, ly)]
      else
        let e2 := 2 * err in
        let err1 := if e2 >? - dy then err - dy else err in
        let lx1 := if e2 >? - dy then lx + sx else lx in
        let err2 := if e2 <? dx then err1 + dx else err1 in
        let ly1 := if e2 <? dx then ly + sy else ly in
        cons (lx, ly) <$> line_points fuel' lx1 ly1 x y dx dy sx sy err2
  end.

(** Make [p] the current point, then draw it; and so on along [pts]. *)
Definition move_to (p : Z * Z) : M unit :=
  modify (set_last_x (Some (fst p))) ;; modify (set_last_y (Some (snd p))).
Definition visit (v : variant) (pts : list (Z * Z)) : M unit :=
  for_fold pts (fun p _ => move_to p ;; draw_point v (fst p) (snd p)) tt.

(** Neighbours on the lattice, diagonals included. *)
Definition near (p q : Z * Z) : bool :=
  (Z.abs (fst q - fst p) <=? 1) && (Z.abs (snd q - snd p) <=? 1).
Fixpoint connected8 (pts : list (Z * Z)) : bool :=
  match pts with
  | [] => true
  | p :: rest =>
      match rest with
      | [] => true
      | q :: _ => near p q
      end && connected8 rest
  end.

(** The rectangle spanned by the two endpoints. *)
Definition in_box (x0 y0 x y : Z) (p : Z * Z) : Prop :=
  Z.min x0 x <= fst p <= Z.max x0 x /\ Z.min y0 y <= snd p <= Z.max y0 y.

(** The last point is the same in [s] and [s']. *)
Definition same_cursor (s s' : TouchScreen) : Prop :=
  last_x s' = last_x s /\ last_y s' = last_y s.

(** [m] returns on every object with a well-formed buffer, keeps the buffer
    well-formed and leaves the last point alone. *)
Definition steady (m : M unit) : Prop :=
  forall s, wf_buffer (buffer s) ->
    exists s', m s = Ok (tt, s') /\ wf_buffer (buffer s') /\ same_cursor s s'.

(** The log line of the no-drawing exit. *)
Definition is_no_drawing (e : event) : bool :=
  match e with
  | Printed text _ => String.eqb text "[ERROR] No drawing found!"
  | _ => false
  end.

(** Between [s] and [s'] events were only added, none of them the
    no-drawing line. *)
Definition silent (s s' : TouchScreen) : Prop :=
  exists evs, trace s' = trace s ++ evs /\
              Forall (fun e => is_no_drawing e = false) evs.

(** The cells of the grid in scan order, and the scan as one fold over
    them. *)
Definition cells (ys xs : list Z) : list (Z * Z) :=
  flat_map (fun y => map (fun x => (x, y)) xs) ys.
Definition scan_step (p : Z -> Z -> bool) (b : bounds) (c : Z * Z) : bounds :=
  scan_cell p (snd c) b (fst c).

(** [b] holds the minimal axis-aligned rectangle around the set pixels of
    [p]: it contains them all and each side touches one. *)
Definition bounding_box (p : Z -> Z -> bool) (b : bounds) : Prop :=
  exists lx hx ly hy,
    b = {| min_x := Some lx; max_x := Some hx; min_y := Some ly; max_y := Some hy |} /\
    (forall x y, p x y = true -> lx <= x <= hx /\ ly <= y <= hy) /\
    (exists y, p lx y = true) /\ (exists y, p hx y = true) /\
    (exists x, p x ly = true) /\ (exists x, p x hy = true).

(** The same, for the set pixels among the cells [seen] so far; before the
    first set pixel the locals are still [None]. *)
Definition box_so_far (p : Z -> Z -> bool) (seen : list (Z * Z)) (b : bounds) : Prop :=
  (b = no_bounds /\ forall c, In c seen -> p (fst c) (snd c) = false) \/
  exists lx hx ly hy,
    b = {| min_x := Some lx; max_x := Some hx; min_y := Some ly; max_y := Some hy |} /\
    (forall c, In c seen -> p (fst c) (snd c) = true ->
               lx <= fst c <= hx /\ ly <= snd c <= hy) /\
    (exists c, In c seen /\ p (fst c) (snd c) = true /\ fst c = lx) /\
    (exists c, In c seen /\ p (fst c) (snd c) = true /\ fst c = hx) /\
    (exists c, In c seen /\ p (fst c) (snd c) = true /\ snd c = ly) /\
    (exists c, In c seen /\ p (fst c) (snd c) = true /\ snd c = hy).

(** Bit [k] of a packed sample, most significant bit first. *)
Definition sample_bit (bits : list Z) (k : Z) : bool :=
  match bits !! Z.to_nat (k / 8) with
  | Some v => Z.testbit v (7 - k mod 8)
  | None => false
  end.

(** The brush of [draw_point] stamped at [(x, y)]: that pixel in
    mainESPold.py; that pixel and its four axis neighbours in
    main_final.py. *)
Definition brush (v : variant) (x y x' y' : Z) : Prop :=
  match v with
  | Old => x' = x /\ y' = y
  | Final => Z.abs (x' - x) + Z.abs (y' - y) <= 1
  end.

(** Pixel [(x', y')] lies on the canvas under the brush stamped at one of
    the points of [pts] that are on the canvas. *)
Definition stamped (v : variant) (pts : list (Z * Z)) (x' y' : Z) : Prop :=
  exists p, In p pts /\ in_canvas (fst p) (snd p) = true /\
            in_canvas x' y' = true /\ brush v (fst p) (snd p) x' y'.

(** Latch and registry are the same in [s] and [s']. *)
Definition same_ui (s s' : TouchScreen) : Prop :=
  freeze s' = freeze s /\ Touch_items s' = Touch_items s /\
  Touch_callbacks s' = Touch_callbacks s.

(** Only the log differs between [s] and [s']. *)
Definition only_logged (s s' : TouchScreen) : Prop :=
  buffer s' = buffer s /\ last_x s' = last_x s /\ last_y s' = last_y s /\
  same_ui s s'.

(** The one area [initialize_ui] registers. *)
Definition button (v : variant) : TouchArea :=
  match v with
  | Final => send_button
  | Old => {| x_range := Range 280 (280 + 32); y_range := Range 208 (208 + 32) |}
  end.

(** The touch controller calling [touch_handler] once per raw touch. *)
Definition play `{Platform} (v : variant) (fuel : nat) (touches : list (Z * Z)) : M unit :=
  for_fold touches (fun t _ => touch_handler v fuel (fst t) (snd t)) tt.

(** The raw touch [t], transposed as the handler does, lies on the button. *)
Definition presses (v : variant) (t : Z * Z) : bool :=
  in_range (snd t) (x_range (button v)) && in_range (fst t) (y_range (button v)).

(** How many of the touches press the button. *)
Definition saves (v : variant) (touches : list (Z * Z)) : nat :=
  length (List.filter (presses v) touches).

(** The largest coordinate magnitude among the touches. *)
Definition span (touches : list (Z * Z)) : Z :=
  foldr (fun t b => Z.max (Z.max (Z.abs (fst t)) (Z.abs (snd t))) b) 0 touches.

(** Where a point handed to [process_drawing] can lie: inside the window in
    main_final.py; for mainESPold.py, within [B] of the origin when the
    touches are. *)
Definition reach (v : variant) (B : Z) (x y : Z) : Prop :=
  match v with
  | Final => in_window x y
  | Old => Z.abs x <= B /\ Z.abs y <= B
  end.

(** Iterations of the [while True] loop of [draw_line] that suffice between
    two such points. *)
Definition enough (v : variant) (B : Z) : nat :=
  match v with
  | Final => 53
  | Old => Z.to_nat (4 * B + 1)
  end.

(** What holds of the object between two touch interrupts. *)
Definition Inv (v : variant) (B : Z) (s : TouchScreen) : Prop :=
  wf_buffer (buffer s) /\
  freeze s = false /\
  Touch_items s <> [] /\
  Forall (eq (button v)) (Touch_items s) /\
  length (Touch_callbacks s) = length (Touch_items s) /\
  ((last_x s = None /\ last_y s = None) \/
   exists lx ly, last_x s = Some lx /\ last_y s = Some ly /\ reach v B lx ly) /\
  (v = Final ->
   forall x y, ink (buffer s) x y = true ->
               d_x <= x <= d_x + draw_area /\ d_y <= y <= d_y + draw_area).

(** main_final.py after power-on and one touch inside the window, at the
    transposed point [(150, 110)]. *)
Definition window_dot : TouchScreen :=
  after (play (H := bench) Final 53 [(110, 150)]) (power_on Final).

(** The set pixels of [p] among the cells [seen], in the order of [seen]. *)
Definition set_cells (p : Z -> Z -> bool) (seen : list (Z * Z)) : list (Z * Z) :=
  filter (fun c => p (fst c) (snd c) = true) seen.

(** The order of the scan: an earlier row, or the same row further left. *)
Definition scanned_before (c c' : Z * Z) : Prop :=
  snd c < snd c' \/ (snd c = snd c' /\ fst c < fst c').

(** What the four locals of the scan hold after the cells [seen], none of
    them with a negative coordinate: the upper bounds are the largest column
    and row of a set pixel; each lower bound is the column, or row, of some
    set pixel, and is 0 exactly when the set pixel seen last has that
    coordinate 0. *)
Definition scan_state (p : Z -> Z -> bool) (seen : list (Z * Z)) (b : bounds) : Prop :=
  match list.last (set_cells p seen) with
  | None => b = no_bounds
  | Some c =>
      exists lx hx ly hy,
        b = {| min_x := Some lx; max_x := Some hx;
               min_y := Some ly; max_y := Some hy |} /\
        (lx = 0 <-> fst c = 0) /\ (ly = 0 <-> snd c = 0) /\
        (exists c', c' ∈ set_cells p seen /\ fst c' = lx) /\
        (exists c', c' ∈ set_cells p seen /\ snd c' = ly) /\
        (forall c', c' ∈ set_cells p seen -> fst c' <= hx /\ snd c' <= hy) /\
        (exists c', c' ∈ set_cells p seen /\ fst c' = hx) /\
        (exists c', c' ∈ set_cells p seen /\ snd c' = hy)
  end.

(** The pictures mainESPold.py takes for an empty canvas: nothing set, or a
    set pixel in column 0 with every other set pixel in a row above it. *)
Definition looks_blank (p : Z -> Z -> bool) : Prop :=
  (forall x y, p x y = false) \/
  exists y0, p 0 y0 = true /\
             forall x y, p x y = true -> y < y0 \/ (x = 0 /\ y = y0).

(** main_final.py after power-on and one touch at the transposed point
    [(d_x + 1, 110)], one column inside the window. *)
Definition origin_column_dot : TouchScreen :=
  after (touch_handler (H := bench) Final 0 110 141) (power_on Final).

(** ... and then a touch at the transposed point [(d_x, 110)], on the
    window's origin column. *)
Definition origin_column_touched : TouchScreen :=
  after (touch_handler (H := bench) Final 0 110 d_x) origin_column_dot.

(** The centres of the circles the display was asked to fill, in order:
    one for each call of [draw_point] on a point of the canvas. *)
Definition circles (t : list event) : list (Z * Z) :=
  omap (fun e => match e with FillCircle x y _ _ => Some (x, y) | _ => None end) t.

(** ** The floats of [scale_and_convert_to_bytearray]

    IEEE 754 binary floats of precision [prec] and exponent bound [emax], with
    the operations of the standard library's specification: 24 and 128 for the
    single-precision floats of MicroPython on the ESP32, 53 and 1024 for the
    doubles of CPython. *)

(** [float(n)], the conversion an [int] operand gets next to a float. *)
Definition py_float (prec emax n : Z) : SpecFloat.spec_float :=
  SpecFloat.binary_normalize prec emax n 0 false.

(** [int(f)]: truncation toward zero; [None] where Python raises
    [OverflowError] (infinity) or [ValueError] (not a number). *)
Definition py_int (f : SpecFloat.spec_float) : option Z :=
  match f with
  | SpecFloat.S754_zero _ => Some 0
  | SpecFloat.S754_finite s m e =>
      let a := if 0 <=? e then Z.pos m * 2 ^ e else Z.pos m / 2 ^ (- e) in
      Some (if s then - a else a)
  | _ => None
  end.

(** [int(first + k * scale)] with [scale = extent / 28]: lines 158 and 170
    for the columns, 159 and 171 for the rows. *)
Definition sample_point (prec emax first k extent : Z) : option Z :=
  let scale :=
    SpecFloat.SFdiv prec emax (py_float prec emax extent) (py_float prec emax 28) in
  py_int (SpecFloat.SFadd prec emax (py_float prec emax first)
            (SpecFloat.SFmul prec emax (py_float prec emax k) scale)).

(** None of the 28 conversions along one axis raises. *)
Definition samples_finite (prec emax first extent : Z) : bool :=
  forallb (fun k => match sample_point prec emax first k extent with
                    | Some _ => true
                    | None => false
                    end)
          (seqZ 0 28).

(** A host with such floats. *)
Definition ieee (prec emax : Z) (writable : bool) (any : Z) : Platform :=
  {| float_sample := fun first k extent =>
                       default 0 (sample_point prec emax first k extent);
     tmp_writable := writable;
     uart_any := any |}.

(** [m] returns on every object with a well-formed buffer, keeps the buffer
    well-formed and the last point, and has the display fill circles at the
    points [l], in that order. *)
Definition paints (l : list (Z * Z)) (m : M unit) : Prop :=
  forall s, wf_buffer (buffer s) ->
    exists s' evs,
      m s = Ok (tt, s') /\ wf_buffer (buffer s') /\ same_cursor s s' /\
      trace s' = trace s ++ evs /\ circles evs = l.

(** * Verification *)

(** ** Bytes and bits *)


Lemma in_canvas_spec x y :
  in_canvas x y = true <-> 0 <= x < 320 /\ 0 <= y < 240.
Proof. unfold in_canvas. rewrite !andb_true_iff. lia. Qed.

Lemma in_canvas_false x y :
  in_canvas x y = false <-> ~ (0 <= x < 320 /\ 0 <= y < 240).
Proof. rewrite <- in_canvas_spec. destruct (in_canvas x y); split; congruence. Qed.

Lemma canvas_index x y :
  0 <= x < 320 -> 0 <= y < 240 ->
  0 <= (y * 320 + x) / 8 < 9600 /\ 0 <= 7 - (y * 320 + x) mod 8 <= 7.
Proof. intros Hx Hy. split; Z.to_euclidean_division_equations; lia. Qed.

Lemma mask_test b k :
  0 <= k -> (Z.land b (Z.shiftl 1 k) =? 0) = negb (Z.testbit b k).
Proof.
  intros Hk. rewrite Z.shiftl_1_l.
  assert (Hland : Z.land b (2 ^ k) = if Z.testbit b k then 2 ^ k else 0).
  { apply Z.bits_inj'. intros n Hn.
    rewrite Z.land_spec, Z.pow2_bits_eqb by lia.
    destruct (Z.eqb_spec k n) as [->|Hne].
    - destruct (Z.testbit b n); simpl.
      + rewrite Z.pow2_bits_eqb, Z.eqb_refl by lia. reflexivity.
      + rewrite Z.bits_0. reflexivity.
    - rewrite andb_false_r. destruct (Z.testbit b k).
      + rewrite Z.pow2_bits_eqb by lia. symmetry. apply Z.eqb_neq. exact Hne.
      + rewrite Z.bits_0. reflexivity. }
  rewrite Hland. destruct (Z.testbit b k); simpl.
  - apply Z.eqb_neq. pose proof (Z.pow_pos_nonneg 2 k). lia.
  - reflexivity.
Qed.

Lemma byte_lor old m :
  0 <= old < 256 -> 0 <= m < 256 -> 0 <= Z.lor old m < 256.
Proof.
  intros Ho Hm. split; [apply Z.lor_nonneg; lia|].
  destruct (Z.eq_dec (Z.lor old m) 0) as [->|Hnz]; [lia|].
  assert (0 <= Z.lor old m) by (apply Z.lor_nonneg; lia).
  change 256 with (2 ^ 8). apply Z.log2_lt_pow2; [lia|].
  rewrite Z.log2_lor by lia.
  assert (Hlog : forall a, 0 <= a < 256 -> Z.log2 a < 8).
  { intros a Ha. destruct (Z.eq_dec a 0) as [->|]; [reflexivity|].
    apply Z.log2_lt_pow2; [lia|]. change (2 ^ 8) with 256. lia. }
  pose proof (Hlog old Ho). pose proof (Hlog m Hm). lia.
Qed.

Lemma bit_mask_byte (state : bool) k :
  0 <= k <= 7 -> 0 <= Z.shiftl (Z.b2z state) k < 256.
Proof.
  intros Hk. rewrite Z.shiftl_mul_pow2 by lia.
  assert (0 < 2 ^ k <= 2 ^ 7).
  { split; [apply Z.pow_pos_nonneg; lia|apply Z.pow_le_mono_r; lia]. }
  change (2 ^ 7) with 128 in *. destruct state; simpl; lia.
Qed.

Lemma getitem_lookup (b : list Z) i :
  0 <= i < Z.of_nat (length b) ->
  exists v, b !! Z.to_nat i = Some v /\ getitem b i = Ok v.
Proof.
  intros Hi. unfold getitem, py_index.
  destruct (Z.ltb_spec i 0); [lia|].
  destruct (Z.ltb_spec i 0); [lia|].
  destruct (Z.leb_spec (Z.of_nat (length b)) i); [lia|]. simpl.
  destruct (lookup_lt_is_Some_2 b (Z.to_nat i)) as [v Hv]; [lia|].
  exists v. rewrite Hv. auto.
Qed.

Lemma setitem_insert (b : list Z) i v :
  0 <= i < Z.of_nat (length b) -> 0 <= v < 256 ->
  setitem b i v = Ok (<[Z.to_nat i := v]> b).
Proof.
  intros Hi Hv. unfold setitem, py_index.
  destruct (Z.ltb_spec i 0); [lia|].
  destruct (Z.ltb_spec i 0); [lia|].
  destruct (Z.leb_spec (Z.of_nat (length b)) i); [lia|]. simpl.
  destruct (Z.leb_spec 0 v); [|lia].
  destruct (Z.ltb_spec v 256); [|lia]. reflexivity.
Qed.

Lemma wf_buffer_lookup b i v :
  wf_buffer b -> b !! i = Some v -> 0 <= v < 256.
Proof.
  intros [_ Hall] Hi. rewrite Forall_lookup in Hall. exact (Hall i v Hi).
Qed.

Lemma wf_buffer_insert b i v :
  wf_buffer b -> 0 <= v < 256 -> wf_buffer (<[i := v]> b).
Proof.
  intros [Hlen Hall] Hv. split.
  - rewrite length_insert. exact Hlen.
  - apply Forall_insert; assumption.
Qed.

Lemma wf_bytearray : wf_buffer (bytearray 9600).
Proof.
  split; unfold bytearray.
  - apply length_replicate.
  - apply Forall_replicate. lia.
Qed.

(** ** Frame buffer accessors *)

Lemma get_pixel_ink x y self :
  length (buffer self) = Z.to_nat 9600 ->
  get_pixel x y self = Ok (ink (buffer self) x y, self).
Proof.
  intros Hlen. unfold get_pixel, ink.
  destruct (in_canvas x y) eqn:Hc; [|reflexivity].
  apply in_canvas_spec in Hc as [Hx Hy].
  destruct (canvas_index x y Hx Hy) as [Hbyte Hbit].
  destruct (getitem_lookup (buffer self) ((y * 320 + x) / 8)) as (v & Hv & Hget); [lia|].
  unfold bind, get, lift, ret. rewrite Hget, Hv. simpl.
  rewrite mask_test by lia. rewrite negb_involutive. reflexivity.
Qed.

Lemma set_pixel_outside x y state self :
  in_canvas x y = false -> set_pixel x y state self = Ok (tt, self).
Proof. intros Hc. unfold set_pixel. rewrite Hc. reflexivity. Qed.

Lemma set_pixel_inside x y state self :
  wf_buffer (buffer self) -> in_canvas x y = true ->
  exists old,
    buffer self !! Z.to_nat ((y * 320 + x) / 8) = Some old /\
    set_pixel x y state self =
      Ok (tt, set_buffer
                (<[Z.to_nat ((y * 320 + x) / 8) :=
                     Z.lor old (Z.shiftl (Z.b2z state) (7 - (y * 320 + x) mod 8))]>
                   (buffer self)) self).
Proof.
  intros Hwf Hc. unfold set_pixel. rewrite Hc.
  apply in_canvas_spec in Hc as [Hx Hy].
  destruct (canvas_index x y Hx Hy) as [Hbyte Hbit].
  pose proof Hwf as [Hlen _].
  destruct (getitem_lookup (buffer self) ((y * 320 + x) / 8)) as (old & Hold & Hget); [lia|].
  exists old. split; [exact Hold|].
  unfold bind, get, lift, ior_item, modify. rewrite Hget. simpl.
  rewrite setitem_insert; [reflexivity|lia|].
  apply byte_lor; [eapply wf_buffer_lookup; eauto|apply bit_mask_byte; lia].
Qed.

(** [set_pixel] never raises on a well-formed buffer and keeps it
    well-formed. *)
Lemma set_pixel_total x y state self :
  wf_buffer (buffer self) ->
  exists buf, set_pixel x y state self = Ok (tt, set_buffer buf self) /\ wf_buffer buf.
Proof.
  intros Hwf. destruct (in_canvas x y) eqn:Hc.
  - destruct (set_pixel_inside x y state self Hwf Hc) as (old & Hold & Hrun).
    eexists. split; [exact Hrun|].
    apply in_canvas_spec in Hc as [Hx Hy].
    destruct (canvas_index x y Hx Hy) as [Hbyte Hbit].
    apply wf_buffer_insert; [exact Hwf|].
    apply byte_lor; [eapply wf_buffer_lookup; eauto|apply bit_mask_byte; lia].
  - exists (buffer self). rewrite set_pixel_outside by exact Hc.
    split; [destruct self; reflexivity|exact Hwf].
Qed.

Lemma canvas_index_inj x y x' y' :
  0 <= x < 320 -> 0 <= y < 240 -> 0 <= x' < 320 -> 0 <= y' < 240 ->
  (y' * 320 + x') / 8 = (y * 320 + x) / 8 ->
  (y' * 320 + x') mod 8 = (y * 320 + x) mod 8 ->
  x' = x /\ y' = y.
Proof. intros Hx Hy Hx' Hy' Hd Hm. Z.to_euclidean_division_equations. lia. Qed.

(** Writing one pixel changes that pixel and no other. *)
Lemma ink_insert (b : list Z) x y (state : bool) old x' y' :
  0 <= x < 320 -> 0 <= y < 240 ->
  b !! Z.to_nat ((y * 320 + x) / 8) = Some old ->
  ink (<[Z.to_nat ((y * 320 + x) / 8) :=
           Z.lor old (Z.shiftl (Z.b2z state) (7 - (y * 320 + x) mod 8))]> b) x' y'
  = (state && (x' =? x) && (y' =? y)) || ink b x' y'.
Proof.
  intros Hx Hy Hold. unfold ink.
  destruct (in_canvas x' y') eqn:Hc'; simpl.
  2:{ apply in_canvas_false in Hc'.
      destruct state, (Z.eqb_spec x' x), (Z.eqb_spec y' y); simpl; try reflexivity.
      subst. lia. }
  apply in_canvas_spec in Hc' as [Hx' Hy'].
  destruct (canvas_index x y Hx Hy) as [Hbyte Hbit].
  destruct (canvas_index x' y' Hx' Hy') as [Hbyte' Hbit'].
  assert (Hlt : (Z.to_nat ((y * 320 + x) / 8) < length b)%nat)
    by (eapply lookup_lt_Some; eauto).
  destruct (decide (Z.to_nat ((y' * 320 + x') / 8) = Z.to_nat ((y * 320 + x) / 8))) as [Heq|Hne].
  - rewrite Heq, list_lookup_insert_eq, Hold by exact Hlt.
    rewrite Z.lor_spec, Z.shiftl_spec by lia.
    destruct state; simpl.
    + replace (7 - (y' * 320 + x') mod 8 - (7 - (y * 320 + x) mod 8))
        with ((y * 320 + x) mod 8 - (y' * 320 + x') mod 8) by lia.
      destruct (Z.eq_dec ((y' * 320 + x') mod 8) ((y * 320 + x) mod 8)) as [Hm|Hm].
      * destruct (canvas_index_inj x y x' y') as [-> ->]; try lia.
        rewrite Z.sub_diag, !Z.eqb_refl. simpl. apply orb_true_r.
      * assert (Hbitf : Z.testbit 1 ((y * 320 + x) mod 8 - (y' * 320 + x') mod 8) = false).
        { destruct (Z.ltb_spec ((y * 320 + x) mod 8 - (y' * 320 + x') mod 8) 0).
          - apply Z.testbit_neg_r. lia.
          - change 1 with (2 ^ 0). rewrite Z.pow2_bits_eqb by lia.
            apply Z.eqb_neq. lia. }
        rewrite Hbitf, orb_false_r.
        destruct (Z.eqb_spec x' x), (Z.eqb_spec y' y); simpl; try reflexivity.
        subst. lia.
    + rewrite Z.bits_0, orb_false_r. reflexivity.
  - rewrite list_lookup_insert_ne by congruence.
    destruct state, (Z.eqb_spec x' x), (Z.eqb_spec y' y); simpl; try reflexivity.
    subst. congruence.
Qed.

Lemma bytearray_lookup n i v : bytearray n !! i = Some v -> v = 0.
Proof. unfold bytearray. intros Hv. apply lookup_replicate in Hv. tauto. Qed.

Lemma ink_bytearray x y : ink (bytearray 9600) x y = false.
Proof.
  unfold ink. destruct (in_canvas x y); [|reflexivity]. rewrite andb_true_l.
  destruct (bytearray 9600 !! Z.to_nat ((y * 320 + x) / 8)) as [v|] eqn:Hv;
    [|reflexivity].
  apply bytearray_lookup in Hv as ->. apply Z.bits_0.
Qed.

(** ** Properties of the frame buffer *)

Lemma set_buffer_id self : set_buffer (buffer self) self = self.
Proof. destruct self; reflexivity. Qed.

Lemma reset_canvas_run v self :
  exists self', reset_canvas v self = Ok (tt, self') /\
    buffer self' = bytearray 9600 /\ last_x self' = None /\ last_y self' = None /\
    freeze self' = freeze self.
Proof. destruct v; eexists; (split; [reflexivity|]); simpl; auto. Qed.

(** C4: on the 9600-byte buffer, for every in-canvas [(x, y)],
    [set_pixel(x, y, True)] ORs the mask [1 << (7 - idx % 8)] into byte
    [idx // 8] (with [idx = y * 320 + x]), so that bit is set and a following
    [get_pixel(x, y)] returns [True]; and after the clear done by
    [reset_canvas], [get_pixel] returns [False] everywhere. *)
Theorem set_get_clear_pixel v self x y :
  wf_buffer (buffer self) -> 0 <= x < 320 -> 0 <= y < 240 ->
  let byte := Z.to_nat ((y * 320 + x) / 8) in
  let bit := 7 - (y * 320 + x) mod 8 in
  (exists old self',
      buffer self !! byte = Some old /\
      set_pixel x y true self = Ok (tt, self') /\
      buffer self' = <[byte := Z.lor old (Z.shiftl 1 bit)]> (buffer self) /\
      (exists now, buffer self' !! byte = Some now /\ Z.testbit now bit = true) /\
      get_pixel x y self' = Ok (true, self')) /\
  (exists cleared,
      reset_canvas v self = Ok (tt, cleared) /\
      buffer cleared = bytearray 9600 /\
      forall x' y', get_pixel x' y' cleared = Ok (false, cleared)).
Proof.
  intros Hwf Hx Hy byte bit. split.
  - assert (Hc : in_canvas x y = true) by (apply in_canvas_spec; auto).
    destruct (set_pixel_inside x y true self Hwf Hc) as (old & Hold & Hrun).
    destruct (canvas_index x y Hx Hy) as [Hbyte Hbit].
    exists old. eexists. split; [exact Hold|]. split; [exact Hrun|].
    split; [reflexivity|].
    assert (Hlt : (byte < length (buffer self))%nat) by (eapply lookup_lt_Some; eauto).
    split.
    + eexists. split; [apply list_lookup_insert_eq; exact Hlt|].
      rewrite Z.lor_spec, Z.shiftl_spec by lia. simpl.
      rewrite Z.sub_diag. apply orb_true_r.
    + rewrite get_pixel_ink by (simpl; rewrite length_insert; apply Hwf).
      simpl buffer. fold byte bit.
      pose proof (ink_insert (buffer self) x y true old x y Hx Hy Hold) as Hink.
      simpl in Hink. fold byte bit in Hink. rewrite Hink, !Z.eqb_refl. reflexivity.
  - destruct (reset_canvas_run v self) as (cleared & Hrun & Hbuf & _).
    exists cleared. split; [exact Hrun|]. split; [exact Hbuf|].
    intros x' y'. rewrite get_pixel_ink by (rewrite Hbuf; apply wf_bytearray).
    rewrite Hbuf, ink_bytearray. reflexivity.
Qed.

(** C5: for coordinates outside the canvas, [set_pixel] returns normally with
    the object (hence the buffer) unchanged, whatever [state] is, and
    [get_pixel] returns [False]; neither raises. *)
Theorem pixel_outside_canvas self x y state :
  ~ (0 <= x < 320 /\ 0 <= y < 240) ->
  set_pixel x y state self = Ok (tt, self) /\
  get_pixel x y self = Ok (false, self).
Proof.
  intros Hout. apply in_canvas_false in Hout. split.
  - apply set_pixel_outside. exact Hout.
  - unfold get_pixel. rewrite Hout. reflexivity.
Qed.

Lemma set_pixel_false x y self :
  wf_buffer (buffer self) -> set_pixel x y false self = Ok (tt, self).
Proof.
  intros Hwf. destruct (in_canvas x y) eqn:Hc.
  - destruct (set_pixel_inside x y false self Hwf Hc) as (old & Hold & ->).
    simpl Z.b2z. rewrite Z.shiftl_0_l, Z.lor_0_r.
    rewrite list_insert_id by exact Hold. rewrite set_buffer_id. reflexivity.
  - apply set_pixel_outside. exact Hc.
Qed.

(** What one [set_pixel] call does to the picture. *)
Lemma set_pixel_ink x y state self :
  wf_buffer (buffer self) ->
  exists buf,
    set_pixel x y state self = Ok (tt, set_buffer buf self) /\ wf_buffer buf /\
    forall x' y',
      ink buf x' y' =
      (state && in_canvas x y && (x' =? x) && (y' =? y)) || ink (buffer self) x' y'.
Proof.
  intros Hwf. destruct (in_canvas x y) eqn:Hc.
  - destruct (set_pixel_inside x y state self Hwf Hc) as (old & Hold & Hrun).
    pose proof Hc as Hc'. apply in_canvas_spec in Hc' as [Hx Hy].
    destruct (canvas_index x y Hx Hy) as [Hbyte Hbit].
    eexists. split; [exact Hrun|]. split.
    + apply wf_buffer_insert; [exact Hwf|].
      apply byte_lor; [eapply wf_buffer_lookup; eauto|apply bit_mask_byte; lia].
    + intros x' y'. rewrite ink_insert by assumption.
      rewrite andb_true_r. reflexivity.
  - exists (buffer self). rewrite set_pixel_outside, set_buffer_id by exact Hc.
    split; [reflexivity|]. split; [exact Hwf|].
    intros x' y'. rewrite andb_false_r. reflexivity.
Qed.

Lemma set_pixels_grow calls : forall self,
  wf_buffer (buffer self) ->
  exists buf,
    set_pixels calls self = Ok (tt, set_buffer buf self) /\ wf_buffer buf /\
    forall x y, ink (buffer self) x y = true -> ink buf x y = true.
Proof.
  unfold set_pixels. induction calls as [|[[cx cy] cs] calls IH]; intros self Hwf.
  - exists (buffer self). simpl. unfold ret. rewrite set_buffer_id. auto.
  - destruct (set_pixel_ink cx cy cs self Hwf) as (buf1 & Hrun1 & Hwf1 & Hink1).
    destruct (IH (set_buffer buf1 self) Hwf1) as (buf2 & Hrun2 & Hwf2 & Hink2).
    exists buf2. simpl. unfold bind at 1. rewrite Hrun1, Hrun2.
    split; [reflexivity|]. split; [exact Hwf2|].
    intros x y Hxy. apply Hink2. simpl. rewrite Hink1, Hxy. apply orb_true_r.
Qed.

(** C9: [set_pixel(x, y, False)] ORs in a zero mask and leaves the object
    unchanged; under any sequence of [set_pixel] calls every pixel that reads
    [True] before still reads [True] after; and [reset_canvas] is what
    brings every pixel back to [False]. *)
Theorem set_pixel_only_adds_ink self :
  wf_buffer (buffer self) ->
  (forall x y, 0 <= x < 320 -> 0 <= y < 240 ->
     set_pixel x y false self = Ok (tt, self)) /\
  (forall calls, exists self',
     set_pixels calls self = Ok (tt, self') /\
     forall x y, get_pixel x y self = Ok (true, self) ->
                 get_pixel x y self' = Ok (true, self')) /\
  (forall v, exists cleared,
     reset_canvas v self = Ok (tt, cleared) /\
     forall x y, get_pixel x y cleared = Ok (false, cleared)).
Proof.
  intros Hwf. split; [|split].
  - intros x y _ _. apply set_pixel_false. exact Hwf.
  - intros calls.
    destruct (set_pixels_grow calls self Hwf) as (buf & Hrun & Hwf' & Hgrow).
    eexists. split; [exact Hrun|].
    intros x y. rewrite !get_pixel_ink by (first [apply Hwf|apply Hwf']).
    simpl. intros Hget. rewrite Hgrow; [reflexivity|]. congruence.
  - intros v. destruct (reset_canvas_run v self) as (cleared & Hrun & Hbuf & _).
    exists cleared. split; [exact Hrun|].
    intros x y. rewrite get_pixel_ink by (rewrite Hbuf; apply wf_bytearray).
    rewrite Hbuf, ink_bytearray. reflexivity.
Qed.

(** ** Footprints of the methods *)

Section Footprint.
Context (R : relation TouchScreen) `{!Reflexive R} `{!Transitive R}.

Lemma keeps_ret {A} (a : A) : keeps R (ret a).
Proof. intros s a' s' [= _ <-]. reflexivity. Qed.

Lemma keeps_bind {A B} (m : M A) (k : A -> M B) :
  keeps R m -> (forall a, keeps R (k a)) -> keeps R (bind m k).
Proof.
  intros Hm Hk s b s'. unfold bind.
  destruct (m s) as [[a s1]| |] eqn:Hms; try discriminate.
  intros Hks. transitivity s1; [eapply Hm|eapply Hk]; eauto.
Qed.

Lemma keeps_get {A} (f : TouchScreen -> A) : keeps R (get f).
Proof. intros s a s' [= _ <-]. reflexivity. Qed.

Lemma keeps_lift {A} (o : outcome A) : keeps R (lift o).
Proof. intros s a s'. unfold lift. destruct o; simpl; intros [= _ <-]. reflexivity. Qed.

Lemma keeps_raise {A} e : keeps R (@raise A e).
Proof. intros s a s'. discriminate. Qed.

Lemma keeps_out_of_fuel {A} : keeps R (@out_of_fuel A).
Proof. intros s a s'. discriminate. Qed.

Lemma keeps_as_int o : keeps R (as_int o).
Proof. destruct o; [apply keeps_ret|apply keeps_raise]. Qed.

Lemma keeps_modify f : (forall s, R s (f s)) -> keeps R (modify f).
Proof. intros Hf s a s' [= _ <-]. apply Hf. Qed.

Lemma keeps_for_fold {A B} (l : list A) (body : A -> B -> M B) :
  (forall v acc, keeps R (body v acc)) -> forall acc, keeps R (for_fold l body acc).
Proof.
  intros Hbody. induction l as [|v l IH]; intros acc; simpl.
  - apply keeps_ret.
  - apply keeps_bind; [apply Hbody|exact IH].
Qed.

Lemma keeps_get_pixel x y : keeps R (get_pixel x y).
Proof.
  unfold get_pixel. destruct (in_canvas x y); [|apply keeps_ret].
  apply keeps_bind; [apply keeps_get|intros buf].
  apply keeps_bind; [apply keeps_lift|intros b]. apply keeps_ret.
Qed.
End Footprint.

Ltac footprint_step :=
  lazymatch goal with
  | |- keeps _ (ret _) => apply keeps_ret; typeclasses eauto
  | |- keeps _ (get _) => apply keeps_get; typeclasses eauto
  | |- keeps _ (lift _) => apply keeps_lift; typeclasses eauto
  | |- keeps _ (raise _) => apply keeps_raise
  | |- keeps _ out_of_fuel => apply keeps_out_of_fuel
  | |- keeps _ (as_int _) => apply keeps_as_int; typeclasses eauto
  | |- keeps _ (get_pixel _ _) => apply keeps_get_pixel; typeclasses eauto
  | |- keeps _ (for_fold _ _ _) =>
      apply keeps_for_fold; [typeclasses eauto|typeclasses eauto|intros ? ?]
  | |- keeps _ (bind _ _) => apply keeps_bind; [typeclasses eauto| |intros ?]
  | |- keeps _ (if ?b then _ else _) => destruct b
  | |- keeps _ (match ?x with _ => _ end) => destruct x
  end.

#[local] Instance calm_refl : Reflexive calm.
Proof.
  intros s. split; [auto|]. exists []. rewrite app_nil_r. auto.
Qed.

#[local] Instance calm_trans : Transitive calm.
Proof.
  intros s1 s2 s3 [Hink12 (e12 & Ht12 & Hq12)] [Hink23 (e23 & Ht23 & Hq23)]. split.
  - auto.
  - exists (e12 ++ e23). rewrite Ht23, Ht12, app_assoc.
    split; [reflexivity|]. apply Forall_app; auto.
Qed.

Lemma calm_emit e : is_draw e = false -> keeps calm (emit e).
Proof.
  intros He. apply keeps_modify. intros s. split; [auto|].
  exists [e]. split; [reflexivity|]. constructor; [exact He|constructor].
Qed.

Lemma calm_same f :
  (forall s, buffer (f s) = buffer s /\ trace (f s) = trace s) ->
  keeps calm (modify f).
Proof.
  intros Hf. apply keeps_modify. intros s. destruct (Hf s) as [Hb Ht]. split.
  - intros x y. rewrite Hb. auto.
  - exists []. rewrite Ht, app_nil_r. auto.
Qed.

Lemma calm_clear : keeps calm (modify (set_buffer (bytearray 9600))).
Proof.
  apply keeps_modify. intros s. split.
  - intros x y. simpl. rewrite ink_bytearray. discriminate.
  - exists []. simpl. rewrite app_nil_r. auto.
Qed.

Create HintDb calm.

Ltac calm_step :=
  lazymatch goal with
  | |- keeps calm (emit _) => apply calm_emit; reflexivity
  | |- keeps calm (modify (set_buffer (bytearray 9600))) => apply calm_clear
  | |- keeps calm (modify _) => apply calm_same; intros ?; split; reflexivity
  | |- _ => first [footprint_step | solve [auto with calm nocore]]
  end.

Lemma calm_initialize_ui v : keeps calm (initialize_ui v).
Proof.
  unfold initialize_ui, addTouchItem, TouchArea_init. destruct v; repeat calm_step.
Qed.
#[local] Hint Resolve calm_initialize_ui : calm.

Lemma calm_reset_canvas v : keeps calm (reset_canvas v).
Proof.
  unfold reset_canvas. repeat calm_step.
Qed.
#[local] Hint Resolve calm_reset_canvas : calm.

Lemma calm_pack_bit pixel acc : keeps calm (pack_bit pixel acc).
Proof. unfold pack_bit. destruct acc. repeat calm_step. Qed.
#[local] Hint Resolve calm_pack_bit : calm.

Section WithPlatform.
Context `{Platform}.

Lemma calm_send_uart_data v data : keeps calm (send_uart_data v data).
Proof. unfold send_uart_data. repeat calm_step. Qed.
#[local] Hint Resolve calm_send_uart_data : calm.

Lemma calm_process_mnist_data v : keeps calm (process_mnist_data v).
Proof.
  unfold process_mnist_data, find_bounds, extract_mnist_region,
    scale_and_convert_to_bytearray.
  cbv zeta. repeat calm_step.
Qed.
#[local] Hint Resolve calm_process_mnist_data : calm.

Lemma calm_save_mnist v : keeps calm (save_mnist v).
Proof.
  unfold save_mnist.
  repeat calm_step.
Qed.
#[local] Hint Resolve calm_save_mnist : calm.

Lemma calm_check_ui v items x y : forall i, keeps calm (check_ui v items i x y).
Proof.
  induction items as [|area rest IH]; intros i; simpl.
  - calm_step.
  - destruct (in_range x (x_range area) && in_range y (y_range area)); [|apply IH].
    unfold call. repeat calm_step.
Qed.

Lemma check_ui_miss v items x y : forall i self,
  Forall (fun a => in_range x (x_range a) && in_range y (y_range a) = false) items ->
  check_ui v items i x y self = Ok (false, self).
Proof.
  induction items as [|area rest IH]; intros i self Hall; simpl.
  - reflexivity.
  - inversion Hall as [|? ? Ha Hrest]; subst. rewrite Ha. apply IH. exact Hrest.
Qed.
End WithPlatform.

(** ** Properties of the touch handler *)

(** C6: with the freeze latch set, [touch_handler] returns at once for every
    raw touch: the buffer, the last point, the latch and the registry are
    unchanged, and the only event is the log line, so no registered action
    ran. *)
Theorem frozen_touch_ignored `{Platform} v fuel self xr yr :
  freeze self = true ->
  exists self',
    touch_handler v fuel xr yr self = Ok (tt, self') /\
    buffer self' = buffer self /\
    last_x self' = last_x self /\ last_y self' = last_y self /\
    freeze self' = true /\
    Touch_items self' = Touch_items self /\
    Touch_callbacks self' = Touch_callbacks self /\
    trace self' = trace self ++ [Printed "[TOUCH] Input frozen" []].
Proof.
  intros Hfrozen. exists (add_event (Printed "[TOUCH] Input frozen" []) self).
  split.
  - unfold touch_handler, bind, get. rewrite Hfrozen. reflexivity.
  - simpl. auto 10.
Qed.

Lemma frozen_touch_ignored_witness :
  freeze (set_freeze true (power_on Final)) = true /\
  exists self',
    touch_handler (H := bench) Final 0 150 120 (set_freeze true (power_on Final))
      = Ok (tt, self') /\
    buffer self' = buffer (set_freeze true (power_on Final)).
Proof.
  split; [reflexivity|].
  destruct (frozen_touch_ignored (H := bench) Final 0
              (set_freeze true (power_on Final)) 150 120 eq_refl)
    as (self' & Hrun & Hbuf & _).
  exists self'. split; [exact Hrun|exact Hbuf].
Defined.

Lemma window_test x y :
  (d_x <? x) && (x <? d_x + draw_area) && (d_y <? y) && (y <? d_y + draw_area) = true
  <-> in_window x y.
Proof. unfold in_window. rewrite !andb_true_iff. lia. Qed.

Lemma calm_touch_outside `{Platform} fuel xr yr :
  ~ in_window yr xr -> keeps calm (touch_handler Final fuel xr yr).
Proof.
  intros Hout. unfold touch_handler. cbv beta iota zeta.
  assert (Htest : (d_x <? yr) && (yr <? d_x + draw_area)
                  && (d_y <? xr) && (xr <? d_y + draw_area) = false).
  { apply not_true_iff_false. rewrite window_test. exact Hout. }
  rewrite Htest.
  assert (Hui : forall items i, keeps calm (check_ui Final items i yr xr))
    by (intros; apply calm_check_ui).
  repeat first [apply Hui | calm_step].
Qed.

Lemma send_button_miss x y :
  x = d_x \/ y = d_y ->
  in_range x (x_range send_button) && in_range y (y_range send_button) = false.
Proof.
  unfold in_range, send_button, d_x, d_y. simpl. intros [-> | ->].
  - reflexivity.
  - apply andb_false_r.
Qed.

(** C10, as amended: in main_final.py a touch whose transposed point [(x, y)] is not
    strictly inside the window, [d_x < x < d_x + 28] and [d_y < y < d_y + 28],
    never reaches the drawing code: whenever the handler returns, no pixel
    has gained ink and no stroke event was emitted.  In particular, with the
    registry [initialize_ui] builds, a touch on the window's origin column
    [x = d_x] or origin row [y = d_y] returns with the buffer and the last
    point unchanged, so the bits of that column and row are not set by it. *)
Theorem window_gate `{Platform} fuel self xr yr :
  let x := yr in
  let y := xr in
  (forall self',
     touch_handler Final fuel xr yr self = Ok (tt, self') ->
     ~ in_window x y -> calm self self') /\
  (x = d_x \/ y = d_y ->
   Forall (eq send_button) (Touch_items self) ->
   exists self',
     touch_handler Final fuel xr yr self = Ok (tt, self') /\
     buffer self' = buffer self /\
     last_x self' = last_x self /\ last_y self' = last_y self).
Proof.
  intros x y. split.
  - intros self' Hrun Hout. exact (calm_touch_outside fuel xr yr Hout _ _ _ Hrun).
  - intros Hedge Hitems.
    assert (Htest : (d_x <? x) && (x <? d_x + draw_area)
                    && (d_y <? y) && (y <? d_y + draw_area) = false).
    { apply not_true_iff_false. rewrite window_test. unfold in_window. lia. }
    destruct (freeze self) eqn:Hfreeze.
    + exists (add_event (Printed "[TOUCH] Input frozen" []) self). split.
      * unfold touch_handler, bind, get. rewrite Hfreeze. reflexivity.
      * simpl. auto.
    + exists (add_event (Printed "[TOUCH] Raw" [x; y]) self). split.
      * unfold touch_handler, bind at 1, get at 1. rewrite Hfreeze.
        cbv beta iota zeta. unfold bind at 1, emit at 1, modify at 1.
        unfold bind at 1, get at 1. simpl Touch_items.
        unfold bind at 1. rewrite check_ui_miss.
        -- unfold bind, get.
           change (freeze (add_event (Printed "[TOUCH] Raw" [yr; xr]) self))
             with (freeze self).
           rewrite Hfreeze. simpl negb.
           fold x y. rewrite Htest. reflexivity.
        -- eapply Forall_impl; [|exact Hitems]. intros a <-.
           apply send_button_miss. exact Hedge.
      * simpl. auto.
Qed.

Lemma window_gate_witness :
  exists self',
    touch_handler (H := bench) Final 0 110 140 (power_on Final) = Ok (tt, self') /\
    buffer self' = buffer (power_on Final) /\
    last_x self' = last_x (power_on Final) /\
    last_y self' = last_y (power_on Final).
Proof.
  apply (proj2 (window_gate (H := bench) 0 (power_on Final) 110 140)).
  - left. reflexivity.
  - repeat constructor.
Defined.

(** C10, counterexample to the claim as worded: the bits of the window's
    origin column do not stay unset.  After a touch one column inside the
    window, at the transposed point [(d_x + 1, 110)], the plus-shaped brush
    of [draw_point] has set pixel [(d_x, 110)]; the next touch, at the
    transposed point [(d_x, 110)], has [x = d_x]: it is gated out and draws
    nothing, and when it returns the pixel it names is set, as is bit
    [28 * 10 + 0] of the sample [extract_mnist_region] takes then. *)
Lemma origin_column_bit_set :
  touch_handler (H := bench) Final 0 110 d_x origin_column_dot
    = Ok (tt, origin_column_touched) /\
  buffer origin_column_touched = buffer origin_column_dot /\
  get_pixel d_x 110 origin_column_touched = Ok (true, origin_column_touched) /\
  exists sample,
    extract_mnist_region origin_column_touched = Ok (sample, origin_column_touched) /\
    sample_bit sample (28 * 10 + 0) = true.
Proof.
  split; [vm_compute; reflexivity|]. split; [vm_compute; reflexivity|].
  split; [vm_compute; reflexivity|].
  exists (match extract_mnist_region origin_column_touched with
          | Ok (sample, _) => sample
          | _ => []
          end).
  split; vm_compute; reflexivity.
Qed.

(** ** Transmission *)

Lemma uart_writes_snoc t e :
  uart_writes (t ++ [e]) =
  uart_writes t ++ match e with UartWrite d => [d] | _ => [] end.
Proof. unfold uart_writes. rewrite omap_app. destruct e; reflexivity. Qed.

(** main_final.py frames every sample as [0x00] followed by the sample,
    in one [uart.write]. *)
Lemma final_transmit_padded `{Platform} sample self :
  length sample = 98%nat ->
  exists self' frame,
    send_uart_data Final sample self = Ok (tt, self') /\
    uart_writes (trace self') = uart_writes (trace self) ++ [frame] /\
    frame = 0 :: sample /\ length frame = 99%nat /\
    buffer self' = buffer self.
Proof.
  intros Hlen. eexists. exists (0 :: sample).
  split; [unfold send_uart_data, bind, emit, modify; reflexivity|].
  simpl. rewrite !uart_writes_snoc. simpl. rewrite !app_nil_r, Hlen. auto.
Qed.

(** C1 (mainESPold.py): [send_uart_data] writes the sample as it is.  For
    the 98-byte sample of [0xFF] bytes the peripheral receives 98 bytes, the
    first of them [0xFF]: no padding byte is sent. *)
Theorem old_transmit_unpadded `{Platform} self :
  exists self' frame,
    send_uart_data Old (replicate 98 255) self = Ok (tt, self') /\
    uart_writes (trace self') = uart_writes (trace self) ++ [frame] /\
    length frame = 98%nat /\ frame !! 0%nat = Some 255.
Proof.
  eexists. exists (replicate 98 255).
  split; [unfold send_uart_data, bind, emit, modify; reflexivity|].
  simpl trace. rewrite !uart_writes_snoc. simpl. rewrite !app_nil_r. auto.
Qed.

(** ** The bounding-box scan *)

Lemma bind_run {A B} (m : M A) (k : A -> M B) s a s1 :
  m s = Ok (a, s1) -> bind m k s = k a s1.
Proof. intros Hm. unfold bind. rewrite Hm. reflexivity. Qed.

Lemma for_fold_pure {A B} (l : list A) (body : A -> B -> M B) (f : B -> A -> B) self :
  (forall v acc, body v acc self = Ok (f acc v, self)) ->
  forall acc, for_fold l body acc self = Ok (foldl f acc l, self).
Proof.
  intros Hbody. induction l as [|v l IH]; intros acc; simpl.
  - reflexivity.
  - rewrite (bind_run _ _ _ _ _ (Hbody v acc)). apply IH.
Qed.

Lemma find_bounds_scan self :
  length (buffer self) = Z.to_nat 9600 ->
  find_bounds self =
    Ok (scan (ink (buffer self)) (seqZ 0 240) (seqZ 0 320) no_bounds, self).
Proof.
  intros Hlen. unfold find_bounds, scan.
  apply for_fold_pure. intros y b. unfold scan_row.
  apply for_fold_pure. intros x b'.
  rewrite (bind_run _ _ _ _ _ (get_pixel_ink x y self Hlen)). reflexivity.
Qed.

Lemma scan_row_blank p xs b y :
  (forall x, x ∈ xs -> p x y = false) -> scan_row p xs b y = b.
Proof.
  unfold scan_row. induction xs as [|x xs IH]; intros Hp; simpl; [reflexivity|].
  unfold scan_cell at 2. rewrite Hp by (left). apply IH.
  intros x' Hx'. apply Hp. right. exact Hx'.
Qed.

Lemma scan_blank p ys xs b :
  (forall y x, y ∈ ys -> x ∈ xs -> p x y = false) -> scan p ys xs b = b.
Proof.
  unfold scan. induction ys as [|y ys IH]; intros Hp; simpl; [reflexivity|].
  rewrite scan_row_blank by (intros x Hx; apply Hp; [left|exact Hx]).
  apply IH. intros y' x Hy' Hx. apply Hp; [right; exact Hy'|exact Hx].
Qed.

Lemma scan_cons p y ys xs b :
  scan p (y :: ys) xs b = scan p ys xs (scan_row p xs b y).
Proof. reflexivity. Qed.

Lemma scan_first_row p xs b n :
  0 < n -> (forall x y, 1 <= y -> p x y = false) ->
  scan p (seqZ 0 n) xs b = scan_row p xs b 0.
Proof.
  intros Hn Hp. rewrite seqZ_cons by lia. rewrite scan_cons. apply scan_blank.
  intros y x Hy _. apply elem_of_seqZ in Hy. apply Hp. lia.
Qed.

Lemma scan_row_prefix p y b n m :
  0 <= n -> 0 <= m -> (forall x, n <= x -> p x y = false) ->
  scan_row p (seqZ 0 (n + m)) b y = foldl (scan_cell p y) b (seqZ 0 n).
Proof.
  intros Hn Hm Hp. unfold scan_row. rewrite seqZ_app by lia. rewrite foldl_app.
  apply (scan_row_blank p (seqZ (0 + n) m) _ y).
  intros x Hx. apply elem_of_seqZ in Hx. apply Hp. lia.
Qed.

(** A picture confined to the first eight pixels of row 0 is scanned by
    looking at those eight pixels only. *)
Lemma scan_first_byte p b :
  (forall x y, p x y = true -> y = 0 /\ 0 <= x < 8) ->
  scan p (seqZ 0 240) (seqZ 0 320) b = foldl (scan_cell p 0) b (seqZ 0 8).
Proof.
  intros Hp.
  assert (Hoff : forall x y, ~ (y = 0 /\ 0 <= x < 8) -> p x y = false).
  { intros x y Hxy. destruct (p x y) eqn:E; [|reflexivity].
    destruct Hxy. apply Hp. exact E. }
  rewrite scan_first_row; [|lia|intros x y Hy; apply Hoff; lia].
  apply (scan_row_prefix p 0 b 8 312); [lia|lia|].
  intros x Hx. apply Hoff. lia.
Qed.

(** The picture held by a buffer that is blank but for its first byte. *)
Lemma ink_first_byte v x y :
  ink (<[0%nat := v]> (bytearray 9600)) x y =
  (0 <=? x) && (x <? 8) && (y =? 0) && Z.testbit v (7 - x).
Proof.
  unfold ink. destruct (in_canvas x y) eqn:Hc.
  - apply in_canvas_spec in Hc as [Hx Hy]. rewrite andb_true_l.
    destruct (canvas_index x y Hx Hy) as [Hbyte _].
    destruct (Z.eq_dec ((y * 320 + x) / 8) 0) as [Hz|Hnz].
    + rewrite Hz. change (Z.to_nat 0) with 0%nat.
      rewrite list_lookup_insert_eq by (unfold bytearray; rewrite length_replicate; lia).
      assert (y = 0 /\ x < 8) as [-> Hx8] by (Z.to_euclidean_division_equations; lia).
      replace ((0 * 320 + x) mod 8) with x by (Z.to_euclidean_division_equations; lia).
      destruct (Z.leb_spec 0 x), (Z.ltb_spec x 8); try lia. reflexivity.
    + rewrite list_lookup_insert_ne by lia.
      destruct (bytearray 9600 !! Z.to_nat ((y * 320 + x) / 8)) as [w|] eqn:Hw.
      * apply bytearray_lookup in Hw as ->. rewrite Z.bits_0.
        destruct (Z.leb_spec 0 x), (Z.ltb_spec x 8), (Z.eqb_spec y 0);
          simpl; try reflexivity.
        subst. exfalso. apply Hnz. Z.to_euclidean_division_equations; lia.
      * destruct (Z.leb_spec 0 x), (Z.ltb_spec x 8), (Z.eqb_spec y 0);
          simpl; try reflexivity.
        subst. exfalso. apply Hnz. Z.to_euclidean_division_equations; lia.
  - apply in_canvas_false in Hc. rewrite andb_false_l.
    destruct (Z.leb_spec 0 x), (Z.ltb_spec x 8), (Z.eqb_spec y 0);
      simpl; try reflexivity.
    lia.
Qed.

Lemma ink_first_byte_support v x y :
  ink (<[0%nat := v]> (bytearray 9600)) x y = true -> y = 0 /\ 0 <= x < 8.
Proof. rewrite ink_first_byte, !andb_true_iff. lia. Qed.

Lemma origin_dot_buffer : buffer origin_dot = <[0%nat := 128]> (bytearray 9600).
Proof. vm_compute. reflexivity. Qed.

Lemma origin_stroke_buffer : buffer origin_stroke = <[0%nat := 252]> (bytearray 9600).
Proof. vm_compute. reflexivity. Qed.

Lemma buffer_add_event e s : buffer (add_event e s) = buffer s.
Proof. reflexivity. Qed.

Lemma trace_add_event e s : trace (add_event e s) = trace s ++ [e].
Proof. reflexivity. Qed.

Lemma emit_run e s : emit e s = Ok (tt, add_event e s).
Proof. reflexivity. Qed.

Lemma modify_run f s : modify f s = Ok (tt, f s).
Proof. reflexivity. Qed.

Lemma length_first_byte v : length (<[0%nat := v]> (bytearray 9600)) = Z.to_nat 9600.
Proof. rewrite length_insert. apply wf_bytearray. Qed.

Lemma scan_origin_dot :
  scan (ink (<[0%nat := 128]> (bytearray 9600))) (seqZ 0 240) (seqZ 0 320) no_bounds
  = {| min_x := Some 0; max_x := Some 0; min_y := Some 0; max_y := Some 0 |}.
Proof.
  rewrite scan_first_byte by apply ink_first_byte_support.
  vm_compute. reflexivity.
Qed.

Lemma scan_origin_stroke :
  scan (ink (<[0%nat := 252]> (bytearray 9600))) (seqZ 0 240) (seqZ 0 320) no_bounds
  = {| min_x := Some 1; max_x := Some 5; min_y := Some 0; max_y := Some 0 |}.
Proof.
  rewrite scan_first_byte by apply ink_first_byte_support.
  vm_compute. reflexivity.
Qed.

(** mainESPold.py on a buffer whose only ink is the origin pixel: the scan
    leaves [min_x = 0], which [if not min_x] takes for "nothing found". *)
Lemma old_no_drawing_run `{Platform} self :
  buffer self = <[0%nat := 128]> (bytearray 9600) ->
  process_mnist_data Old self =
    Ok (tt, add_event (Printed "[ERROR] No drawing found!" [])
              (add_event (Printed "[MNIST] Processing..." []) self)).
Proof.
  intros Hbuf. unfold process_mnist_data.
  rewrite (bind_run _ _ _ _ _ (emit_run _ _)).
  rewrite (bind_run _ _ _ _ _ (find_bounds_scan _
             ltac:(rewrite buffer_add_event, Hbuf; apply length_first_byte))).
  rewrite buffer_add_event, Hbuf, scan_origin_dot. reflexivity.
Qed.

Lemma origin_dot_ink : get_pixel 0 0 origin_dot = Ok (true, origin_dot).
Proof.
  rewrite get_pixel_ink by (rewrite origin_dot_buffer; apply length_first_byte).
  rewrite origin_dot_buffer, ink_first_byte. reflexivity.
Qed.

(** C2 (mainESPold.py): after one touch at the canvas origin, pixel [(0, 0)]
    is set, and yet [process_mnist_data] logs "No drawing found!" and
    returns without extracting or sending. *)
Theorem old_origin_dot_not_found `{Platform} :
  get_pixel 0 0 origin_dot = Ok (true, origin_dot) /\
  exists self',
    process_mnist_data Old origin_dot = Ok (tt, self') /\
    trace self' = trace origin_dot ++
      [Printed "[MNIST] Processing..." []; Printed "[ERROR] No drawing found!" []].
Proof.
  split; [exact origin_dot_ink|].
  eexists. split; [apply old_no_drawing_run; exact origin_dot_buffer|].
  rewrite !trace_add_event, <- app_assoc. reflexivity.
Qed.

(** C8 (both firmwares share the scan): after the stroke from [(0, 0)] to
    [(5, 0)], pixel [(0, 0)] is set, and the scan ends with [min_x = 1]:
    the box it reports does not contain the leftmost set pixel. *)
Theorem stroke_bounds_miss_origin :
  get_pixel 0 0 origin_stroke = Ok (true, origin_stroke) /\
  find_bounds origin_stroke =
    Ok ({| min_x := Some 1; max_x := Some 5; min_y := Some 0; max_y := Some 0 |},
        origin_stroke).
Proof.
  split.
  - rewrite get_pixel_ink by (rewrite origin_stroke_buffer; apply length_first_byte).
    rewrite origin_stroke_buffer, ink_first_byte. reflexivity.
  - rewrite find_bounds_scan by (rewrite origin_stroke_buffer; apply length_first_byte).
    rewrite origin_stroke_buffer, scan_origin_stroke. reflexivity.
Qed.

Lemma old_save_resets `{Platform} self :
  buffer self = <[0%nat := 128]> (bytearray 9600) ->
  exists self' evs,
    save_mnist Old self = Ok (tt, self') /\
    trace self' = trace self ++ evs /\
    In (Printed "[ERROR] No drawing found!" []) evs /\
    uart_writes evs = [] /\
    freeze self' = false /\
    buffer self' = bytearray 9600.
Proof.
  intros Hbuf. unfold save_mnist.
  rewrite (bind_run _ _ _ _ _ (emit_run _ _)).
  rewrite (bind_run _ _ _ _ _ (modify_run _ _)).
  rewrite (bind_run _ _ _ _ _
             (old_no_drawing_run
                (set_freeze true (add_event (Printed "[SAVE] Initiating..." []) self))
                Hbuf)).
  cbv [reset_canvas initialize_ui TouchArea_init addTouchItem bind emit modify ret].
  eexists. eexists. split; [reflexivity|].
  cbn [trace buffer freeze add_event set_freeze set_buffer set_last_x set_last_y
         add_item add_callback x_range y_range start stop].
  repeat rewrite <- app_assoc.
  split; [reflexivity|]. split; [|auto].
  cbn [app]. do 2 right. left. reflexivity.
Qed.

(** C3 (mainESPold.py): the save action run after one touch at the canvas
    origin ends in "No drawing found!"; nothing is written to the UART and
    the latch is released, but the buffer is not what it was: the set pixel
    [(0, 0)] has been erased by [reset_canvas]. *)
Theorem old_save_erases_origin_dot `{Platform} :
  get_pixel 0 0 origin_dot = Ok (true, origin_dot) /\
  exists self' evs,
    save_mnist Old origin_dot = Ok (tt, self') /\
    trace self' = trace origin_dot ++ evs /\
    In (Printed "[ERROR] No drawing found!" []) evs /\
    uart_writes evs = [] /\
    freeze self' = false /\
    buffer self' <> buffer origin_dot /\
    get_pixel 0 0 self' = Ok (false, self').
Proof.
  split; [exact origin_dot_ink|].
  destruct (old_save_resets origin_dot origin_dot_buffer)
    as (self' & evs & Hrun & Htrace & Hlog & Huart & Hfreeze & Hbuf).
  exists self', evs. repeat (split; [assumption|]). split.
  - rewrite Hbuf, origin_dot_buffer. intros Heq.
    apply (f_equal (fun b => b !! 0%nat)) in Heq.
    rewrite list_lookup_insert_eq in Heq
      by (unfold bytearray; rewrite length_replicate; lia).
    unfold bytearray in Heq. rewrite lookup_replicate_2 in Heq by lia.
    discriminate.
  - rewrite get_pixel_ink by (rewrite Hbuf; apply wf_bytearray).
    rewrite Hbuf, ink_bytearray. reflexivity.
Qed.

(** ** Line rasterization *)

Section Bresenham.
Variables x0 y0 x y : Z.
Let dx := Z.abs (x - x0).
Let dy := Z.abs (y - y0).
Let sx := if x >? x0 then 1 else -1.
Let sy := if y >? y0 then 1 else -1.

(** With [rx] steps still to go along x and [ry] along y, the loop's
    error term is [dx - dy + rx * dy - ry * dx]; that is enough to see that
    it never steps past the endpoint and always steps. *)
Lemma line_points_spec fuel : forall lx ly err rx ry,
  0 <= rx <= dx -> 0 <= ry <= dy ->
  x = lx + sx * rx -> y = ly + sy * ry ->
  err = dx - dy + rx * dy - ry * dx ->
  rx + ry < Z.of_nat fuel ->
  exists pts,
    line_points fuel lx ly x y dx dy sx sy err = Some pts /\
    head pts = Some (lx, ly) /\ list.last pts = Some (x, y) /\
    connected8 pts = true /\ Forall (in_box x0 y0 x y) pts.
Proof.
  assert (Hsx : (sx = 1 /\ x = x0 + dx) \/ (sx = -1 /\ x = x0 - dx)).
  { subst sx dx. destruct (Z.gtb_spec x x0); lia. }
  assert (Hsy : (sy = 1 /\ y = y0 + dy) \/ (sy = -1 /\ y = y0 - dy)).
  { subst sy dy. destruct (Z.gtb_spec y y0); lia. }
  assert (Hdx : 0 <= dx) by (subst dx; lia).
  assert (Hdy : 0 <= dy) by (subst dy; lia).
  clearbody dx dy sx sy.
  induction fuel as [|fuel IH]; intros lx ly err rx ry Hrx Hry Hx Hy Herr Hfuel;
    [lia|].
  assert (Hbox : in_box x0 y0 x y (lx, ly)).
  { unfold in_box. simpl. destruct Hsx as [[-> ->]|[-> ->]],
      Hsy as [[-> ->]|[-> ->]]; lia. }
  simpl line_points.
  destruct ((lx =? x) && (ly =? y)) eqn:Hend.
  - apply andb_true_iff in Hend as [->%Z.eqb_eq ->%Z.eqb_eq].
    exists [(x, y)]. repeat split; auto.
  - assert (Hmore : 0 < rx \/ 0 < ry).
    { apply andb_false_iff in Hend as [Hne%Z.eqb_neq|Hne%Z.eqb_neq]; [left|right].
      - destruct (Z.eq_dec rx 0) as [->|]; [|lia]. destruct Hne. lia.
      - destruct (Z.eq_dec ry 0) as [->|]; [|lia]. destruct Hne. lia. }
    rewrite Z.gtb_ltb.
    set (stepx := - dy <? 2 * err). set (stepy := 2 * err <? dx).
    assert (Hstepx : stepx = true -> 0 < rx).
    { subst stepx. intros Hlt%Z.ltb_lt.
      destruct (Z.eq_dec rx 0) as [->|]; [|lia]. nia. }
    assert (Hstepy : stepy = true -> 0 < ry).
    { subst stepy. intros Hlt%Z.ltb_lt.
      destruct (Z.eq_dec ry 0) as [->|]; [|lia]. nia. }
    assert (Hstep : stepx = true \/ stepy = true).
    { subst stepx stepy.
      destruct (Z.ltb_spec (- dy) (2 * err)); [auto|].
      destruct (Z.ltb_spec (2 * err) dx); [auto|]. nia. }
    destruct (IH (if stepx then lx + sx else lx) (if stepy then ly + sy else ly)
                (if stepy then (if stepx then err - dy else err) + dx
                 else (if stepx then err - dy else err))
                (if stepx then rx - 1 else rx) (if stepy then ry - 1 else ry))
      as (pts & Hpts & Hhead & Hlast & Hconn & Hin).
    + destruct stepx; [specialize (Hstepx eq_refl)|]; lia.
    + destruct stepy; [specialize (Hstepy eq_refl)|]; lia.
    + destruct stepx; lia.
    + destruct stepy; lia.
    + destruct stepx, stepy; nia.
    + destruct stepx, stepy, Hstep; try discriminate;
        try specialize (Hstepx eq_refl); try specialize (Hstepy eq_refl); lia.
    + exists ((lx, ly) :: pts). rewrite Hpts. split; [reflexivity|].
      split; [reflexivity|].
      destruct pts as [|q pts]; [discriminate|]. injection Hhead as ->.
      split; [exact Hlast|]. split.
      * simpl connected8. simpl connected8 in Hconn. rewrite Hconn, andb_true_r.
        unfold near. simpl. apply andb_true_iff. split; apply Z.leb_le.
        -- destruct stepx; [destruct Hsx as [[-> _]|[-> _]]|]; lia.
        -- destruct stepy; [destruct Hsy as [[-> _]|[-> _]]|]; lia.
      * constructor; assumption.
Qed.
End Bresenham.

#[local] Instance same_cursor_refl : Reflexive same_cursor.
Proof. intros s. split; reflexivity. Qed.

#[local] Instance same_cursor_trans : Transitive same_cursor.
Proof. intros s1 s2 s3 [H1 H2] [H3 H4]. split; congruence. Qed.

Lemma steady_emit e : steady (emit e).
Proof.
  intros s Hwf. eexists. split; [reflexivity|].
  split; [exact Hwf|split; reflexivity].
Qed.

Lemma steady_set_pixel x y state : steady (set_pixel x y state).
Proof.
  intros s Hwf. destruct (set_pixel_total x y state s Hwf) as (buf & Hrun & Hwf').
  eexists. split; [exact Hrun|]. split; [exact Hwf'|split; reflexivity].
Qed.

Lemma steady_seq m k : steady m -> steady k -> steady (m ;; k).
Proof.
  intros Hm Hk s Hwf.
  destruct (Hm s Hwf) as (s1 & Hrun1 & Hwf1 & Hc1).
  destruct (Hk s1 Hwf1) as (s2 & Hrun2 & Hwf2 & Hc2).
  exists s2. rewrite (bind_run _ _ _ _ _ Hrun1). split; [exact Hrun2|].
  split; [exact Hwf2|]. transitivity s1; assumption.
Qed.

Lemma steady_draw_point v x y : steady (draw_point v x y).
Proof.
  unfold draw_point. destruct (in_canvas x y).
  - destruct v; repeat first [apply steady_seq | apply steady_emit | apply steady_set_pixel].
  - intros s Hwf. exists s. split; [reflexivity|]. split; [exact Hwf|reflexivity].
Qed.

Lemma cursor_draw_point v x y : keeps same_cursor (draw_point v x y).
Proof.
  assert (Hmod : forall f, (forall s, same_cursor s (f s)) -> keeps same_cursor (modify f))
    by (intros f Hf; apply keeps_modify; exact Hf).
  unfold draw_point, set_pixel, emit.
  destruct v;
    repeat first [apply Hmod; intros ?; split; reflexivity | footprint_step].
Qed.

Lemma read_last_x s lx :
  last_x s = Some lx -> (o <- get last_x ;; as_int o) s = Ok (lx, s).
Proof. intros Hlx. unfold bind, get. rewrite Hlx. reflexivity. Qed.

Lemma read_last_y s ly :
  last_y s = Some ly -> (o <- get last_y ;; as_int o) s = Ok (ly, s).
Proof. intros Hly. unfold bind, get. rewrite Hly. reflexivity. Qed.

Lemma move_to_run p s :
  move_to p s = Ok (tt, set_last_y (Some (snd p)) (set_last_x (Some (fst p)) s)).
Proof. reflexivity. Qed.

Lemma move_to_here s lx ly :
  last_x s = Some lx -> last_y s = Some ly ->
  set_last_y (Some ly) (set_last_x (Some lx) s) = s.
Proof. destruct s; simpl; intros -> ->; reflexivity. Qed.

Lemma bind_unit {B} (m : M unit) (k : unit -> M B) s :
  bind m k s = bind m (fun _ => k tt) s.
Proof. unfold bind. destruct (m s) as [[[] s']| |]; reflexivity. Qed.

Lemma visit_cons v p pts s :
  visit v (p :: pts) s =
  ((move_to p ;; draw_point v (fst p) (snd p)) ;; visit v pts) s.
Proof.
  unfold visit. simpl for_fold.
  apply (bind_unit _ (fun acc => for_fold pts _ acc)).
Qed.

Lemma line_points_head fuel lx ly x y dx dy sx sy err pts :
  line_points fuel lx ly x y dx dy sx sy err = Some pts ->
  exists rest, pts = (lx, ly) :: rest.
Proof.
  destruct fuel as [|fuel]; simpl; [discriminate|].
  destruct ((lx =? x) && (ly =? y)).
  - intros [= <-]. eauto.
  - destruct (line_points fuel _ _ x y dx dy sx sy _) as [rest|]; simpl;
      [|discriminate].
    intros [= <-]. eauto.
Qed.

Lemma bind_cong {A B} (m1 m2 : M A) (k1 k2 : A -> M B) s :
  m1 s = m2 s ->
  (forall a s1, m2 s = Ok (a, s1) -> k1 a s1 = k2 a s1) ->
  bind m1 k1 s = bind m2 k2 s.
Proof.
  intros Hm Hk. unfold bind. rewrite Hm.
  destruct (m2 s) as [[a s1]| |]; [apply Hk|..]; reflexivity.
Qed.

Lemma move_draw v s lx ly :
  last_x s = Some lx -> last_y s = Some ly ->
  (move_to (lx, ly) ;; draw_point v lx ly) s = draw_point v lx ly s.
Proof.
  intros Hlx Hly. rewrite (bind_run _ _ _ _ _ (move_to_run _ _)).
  simpl fst. simpl snd. rewrite (move_to_here s lx ly Hlx Hly). reflexivity.
Qed.

(** Visiting a path first moves to its head, so the last point held
    before does not matter. *)
Lemma visit_moved v p rest s ox oy :
  visit v (p :: rest) (set_last_y oy (set_last_x ox s)) = visit v (p :: rest) s.
Proof.
  rewrite !visit_cons. unfold bind at 1 3.
  rewrite !(bind_run _ _ _ _ _ (move_to_run _ _)). destruct s; reflexivity.
Qed.

(** The loop of [draw_line] is: visit the points of [line_points]. *)
Lemma draw_line_loop_visit v x y dx dy sx sy fuel : forall lx ly err pts s,
  last_x s = Some lx -> last_y s = Some ly ->
  line_points fuel lx ly x y dx dy sx sy err = Some pts ->
  draw_line_loop v fuel x y dx dy sx sy err s = visit v pts s.
Proof.
  induction fuel as [|fuel IH]; intros lx ly err pts s Hlx Hly Hpts;
    [discriminate|].
  simpl in Hpts. simpl draw_line_loop.
  rewrite (bind_run _ _ _ _ _ (read_last_x s lx Hlx)).
  rewrite (bind_run _ _ _ _ _ (read_last_y s ly Hly)).
  destruct ((lx =? x) && (ly =? y)) eqn:Hend.
  - injection Hpts as <-. rewrite visit_cons.
    apply bind_cong; [symmetry; apply move_draw; assumption|].
    intros [] s1 _. reflexivity.
  - destruct (line_points fuel _ _ x y dx dy sx sy _) as [rest|] eqn:Hrest;
      simpl in Hpts; [|discriminate].
    injection Hpts as <-. rewrite visit_cons.
    apply bind_cong; [symmetry; apply move_draw; assumption|].
    intros [] s1 Hdraw. rewrite move_draw in Hdraw by assumption.
    destruct (cursor_draw_point v lx ly s tt s1 Hdraw) as [Hlx1 Hly1].
    rewrite Hlx in Hlx1. rewrite Hly in Hly1.
    destruct (line_points_head _ _ _ _ _ _ _ _ _ _ _ Hrest) as (rest' & ->).
    set (stepx := 2 * err >? - dy) in *. set (stepy := 2 * err <? dx) in *.
    rewrite <- (visit_moved v _ rest' s1
                  (Some (if stepx then lx + sx else lx))
                  (Some (if stepy then ly + sy else ly))).
    rewrite <- (IH _ _ _ _
                  (set_last_y (Some (if stepy then ly + sy else ly))
                     (set_last_x (Some (if stepx then lx + sx else lx)) s1))
                  eq_refl eq_refl Hrest).
    destruct s1; simpl in Hlx1, Hly1; subst.
    destruct stepx, stepy; reflexivity.
Qed.

Lemma visit_run v pts : forall s,
  wf_buffer (buffer s) ->
  exists s',
    visit v pts s = Ok (tt, s') /\ wf_buffer (buffer s') /\
    forall p, list.last pts = Some p ->
              last_x s' = Some (fst p) /\ last_y s' = Some (snd p).
Proof.
  induction pts as [|p rest IH]; intros s Hwf.
  - exists s. split; [reflexivity|]. split; [exact Hwf|]. discriminate.
  - destruct (steady_draw_point v (fst p) (snd p)
                (set_last_y (Some (snd p)) (set_last_x (Some (fst p)) s)) Hwf)
      as (s1 & Hdraw & Hwf1 & Hx1 & Hy1).
    destruct (IH s1 Hwf1) as (s2 & Hvisit & Hwf2 & Hlast).
    exists s2. rewrite visit_cons.
    rewrite (bind_run _ _ _ _ _
               (eq_trans (bind_run _ _ _ _ _ (move_to_run p s)) Hdraw)).
    split; [exact Hvisit|]. split; [exact Hwf2|].
    intros q Hq. destruct rest as [|r rest].
    + injection Hq as <-. injection Hvisit as <-. split; assumption.
    + apply Hlast. exact Hq.
Qed.

(** C7: from the last point [(x0, y0)] to any [(x, y)], given fuel for
    [|x - x0| + |y - y0| + 1] iterations, [draw_line] returns; what it does
    is visit a path of lattice points, calling [draw_point] on each in turn;
    the path starts at [(x0, y0)], ends at [(x, y)], moves by at most one in
    each coordinate between consecutive points and stays inside the
    rectangle spanned by the endpoints; and on return the last point is
    [(x, y)]. *)
Theorem draw_line_connected v fuel self x0 y0 x y :
  last_x self = Some x0 -> last_y self = Some y0 ->
  wf_buffer (buffer self) ->
  Z.abs (x - x0) + Z.abs (y - y0) < Z.of_nat fuel ->
  exists pts self',
    draw_line v fuel x y self =
      (emit (Printed "[DRAW] Line from to" [x0; y0; x; y]) ;; visit v pts) self /\
    draw_line v fuel x y self = Ok (tt, self') /\
    head pts = Some (x0, y0) /\ list.last pts = Some (x, y) /\
    connected8 pts = true /\ Forall (in_box x0 y0 x y) pts /\
    last_x self' = Some x /\ last_y self' = Some y /\
    wf_buffer (buffer self').
Proof.
  intros Hlx Hly Hwf Hfuel.
  destruct (line_points_spec x0 y0 x y fuel x0 y0
              (Z.abs (x - x0) - Z.abs (y - y0)) (Z.abs (x - x0)) (Z.abs (y - y0)))
    as (pts & Hpts & Hhead & Hlast & Hconn & Hbox); try lia.
  { destruct (Z.gtb_spec x x0); lia. }
  { destruct (Z.gtb_spec y y0); lia. }
  destruct (visit_run v pts
              (add_event (Printed "[DRAW] Line from to" [x0; y0; x; y]) self) Hwf)
    as (self' & Hvisit & Hwf' & Hcursor).
  destruct (Hcursor _ Hlast) as [Hx Hy].
  assert (Hrun : draw_line v fuel x y self =
                 (emit (Printed "[DRAW] Line from to" [x0; y0; x; y]) ;; visit v pts) self).
  { unfold draw_line.
    rewrite (bind_run _ _ _ _ _ (read_last_x self x0 Hlx)).
    rewrite (bind_run _ _ _ _ _ (read_last_y self y0 Hly)).
    apply bind_cong; [reflexivity|]. intros [] s1 [= <-].
    apply (draw_line_loop_visit v x y _ _ _ _ fuel x0 y0 _ pts); auto. }
  exists pts, self'. split; [exact Hrun|]. split.
  - rewrite Hrun, (bind_run _ _ _ _ _ (emit_run _ _)). exact Hvisit.
  - auto 10.
Qed.

Lemma origin_dot_wf : wf_buffer (buffer origin_dot).
Proof.
  rewrite origin_dot_buffer. apply wf_buffer_insert; [apply wf_bytearray|lia].
Qed.

Lemma draw_line_connected_witness :
  exists pts self',
    draw_line Old 9 5 3 origin_dot = Ok (tt, self') /\
    head pts = Some (0, 0) /\ list.last pts = Some (5, 3) /\
    connected8 pts = true /\
    last_x self' = Some 5 /\ last_y self' = Some 3.
Proof.
  destruct (draw_line_connected Old 9 origin_dot 0 0 5 3)
    as (pts & self' & _ & Hrun & Hhead & Hlast & Hconn & _ & Hx & Hy & _).
  - reflexivity.
  - reflexivity.
  - exact origin_dot_wf.
  - simpl. lia.
  - exists pts, self'. auto 10.
Defined.

(** ** Concrete runs *)

Lemma power_on_wf v : wf_buffer (buffer (power_on v)).
Proof. destruct v; exact wf_bytearray. Qed.

Lemma set_get_clear_pixel_witness :
  exists self',
    set_pixel 3 2 true (power_on Final) = Ok (tt, self') /\
    buffer self' !! 80%nat = Some 16 /\
    get_pixel 3 2 self' = Ok (true, self').
Proof.
  destruct (set_get_clear_pixel Final (power_on Final) 3 2 (power_on_wf Final))
    as [(old & self' & Hold & Hrun & Hbuf & _ & Hget) _]; [lia|lia|].
  exists self'. split; [exact Hrun|]. split; [|exact Hget].
  rewrite Hbuf. injection Hold as <-. vm_compute. reflexivity.
Defined.

Lemma pixel_outside_canvas_witness :
  set_pixel 320 0 true (power_on Final) = Ok (tt, power_on Final) /\
  get_pixel 320 0 (power_on Final) = Ok (false, power_on Final).
Proof. apply pixel_outside_canvas. lia. Defined.

Lemma set_pixel_only_adds_ink_witness :
  set_pixel 0 0 false origin_dot = Ok (tt, origin_dot).
Proof.
  apply (proj1 (set_pixel_only_adds_ink origin_dot origin_dot_wf)); lia.
Defined.

(** ** main_final.py: the no-drawing exit is taken exactly on a blank
    buffer *)

Lemma widen_min_x x y b : min_x (widen x y b) <> None.
Proof.
  unfold widen, min_or. simpl. destruct (min_x b) as [m|]; simpl; [|discriminate].
  destruct (negb (m =? 0)); discriminate.
Qed.

Lemma scan_row_min_x_none p xs y : forall b,
  min_x (scan_row p xs b y) = None <->
  min_x b = None /\ forall x, x ∈ xs -> p x y = false.
Proof.
  unfold scan_row. induction xs as [|x xs IH]; intros b; simpl.
  - split; [intros Hb; split; [exact Hb|]|tauto]. intros x Hx. inversion Hx.
  - rewrite IH. unfold scan_cell. split.
    + intros [Hb Hxs]. destruct (p x y) eqn:Hp.
      * destruct (widen_min_x x y b Hb).
      * split; [exact Hb|]. intros x' Hx'.
        apply elem_of_cons in Hx' as [->|Hx']; auto.
    + intros [Hb Hxs]. rewrite (Hxs x) by left. split; [exact Hb|].
      intros x' Hx'. apply Hxs. right. exact Hx'.
Qed.

Lemma scan_min_x_none p ys xs : forall b,
  min_x (scan p ys xs b) = None <->
  min_x b = None /\ forall y x, y ∈ ys -> x ∈ xs -> p x y = false.
Proof.
  induction ys as [|y ys IH]; intros b.
  - split; [intros Hb; split; [exact Hb|]|tauto]. intros y x Hy. inversion Hy.
  - rewrite scan_cons, IH, scan_row_min_x_none. split.
    + intros [[Hb Hrow] Hrest]. split; [exact Hb|]. intros y' x Hy' Hx.
      apply elem_of_cons in Hy' as [->|Hy']; auto.
    + intros [Hb Hall]. split; [split; [exact Hb|]|].
      * intros x Hx. apply Hall; [left|exact Hx].
      * intros y' x Hy' Hx. apply Hall; [right; exact Hy'|exact Hx].
Qed.

(** The scan finds nothing exactly when no pixel is set. *)
Lemma scan_finds_nothing b :
  min_x (scan (ink b) (seqZ 0 240) (seqZ 0 320) no_bounds) = None <->
  forall x y, ink b x y = false.
Proof.
  rewrite scan_min_x_none. split.
  - intros [_ Hall] x y. destruct (in_canvas x y) eqn:Hc.
    + apply in_canvas_spec in Hc. apply Hall; apply elem_of_seqZ; lia.
    + unfold ink. rewrite Hc. reflexivity.
  - intros Hall. split; [reflexivity|]. intros y x _ _. apply Hall.
Qed.

(** A well-formed buffer without ink is the all-zero buffer. *)
Lemma blank_buffer b :
  wf_buffer b -> (forall x y, ink b x y = false) -> b = bytearray 9600.
Proof.
  intros [Hlen Hbytes] Hblank. apply list_eq. intros i.
  destruct (decide (i < Z.to_nat 9600)%nat) as [Hi|Hi].
  - destruct (lookup_lt_is_Some_2 b i) as [v Hv]; [lia|].
    rewrite Hv. unfold bytearray. rewrite lookup_replicate_2 by exact Hi.
    f_equal. pose proof (proj1 (Forall_lookup _ _) Hbytes i v Hv) as Hrange.
    cbv beta in Hrange.
    apply Z.bits_inj'. intros k Hk. rewrite Z.bits_0.
    destruct (Z.le_gt_cases k 7) as [Hk7|Hk8].
    + pose (idx := 8 * Z.of_nat i + (7 - k)).
      specialize (Hblank (idx mod 320) (idx / 320)). unfold ink in Hblank.
      assert (Hc : in_canvas (idx mod 320) (idx / 320) = true).
      { apply in_canvas_spec. subst idx. Z.to_euclidean_division_equations. lia. }
      rewrite Hc, andb_true_l in Hblank.
      replace (idx / 320 * 320 + idx mod 320) with idx in Hblank
        by (Z.to_euclidean_division_equations; lia).
      replace (idx / 8) with (Z.of_nat i) in Hblank
        by (subst idx; Z.to_euclidean_division_equations; lia).
      replace (7 - idx mod 8) with k in Hblank
        by (subst idx; Z.to_euclidean_division_equations; lia).
      rewrite Nat2Z.id, Hv in Hblank. exact Hblank.
    + destruct (Z.eq_dec v 0) as [->|Hnz]; [apply Z.bits_0|].
      apply Z.bits_above_log2; [lia|].
      assert (Z.log2 v < 8) by (apply Z.log2_lt_pow2; [lia|]; change (2 ^ 8) with 256; lia).
      lia.
  - rewrite !lookup_ge_None_2; [reflexivity| |lia].
    unfold bytearray. rewrite length_replicate. lia.
Qed.

#[local] Instance silent_refl : Reflexive silent.
Proof. intros s. exists []. rewrite app_nil_r. auto. Qed.

#[local] Instance silent_trans : Transitive silent.
Proof.
  intros s1 s2 s3 (e12 & Ht12 & Hq12) (e23 & Ht23 & Hq23).
  exists (e12 ++ e23). rewrite Ht23, Ht12, app_assoc.
  split; [reflexivity|]. apply Forall_app; auto.
Qed.

Lemma silent_emit e : is_no_drawing e = false -> keeps silent (emit e).
Proof.
  intros He. apply keeps_modify. intros s.
  exists [e]. split; [reflexivity|]. constructor; [exact He|constructor].
Qed.

Lemma silent_same f : (forall s, trace (f s) = trace s) -> keeps silent (modify f).
Proof.
  intros Hf. apply keeps_modify. intros s. exists []. rewrite Hf, app_nil_r. auto.
Qed.

Create HintDb silent.

Ltac silent_step :=
  lazymatch goal with
  | |- keeps silent (emit _) => apply silent_emit; reflexivity
  | |- keeps silent (modify _) => apply silent_same; intros ?; reflexivity
  | |- _ => first [footprint_step | solve [auto with silent nocore]]
  end.

Lemma silent_reset_canvas v : keeps silent (reset_canvas v).
Proof.
  unfold reset_canvas, initialize_ui, addTouchItem, TouchArea_init.
  destruct v; repeat silent_step.
Qed.

Lemma silent_extract_mnist_region : keeps silent extract_mnist_region.
Proof. unfold extract_mnist_region, pack_bit. repeat silent_step. Qed.
#[local] Hint Resolve silent_extract_mnist_region : silent.

Lemma silent_send_uart_data `{Platform} v data : keeps silent (send_uart_data v data).
Proof. unfold send_uart_data. repeat silent_step. Qed.
#[local] Hint Resolve silent_send_uart_data : silent.

Lemma final_no_drawing_blank `{Platform} self :
  length (buffer self) = Z.to_nat 9600 ->
  (forall x y, ink (buffer self) x y = false) ->
  process_mnist_data Final self =
    Ok (tt, add_event (Printed "[ERROR] No drawing found!" [])
              (add_event (Printed "[MNIST] Processing..." []) self)).
Proof.
  intros Hlen Hblank. unfold process_mnist_data.
  rewrite (bind_run _ _ _ _ _ (emit_run _ _)).
  rewrite (bind_run _ _ _ _ _ (find_bounds_scan _
             ltac:(rewrite buffer_add_event; exact Hlen))).
  rewrite buffer_add_event.
  rewrite (proj2 (scan_finds_nothing (buffer self)) Hblank). reflexivity.
Qed.

Lemma final_found_silent `{Platform} self self' lo :
  length (buffer self) = Z.to_nat 9600 ->
  min_x (scan (ink (buffer self)) (seqZ 0 240) (seqZ 0 320) no_bounds) = Some lo ->
  process_mnist_data Final self = Ok (tt, self') ->
  silent self self'.
Proof.
  intros Hlen Hmin. unfold process_mnist_data.
  rewrite (bind_run _ _ _ _ _ (emit_run _ _)).
  rewrite (bind_run _ _ _ _ _ (find_bounds_scan _
             ltac:(rewrite buffer_add_event; exact Hlen))).
  rewrite buffer_add_event, Hmin.
  intros Hrun. transitivity (add_event (Printed "[MNIST] Processing..." []) self).
  - exists [Printed "[MNIST] Processing..." []]. split; [reflexivity|].
    constructor; [reflexivity|constructor].
  - revert Hrun. generalize (add_event (Printed "[MNIST] Processing..." []) self).
    intros s Hrun.
    assert (Hk : keeps silent
              (lo_x <- as_int (Some lo) ;;
               hi_x <- as_int (max_x (scan (ink (buffer self)) (seqZ 0 240)
                                        (seqZ 0 320) no_bounds)) ;;
               lo_y <- as_int (min_y (scan (ink (buffer self)) (seqZ 0 240)
                                        (seqZ 0 320) no_bounds)) ;;
               hi_y <- as_int (max_y (scan (ink (buffer self)) (seqZ 0 240)
                                        (seqZ 0 320) no_bounds)) ;;
               emit (Printed "[MNIST] Bounds X Y" [lo_x; hi_x; lo_y; hi_y]) ;;
               mnist_data <- extract_mnist_region ;;
               emit (Printed "[MNIST] Prepared bytes"
                       [Z.of_nat (length mnist_data)]) ;;
               send_uart_data Final mnist_data)) by repeat silent_step.
    exact (Hk _ _ _ Hrun).
Qed.

(** main_final.py with ink in the buffer: whenever [process_mnist_data]
    returns, it has not logged the no-drawing line. *)
Lemma final_finds_ink `{Platform} self x y self' :
  length (buffer self) = Z.to_nat 9600 ->
  ink (buffer self) x y = true ->
  process_mnist_data Final self = Ok (tt, self') ->
  silent self self'.
Proof.
  intros Hlen Hink.
  destruct (min_x (scan (ink (buffer self)) (seqZ 0 240) (seqZ 0 320) no_bounds))
    as [lo|] eqn:Hmin.
  - apply (final_found_silent self self' lo Hlen Hmin).
  - rewrite (proj1 (scan_finds_nothing _) Hmin x y) in Hink. discriminate.
Qed.

(** main_final.py: a save action that logs the no-drawing line has sent
    nothing, leaves the buffer as it was and releases the latch. *)
Lemma final_save_no_drawing `{Platform} self self' evs :
  wf_buffer (buffer self) ->
  save_mnist Final self = Ok (tt, self') ->
  trace self' = trace self ++ evs ->
  Exists (fun e => is_no_drawing e = true) evs ->
  buffer self' = buffer self /\ uart_writes evs = [] /\ freeze self' = false.
Proof.
  intros Hwf Hrun Htrace Hlogged. pose proof Hwf as [Hlen _].
  destruct (min_x (scan (ink (buffer self)) (seqZ 0 240) (seqZ 0 320) no_bounds))
    as [lo|] eqn:Hmin.
  - exfalso. revert Hrun. unfold save_mnist.
    rewrite (bind_run _ _ _ _ _ (emit_run _ _)).
    rewrite (bind_run _ _ _ _ _ (modify_run _ _)).
    unfold bind at 1.
    destruct (process_mnist_data Final _) as [[[] s2]| |] eqn:Hproc;
      try discriminate.
    intros Hrest.
    apply final_found_silent with (lo := lo) in Hproc; [|exact Hlen|exact Hmin].
    assert (Hk : keeps silent
              (reset_canvas Final ;; modify (set_freeze false) ;;
               emit (Printed "[SAVE] Completed" [])))
      by (repeat first [apply silent_reset_canvas | silent_step]).
    apply Hk in Hrest.
    assert (Hall : silent self self').
    { transitivity (set_freeze true (add_event (Printed "[SAVE] Initiating..." []) self)).
      - exists [Printed "[SAVE] Initiating..." []]. split; [reflexivity|].
        constructor; [reflexivity|constructor].
      - transitivity s2; assumption. }
    destruct Hall as (evs' & Htrace' & Hquiet).
    rewrite Htrace in Htrace'. apply app_inv_head in Htrace' as <-.
    apply Exists_exists in Hlogged as (e & He & Hnd).
    rewrite Forall_forall in Hquiet. rewrite (Hquiet e He) in Hnd. discriminate.
  - pose proof (blank_buffer _ Hwf (proj1 (scan_finds_nothing _) Hmin)) as Hbuf.
    revert Hrun. unfold save_mnist.
    rewrite (bind_run _ _ _ _ _ (emit_run _ _)).
    rewrite (bind_run _ _ _ _ _ (modify_run _ _)).
    rewrite (bind_run _ _ _ _ _
               (final_no_drawing_blank
                  (set_freeze true (add_event (Printed "[SAVE] Initiating..." []) self))
                  Hlen (proj1 (scan_finds_nothing _) Hmin))).
    cbv [reset_canvas initialize_ui TouchArea_init addTouchItem bind emit modify ret].
    intros [= <-]. revert Htrace.
    cbn [trace buffer freeze add_event set_freeze set_buffer set_last_x set_last_y
           add_item add_callback x_range y_range start stop].
    repeat rewrite <- app_assoc. intros <-%app_inv_head.
    rewrite Hbuf. auto.
Qed.

(** ** main_final.py: a drawing is extracted and sent as one padded frame *)

Lemma for_fold_inv {A B} (I : nat -> B -> Prop) (body : A -> B -> M B) self :
  forall (l : list A) (n : nat),
    (forall k v acc, l !! k = Some v -> I (n + k)%nat acc ->
       exists acc', body v acc self = Ok (acc', self) /\ I (S (n + k)) acc') ->
    forall acc, I n acc ->
      exists acc', for_fold l body acc self = Ok (acc', self) /\
                   I (n + length l)%nat acc'.
Proof.
  induction l as [|v l IH]; intros n Hbody acc Hacc.
  - exists acc. split; [reflexivity|]. rewrite Nat.add_0_r. exact Hacc.
  - destruct (Hbody 0%nat v acc eq_refl) as (acc1 & Hrun1 & Hacc1).
    { rewrite Nat.add_0_r. exact Hacc. }
    rewrite Nat.add_0_r in Hacc1.
    destruct (IH (S n)) with (acc := acc1) as (acc2 & Hrun2 & Hacc2).
    + intros k w acc' Hw Hacc'.
      destruct (Hbody (S k) w acc' Hw) as (a & Ha & Hi);
        [rewrite Nat.add_succ_r; exact Hacc'|].
      exists a. split; [exact Ha|]. rewrite Nat.add_succ_r in Hi. exact Hi.
    + exact Hacc1.
    + exists acc2. simpl for_fold. rewrite (bind_run _ _ _ _ _ Hrun1).
      split; [exact Hrun2|]. simpl length. rewrite Nat.add_succ_r. exact Hacc2.
Qed.

Lemma pack_bit_run pixel bits i self :
  length bits = 98%nat -> Forall (fun v => 0 <= v < 256) bits -> 0 <= i < 784 ->
  exists bits',
    pack_bit pixel (bits, i) self = Ok ((bits', i + 1), self) /\
    length bits' = 98%nat /\ Forall (fun v => 0 <= v < 256) bits'.
Proof.
  intros Hlen Hbytes Hi. unfold pack_bit. destruct pixel.
  - assert (Hbyte : 0 <= i / 8 < Z.of_nat (length bits))
      by (rewrite Hlen; Z.to_euclidean_division_equations; lia).
    assert (Hbit : 0 <= 7 - i mod 8 <= 7) by (Z.to_euclidean_division_equations; lia).
    destruct (getitem_lookup bits (i / 8) Hbyte) as (old & Hold & Hget).
    assert (Hnew : 0 <= Z.lor old (Z.shiftl 1 (7 - i mod 8)) < 256).
    { apply byte_lor.
      - exact (proj1 (Forall_lookup _ _) Hbytes _ _ Hold).
      - apply (bit_mask_byte true). exact Hbit. }
    eexists. unfold bind, lift, ior_item, ret. rewrite Hget. simpl obind.
    rewrite (setitem_insert bits (i / 8) _ Hbyte Hnew). simpl.
    split; [reflexivity|]. split.
    + rewrite length_insert. exact Hlen.
    + apply Forall_insert; assumption.
  - exists bits. split; [reflexivity|]. split; assumption.
Qed.

Lemma extract_mnist_region_run self :
  length (buffer self) = Z.to_nat 9600 ->
  exists sample,
    extract_mnist_region self = Ok (sample, self) /\ length sample = 98%nat.
Proof.
  intros Hbuf. unfold extract_mnist_region.
  pose (I := fun (i : Z) (acc : list Z * Z) =>
               length (fst acc) = 98%nat /\
               Forall (fun v => 0 <= v < 256) (fst acc) /\
               snd acc = i).
  assert (Hrows : length (range_list (Range d_y (d_y + draw_area))) = 28%nat)
    by (unfold range_list; rewrite length_seqZ; reflexivity).
  assert (Hcols : length (range_list (Range d_x (d_x + draw_area))) = 28%nat)
    by (unfold range_list; rewrite length_seqZ; reflexivity).
  destruct (for_fold_inv (fun k => I (28 * Z.of_nat k))
              (fun y acc =>
                 for_fold (range_list (Range d_x (d_x + draw_area)))
                   (fun x acc => pixel <- get_pixel x y ;; pack_bit pixel acc) acc)
              self (range_list (Range d_y (d_y + draw_area))) 0%nat)
    with (acc := (bytearray 98, 0)) as ([sample i] & Hrun & Hlen & _).
  - intros k y acc Hy Hacc. apply lookup_lt_Some in Hy. rewrite Hrows in Hy.
    destruct (for_fold_inv (fun j => I (28 * Z.of_nat k + Z.of_nat j))
                (fun x acc => pixel <- get_pixel x y ;; pack_bit pixel acc)
                self (range_list (Range d_x (d_x + draw_area))) 0%nat)
      with (acc := acc) as (acc' & Hrow & Hacc').
    + intros j x [bits i] Hx (Hl & Hb & Hi). cbn [fst snd] in Hl, Hb, Hi.
      apply lookup_lt_Some in Hx. rewrite Hcols in Hx.
      rewrite (bind_run _ _ _ _ _ (get_pixel_ink x y self Hbuf)).
      destruct (pack_bit_run (ink (buffer self) x y) bits i self Hl Hb)
        as (bits' & Hpack & Hl' & Hb'); [lia|].
      exists (bits', i + 1). split; [exact Hpack|].
      split; [exact Hl'|]. split; [exact Hb'|]. cbn [fst snd]. lia.
    + destruct Hacc as (Hl & Hb & Hi). repeat split; try assumption. lia.
    + exists acc'. split; [exact Hrow|].
      rewrite Hcols in Hacc'. destruct Hacc' as (Hl & Hb & Hi).
      repeat split; try assumption. lia.
  - split; [reflexivity|]. split; [|reflexivity].
    unfold bytearray. cbn [fst]. apply Forall_replicate. lia.
  - exists sample. rewrite (bind_run _ _ _ _ _ Hrun). split; [reflexivity|exact Hlen].
Qed.

Lemma min_or_some c cur : is_Some (min_or c cur).
Proof.
  unfold min_or. destruct cur as [m|]; simpl; [|eauto].
  destruct (negb (m =? 0)); simpl; eauto.
Qed.

Lemma max_or_some c cur : is_Some (max_or c cur).
Proof.
  unfold max_or. destruct cur as [m|]; simpl; [|eauto].
  destruct (negb (m =? 0)); simpl; eauto.
Qed.

(** The four locals are set together: once [min_x] is an int, all are. *)
Lemma scan_settled p ys xs lo :
  min_x (scan p ys xs no_bounds) = Some lo ->
  exists hi_x lo_y hi_y,
    max_x (scan p ys xs no_bounds) = Some hi_x /\
    min_y (scan p ys xs no_bounds) = Some lo_y /\
    max_y (scan p ys xs no_bounds) = Some hi_y.
Proof.
  pose (Q := fun b => b = no_bounds \/
                      (is_Some (max_x b) /\ is_Some (min_y b) /\ is_Some (max_y b))).
  assert (Hcell : forall y b x, Q b -> Q (scan_cell p y b x)).
  { intros y b x Hb. unfold scan_cell. destruct (p x y); [|exact Hb].
    right. unfold widen. simpl.
    auto using min_or_some, max_or_some. }
  assert (Hrow : forall y xs' b, Q b -> Q (scan_row p xs' b y)).
  { intros y xs'. unfold scan_row. induction xs' as [|x xs' IH]; intros b Hb; simpl; auto. }
  assert (Hscan : forall ys' b, Q b -> Q (scan p ys' xs b)).
  { induction ys' as [|y ys' IH]; intros b Hb; [exact Hb|].
    rewrite scan_cons. auto. }
  assert (Hq : Q (scan p ys xs no_bounds)) by (apply Hscan; left; reflexivity).
  destruct Hq as [Hnone|([hx Hx] & [ly Hy] & [hy Hy'])].
  - rewrite Hnone. discriminate.
  - intros _. exists hx, ly, hy. auto.
Qed.

(** main_final.py with ink in the buffer: [process_mnist_data] returns,
    having written one frame to the UART: [0x00] and the 98-byte sample. *)
Lemma final_process_sends `{Platform} self x y :
  length (buffer self) = Z.to_nat 9600 ->
  ink (buffer self) x y = true ->
  exists self' evs sample,
    process_mnist_data Final self = Ok (tt, self') /\
    trace self' = trace self ++ evs /\
    uart_writes evs = [0 :: sample] /\ length sample = 98%nat /\
    Forall (fun e => is_no_drawing e = false) evs /\
    buffer self' = buffer self /\ freeze self' = freeze self.
Proof.
  intros Hlen Hink.
  destruct (min_x (scan (ink (buffer self)) (seqZ 0 240) (seqZ 0 320) no_bounds))
    as [lo|] eqn:Hmin.
  2:{ rewrite (proj1 (scan_finds_nothing _) Hmin x y) in Hink. discriminate. }
  destruct (scan_settled _ _ _ _ Hmin) as (hi_x & lo_y & hi_y & Hmax & Hminy & Hmaxy).
  destruct (extract_mnist_region_run
              (add_event (Printed "[MNIST] Bounds X Y" [lo; hi_x; lo_y; hi_y])
                 (add_event (Printed "[MNIST] Processing..." []) self)) Hlen)
    as (sample & Hextract & Hsample).
  eexists. eexists. exists sample. split.
  - unfold process_mnist_data.
    rewrite (bind_run _ _ _ _ _ (emit_run _ _)).
    rewrite (bind_run _ _ _ _ _ (find_bounds_scan _
               ltac:(rewrite buffer_add_event; exact Hlen))).
    rewrite buffer_add_event, Hmin, Hmax, Hminy, Hmaxy.
    cbv [as_int]. unfold bind at 1 2 3 4. cbv [ret].
    rewrite (bind_run _ _ _ _ _ (emit_run _ _)).
    rewrite (bind_run _ _ _ _ _ Hextract).
    unfold send_uart_data, bind, emit, modify. reflexivity.
  - cbn [trace buffer freeze add_event]. repeat rewrite <- app_assoc.
    split; [reflexivity|]. cbn [app].
    split; [reflexivity|]. split; [exact Hsample|].
    split; [repeat constructor|]. split; reflexivity.
Qed.

(** main_final.py, end to end: with ink in a well-formed buffer the save
    action returns, the UART has received exactly one frame of 99 bytes
    beginning with [0x00], the canvas is blank again, there is no last
    point and the latch is released. *)
Lemma final_save_sends `{Platform} self x y :
  wf_buffer (buffer self) ->
  ink (buffer self) x y = true ->
  exists self' evs frame,
    save_mnist Final self = Ok (tt, self') /\
    trace self' = trace self ++ evs /\
    uart_writes evs = [frame] /\ length frame = 99%nat /\ frame !! 0%nat = Some 0 /\
    buffer self' = bytearray 9600 /\
    last_x self' = None /\ last_y self' = None /\ freeze self' = false.
Proof.
  intros [Hlen _] Hink.
  destruct (final_process_sends
              (set_freeze true (add_event (Printed "[SAVE] Initiating..." []) self))
              x y Hlen Hink)
    as (s2 & evs & sample & Hproc & Htrace & Huart & Hsample & _ & _ & _).
  eexists. eexists. exists (0 :: sample). split.
  - unfold save_mnist.
    rewrite (bind_run _ _ _ _ _ (emit_run _ _)).
    rewrite (bind_run _ _ _ _ _ (modify_run _ _)).
    rewrite (bind_run _ _ _ _ _ Hproc).
    cbv [reset_canvas initialize_ui TouchArea_init addTouchItem bind emit modify ret].
    reflexivity.
  - cbn [trace buffer freeze last_x last_y add_event set_freeze set_buffer
           set_last_x set_last_y add_item add_callback x_range y_range start stop].
    rewrite Htrace. cbn [trace add_event set_freeze].
    repeat rewrite <- app_assoc. split; [reflexivity|].
    unfold uart_writes in *. rewrite !omap_app, Huart. cbn [omap app].
    simpl length. rewrite Hsample. auto 10.
Qed.

(** ** The scan away from column 0 and row 0 *)

Lemma scan_cells p ys xs : forall b,
  scan p ys xs b = foldl (scan_step p) b (cells ys xs).
Proof.
  induction ys as [|y ys IH]; intros b; [reflexivity|].
  rewrite scan_cons, IH. unfold cells. simpl flat_map.
  rewrite foldl_app. f_equal. unfold scan_row.
  change (map (fun x => (x, y)) xs) with ((fun x => (x, y)) <$> xs).
  rewrite foldl_fmap. reflexivity.
Qed.

Lemma in_cells ys xs x y : In (x, y) (cells ys xs) <-> In y ys /\ In x xs.
Proof.
  unfold cells. rewrite in_flat_map. split.
  - intros (y' & Hy' & Hin). apply in_map_iff in Hin as (x' & [= <- <-] & Hx').
    auto.
  - intros [Hy Hx]. exists y. split; [exact Hy|]. apply in_map_iff. eauto.
Qed.

Section ScanBox.
Variable p : Z -> Z -> bool.
Hypothesis Hpos : forall x y, p x y = true -> 0 < x /\ 0 < y.

Lemma box_step b seen c :
  box_so_far p seen b -> box_so_far p (seen ++ [c]) (scan_step p b c).
Proof.
  destruct c as [x y]. unfold scan_step, scan_cell. cbn [fst snd].
  destruct (p x y) eqn:Hp.
  - destruct (Hpos x y Hp) as [Hx Hy].
    intros [[-> Hnone]|(lx & hx & ly & hy & -> & Hcov & Hlx & Hhx & Hly & Hhy)];
      right.
    + exists x, x, y, y. split; [reflexivity|].
      assert (Hnew : In (x, y) (seen ++ [(x, y)])) by (apply in_or_app; right; left; reflexivity).
      split; [|repeat split; exists (x, y); auto].
      intros c [Hc|[<-|[]]]%in_app_iff Hpc; [|cbn [fst snd]; lia].
      rewrite (Hnone c Hc) in Hpc. discriminate.
    + assert (0 < lx) by (destruct Hlx as (c & _ & Hc & <-); apply (Hpos _ _ Hc)).
      assert (0 < hx) by (destruct Hhx as (c & _ & Hc & <-); apply (Hpos _ _ Hc)).
      assert (0 < ly) by (destruct Hly as (c & _ & Hc & <-); apply (Hpos _ _ Hc)).
      assert (0 < hy) by (destruct Hhy as (c & _ & Hc & <-); apply (Hpos _ _ Hc)).
      exists (Z.min x lx), (Z.max x hx), (Z.min y ly), (Z.max y hy). split.
      { unfold widen, min_or, max_or. cbn [min_x max_x min_y max_y truthy fmap option_fmap option_map].
        destruct (Z.eqb_spec lx 0), (Z.eqb_spec hx 0), (Z.eqb_spec ly 0),
          (Z.eqb_spec hy 0); try lia. reflexivity. }
      assert (Hnew : In (x, y) (seen ++ [(x, y)])) by (apply in_or_app; right; left; reflexivity).
      assert (Hold : forall c, In c seen -> In c (seen ++ [(x, y)]))
        by (intros c Hc; apply in_or_app; left; exact Hc).
      split.
      { intros c [Hc|[<-|[]]]%in_app_iff Hpc; [|cbn [fst snd]; lia].
        specialize (Hcov c Hc Hpc). lia. }
      repeat split.
      * destruct (Z.min_spec x lx) as [[_ ->]|[_ ->]]; [exists (x, y); auto|].
        destruct Hlx as (c & Hc & Hpc & Hfst). exists c. auto.
      * destruct (Z.max_spec x hx) as [[_ ->]|[_ ->]]; [|exists (x, y); auto].
        destruct Hhx as (c & Hc & Hpc & Hfst). exists c. auto.
      * destruct (Z.min_spec y ly) as [[_ ->]|[_ ->]]; [exists (x, y); auto|].
        destruct Hly as (c & Hc & Hpc & Hsnd). exists c. auto.
      * destruct (Z.max_spec y hy) as [[_ ->]|[_ ->]]; [|exists (x, y); auto].
        destruct Hhy as (c & Hc & Hpc & Hsnd). exists c. auto.
  - assert (Hold : forall c, In c seen -> In c (seen ++ [(x, y)]))
      by (intros c Hc; apply in_or_app; left; exact Hc).
    intros [[-> Hnone]|(lx & hx & ly & hy & -> & Hcov & Hlx & Hhx & Hly & Hhy)].
    + left. split; [reflexivity|].
      intros c [Hc|[<-|[]]]%in_app_iff; [auto|exact Hp].
    + right. exists lx, hx, ly, hy. split; [reflexivity|]. split.
      { intros c [Hc|[<-|[]]]%in_app_iff Hpc; [auto|].
        cbn [fst snd] in Hpc. rewrite Hp in Hpc. discriminate. }
      repeat split.
      * destruct Hlx as (c & Hc & Hpc & Hfst). exists c. auto.
      * destruct Hhx as (c & Hc & Hpc & Hfst). exists c. auto.
      * destruct Hly as (c & Hc & Hpc & Hsnd). exists c. auto.
      * destruct Hhy as (c & Hc & Hpc & Hsnd). exists c. auto.
Qed.

Lemma box_fold cs : forall seen b,
  box_so_far p seen b -> box_so_far p (seen ++ cs) (foldl (scan_step p) b cs).
Proof.
  induction cs as [|c cs IH]; intros seen b Hb.
  - rewrite app_nil_r. exact Hb.
  - replace (seen ++ c :: cs) with ((seen ++ [c]) ++ cs)
      by (rewrite <- app_assoc; reflexivity).
    apply IH. apply box_step. exact Hb.
Qed.
End ScanBox.

(** With no ink in column 0 and row 0, the scan of [process_mnist_data]
    ends with the minimal bounding box of the set pixels. *)
Lemma find_bounds_box self x0 y0 :
  length (buffer self) = Z.to_nat 9600 ->
  (forall x y, ink (buffer self) x y = true -> 0 < x /\ 0 < y) ->
  ink (buffer self) x0 y0 = true ->
  exists b, find_bounds self = Ok (b, self) /\ bounding_box (ink (buffer self)) b.
Proof.
  intros Hlen Hpos Hink. eexists. split; [apply find_bounds_scan; exact Hlen|].
  rewrite scan_cells.
  assert (Hgrid : forall x y, ink (buffer self) x y = true ->
                              In (x, y) (cells (seqZ 0 240) (seqZ 0 320))).
  { intros x y Hxy. apply in_cells.
    assert (Hc : in_canvas x y = true)
      by (unfold ink in Hxy; apply andb_true_iff in Hxy; tauto).
    apply in_canvas_spec in Hc.
    split; apply list_elem_of_In, elem_of_seqZ; lia. }
  destruct (box_fold (ink (buffer self)) Hpos (cells (seqZ 0 240) (seqZ 0 320))
              [] no_bounds)
    as [[_ Hnone]|(lx & hx & ly & hy & Hb & Hcov & Hlx & Hhx & Hly & Hhy)].
  - left. split; [reflexivity|]. intros c [].
  - pose proof (Hnone (x0, y0) (Hgrid x0 y0 Hink)) as Hoff.
    cbn [fst snd] in Hoff. rewrite Hoff in Hink. discriminate.
  - exists lx, hx, ly, hy. split; [exact Hb|]. split.
    + intros x y Hxy. exact (Hcov (x, y) (Hgrid x y Hxy) Hxy).
    + repeat split.
      * destruct Hlx as ([x y] & _ & Hpc & <-). exists y. exact Hpc.
      * destruct Hhx as ([x y] & _ & Hpc & <-). exists y. exact Hpc.
      * destruct Hly as ([x y] & _ & Hpc & <-). exists x. exact Hpc.
      * destruct Hhy as ([x y] & _ & Hpc & <-). exists x. exact Hpc.
Qed.

(** ** The window gate from the inside *)

Lemma send_button_outside_window x y :
  in_window x y ->
  in_range x (x_range send_button) && in_range y (y_range send_button) = false.
Proof.
  unfold in_window, in_range, send_button, d_x, d_y, draw_area. simpl.
  intros [Hx Hy]. destruct (Z.leb_spec 248 x); [lia|]. reflexivity.
Qed.

(** main_final.py: an unfrozen touch strictly inside the window is handed
    to [process_drawing]. *)
Lemma window_touch_draws `{Platform} fuel self xr yr :
  freeze self = false ->
  Forall (eq send_button) (Touch_items self) ->
  in_window yr xr ->
  touch_handler Final fuel xr yr self =
    (emit (Printed "[DRAW] Start at" [yr; xr]) ;; process_drawing Final fuel yr xr)
      (add_event (Printed "[TOUCH] Raw" [yr; xr]) self).
Proof.
  intros Hfreeze Hitems Hin. unfold touch_handler.
  rewrite (bind_run _ _ _ _ _ (eq_refl : get freeze self = Ok (freeze self, self))).
  rewrite Hfreeze. cbv beta iota zeta.
  rewrite (bind_run _ _ _ _ _ (emit_run _ _)).
  rewrite (bind_run _ _ _ _ _
             (eq_refl : get Touch_items (add_event _ self) = Ok (Touch_items self, _))).
  rewrite (bind_run _ _ _ _ _ (check_ui_miss Final (Touch_items self) yr xr 0 _
             ltac:(eapply Forall_impl; [|exact Hitems]; intros a <-;
                   apply send_button_outside_window; exact Hin))).
  rewrite (bind_run _ _ _ _ _
             (eq_refl : get freeze (add_event _ self) = Ok (freeze self, _))).
  rewrite Hfreeze, (proj2 (window_test yr xr) Hin). reflexivity.
Qed.

(** The plus-shaped brush reaches one pixel further than the gate: a touch
    at [(d_x + 1, 110)] sets the pixel [(d_x, 110)] of the window's origin
    column. *)
Lemma brush_reaches_origin_column :
  ink (buffer (after (touch_handler (H := bench) Final 0 110 141) (power_on Final)))
      140 110 = true.
Proof. vm_compute. reflexivity. Qed.

(** ** The packed sample, bit by bit *)

Lemma sample_bit_insert (bits : list Z) k old k' :
  0 <= k -> 0 <= k' ->
  bits !! Z.to_nat (k / 8) = Some old ->
  sample_bit (<[Z.to_nat (k / 8) := Z.lor old (Z.shiftl 1 (7 - k mod 8))]> bits) k'
  = (k' =? k) || sample_bit bits k'.
Proof.
  intros Hk Hk' Hold. unfold sample_bit.
  assert (Hlt : (Z.to_nat (k / 8) < length bits)%nat) by (eapply lookup_lt_Some; eauto).
  assert (Hbit : 0 <= 7 - k mod 8 <= 7) by (Z.to_euclidean_division_equations; lia).
  assert (Hbit' : 0 <= 7 - k' mod 8 <= 7) by (Z.to_euclidean_division_equations; lia).
  destruct (decide (Z.to_nat (k' / 8) = Z.to_nat (k / 8))) as [Heq|Hne].
  - rewrite Heq, list_lookup_insert_eq, Hold by exact Hlt.
    rewrite Z.lor_spec, Z.shiftl_spec by lia.
    destruct (Z.eqb_spec k' k) as [->|Hkk].
    + rewrite Z.sub_diag. simpl. apply orb_true_r.
    + assert (Hoff : Z.testbit 1 (7 - k' mod 8 - (7 - k mod 8)) = false).
      { destruct (Z.ltb_spec (7 - k' mod 8 - (7 - k mod 8)) 0).
        - apply Z.testbit_neg_r. lia.
        - change 1 with (2 ^ 0). rewrite Z.pow2_bits_eqb by lia.
          apply Z.eqb_neq. Z.to_euclidean_division_equations. lia. }
      rewrite Hoff, orb_false_r. reflexivity.
  - rewrite list_lookup_insert_ne by congruence.
    destruct (Z.eqb_spec k' k) as [->|Hkk]; [congruence|reflexivity].
Qed.

Lemma sample_bit_bytearray n k : sample_bit (bytearray n) k = false.
Proof.
  unfold sample_bit.
  destruct (bytearray n !! Z.to_nat (k / 8)) as [v|] eqn:Hv; [|reflexivity].
  apply bytearray_lookup in Hv as ->. apply Z.bits_0.
Qed.

(** One [pack_bit] on a 98-byte sample: it returns, the index advances, and
    bit [i] is switched on exactly when [pixel] is true. *)
Lemma pack_bit_bits pixel bits i self :
  length bits = 98%nat -> Forall (fun v => 0 <= v < 256) bits -> 0 <= i < 784 ->
  exists bits',
    pack_bit pixel (bits, i) self = Ok ((bits', i + 1), self) /\
    length bits' = 98%nat /\ Forall (fun v => 0 <= v < 256) bits' /\
    forall k, 0 <= k -> sample_bit bits' k = (pixel && (k =? i)) || sample_bit bits k.
Proof.
  intros Hlen Hbytes Hi. unfold pack_bit. destruct pixel.
  - assert (Hbyte : 0 <= i / 8 < Z.of_nat (length bits))
      by (rewrite Hlen; Z.to_euclidean_division_equations; lia).
    assert (Hbit : 0 <= 7 - i mod 8 <= 7) by (Z.to_euclidean_division_equations; lia).
    destruct (getitem_lookup bits (i / 8) Hbyte) as (old & Hold & Hget).
    assert (Hnew : 0 <= Z.lor old (Z.shiftl 1 (7 - i mod 8)) < 256).
    { apply byte_lor.
      - exact (proj1 (Forall_lookup _ _) Hbytes _ _ Hold).
      - apply (bit_mask_byte true). exact Hbit. }
    eexists. unfold bind, lift, ior_item, ret. rewrite Hget. simpl obind.
    rewrite (setitem_insert bits (i / 8) _ Hbyte Hnew). simpl.
    split; [reflexivity|]. split; [rewrite length_insert; exact Hlen|].
    split; [apply Forall_insert; assumption|].
    intros k Hk. apply sample_bit_insert; [lia|exact Hk|exact Hold].
  - exists bits. split; [reflexivity|]. split; [exact Hlen|]. split; [exact Hbytes|].
    intros k _. reflexivity.
Qed.

(** The loop shared by both extractors: 28 rows of 28 cells, each cell read
    by [F] without touching the object, packed row-major. *)
Lemma pack_grid (F : Z -> Z -> M bool) (q : Z -> Z -> bool) x0 y0 self :
  (forall x y, F x y self = Ok (q x y, self)) ->
  exists bits,
    for_fold (seqZ y0 28)
      (fun y acc =>
         for_fold (seqZ x0 28) (fun x acc => pixel <- F x y ;; pack_bit pixel acc) acc)
      (bytearray 98, 0) self = Ok ((bits, 784), self) /\
    length bits = 98%nat /\ Forall (fun v => 0 <= v < 256) bits /\
    forall r c, 0 <= r < 28 -> 0 <= c < 28 ->
      sample_bit bits (28 * r + c) = q (x0 + c) (y0 + r).
Proof.
  intros HF.
  pose (J := fun (n : Z) (acc : list Z * Z) =>
               length (fst acc) = 98%nat /\
               Forall (fun v => 0 <= v < 256) (fst acc) /\
               snd acc = n /\
               forall k, 0 <= k ->
                 sample_bit (fst acc) k =
                 (k <? n) && q (x0 + k mod 28) (y0 + k / 28)).
  assert (H28 : forall z, length (seqZ z 28) = 28%nat)
    by (intros z; rewrite length_seqZ; reflexivity).
  destruct (for_fold_inv (fun k => J (28 * Z.of_nat k))
              (fun y acc =>
                 for_fold (seqZ x0 28)
                   (fun x acc => pixel <- F x y ;; pack_bit pixel acc) acc)
              self (seqZ y0 28) 0%nat)
    with (acc := (bytearray 98, 0)) as ([bits i] & Hrun & Hlen & Hbytes & Hi & Hbits).
  - intros r y acc Hy Hacc. apply lookup_seqZ in Hy as [-> Hr].
    destruct (for_fold_inv (fun c => J (28 * Z.of_nat r + Z.of_nat c))
                (fun x acc => pixel <- F x (y0 + Z.of_nat r) ;; pack_bit pixel acc)
                self (seqZ x0 28) 0%nat)
      with (acc := acc) as (acc' & Hrow & Hacc').
    + intros c x [bits i] Hx (Hl & Hb & Hi & Hs). cbn [fst snd] in Hl, Hb, Hi, Hs.
      apply lookup_seqZ in Hx as [-> Hc]. subst i.
      set (n := 28 * Z.of_nat r + Z.of_nat (0 + c)) in *.
      rewrite (bind_run _ _ _ _ _ (HF _ _)).
      destruct (pack_bit_bits (q (x0 + Z.of_nat c) (y0 + Z.of_nat r)) bits n self Hl Hb)
        as (bits' & Hpack & Hl' & Hb' & Hs'); [subst n; lia|].
      exists (bits', n + 1). split; [exact Hpack|].
      split; [exact Hl'|]. split; [exact Hb'|]. split; [cbn [snd]; subst n; lia|].
      cbn [fst]. intros k Hk. rewrite (Hs' k Hk), (Hs k Hk).
      replace (28 * Z.of_nat r + Z.of_nat (S (0 + c))) with (n + 1) by (subst n; lia).
      destruct (Z.eqb_spec k n) as [->|Hkn].
      * replace (n mod 28) with (Z.of_nat c)
          by (subst n; Z.to_euclidean_division_equations; lia).
        replace (n / 28) with (Z.of_nat r)
          by (subst n; Z.to_euclidean_division_equations; lia).
        rewrite andb_true_r.
        destruct (Z.ltb_spec n n); [lia|]. destruct (Z.ltb_spec n (n + 1)); [|lia].
        rewrite andb_false_l, orb_false_r, andb_true_l. reflexivity.
      * rewrite andb_false_r, orb_false_l. f_equal.
        destruct (Z.ltb_spec k n), (Z.ltb_spec k (n + 1)); try reflexivity; lia.
    + destruct Hacc as (Hl & Hb & Hi & Hs). repeat split; try assumption; [lia|].
      intros k Hk. rewrite (Hs k Hk). f_equal.
      destruct (Z.ltb_spec k (28 * Z.of_nat (0 + r))),
        (Z.ltb_spec k (28 * Z.of_nat r + Z.of_nat 0)); try reflexivity; lia.
    + exists acc'. split; [exact Hrow|].
      rewrite H28 in Hacc'. destruct Hacc' as (Hl & Hb & Hi & Hs).
      repeat split; try assumption; [lia|].
      intros k Hk. rewrite (Hs k Hk). f_equal.
      destruct (Z.ltb_spec k (28 * Z.of_nat r + Z.of_nat (0 + 28))),
        (Z.ltb_spec k (28 * Z.of_nat (S (0 + r)))); try reflexivity; lia.
  - split; [reflexivity|]. split; [unfold bytearray; apply Forall_replicate; lia|].
    split; [reflexivity|]. intros k Hk. cbn [fst]. rewrite sample_bit_bytearray.
    destruct (Z.ltb_spec k (28 * Z.of_nat 0)); [lia|reflexivity].
  - rewrite H28 in Hi, Hbits. cbn [fst snd] in *. subst i.
    exists bits. split; [exact Hrun|]. split; [exact Hlen|]. split; [exact Hbytes|].
    intros r c Hr Hc. rewrite Hbits by lia.
    replace ((28 * r + c) mod 28) with c by (Z.to_euclidean_division_equations; lia).
    replace ((28 * r + c) / 28) with r by (Z.to_euclidean_division_equations; lia).
    destruct (Z.ltb_spec (28 * r + c) (28 * Z.of_nat (0 + 28))); [reflexivity|lia].
Qed.

(** A 98-byte sample all of whose 784 bits are off is [bytearray(98)]. *)
Lemma zero_sample bits :
  length bits = 98%nat -> Forall (fun v => 0 <= v < 256) bits ->
  (forall k, 0 <= k < 784 -> sample_bit bits k = false) ->
  bits = bytearray 98.
Proof.
  intros Hlen Hbytes Hoff. apply list_eq. intros i.
  destruct (decide (i < 98)%nat) as [Hi|Hi].
  - destruct (lookup_lt_is_Some_2 bits i) as [v Hv]; [lia|].
    rewrite Hv. unfold bytearray. rewrite lookup_replicate_2 by (simpl; lia).
    f_equal. pose proof (proj1 (Forall_lookup _ _) Hbytes i v Hv) as Hrange.
    cbv beta in Hrange.
    apply Z.bits_inj'. intros k Hk. rewrite Z.bits_0.
    destruct (Z.le_gt_cases k 7) as [Hk7|Hk8].
    + specialize (Hoff (8 * Z.of_nat i + (7 - k))). unfold sample_bit in Hoff.
      replace ((8 * Z.of_nat i + (7 - k)) / 8) with (Z.of_nat i) in Hoff
        by (Z.to_euclidean_division_equations; lia).
      replace (7 - (8 * Z.of_nat i + (7 - k)) mod 8) with k in Hoff
        by (Z.to_euclidean_division_equations; lia).
      rewrite Nat2Z.id, Hv in Hoff. apply Hoff. lia.
    + destruct (Z.eq_dec v 0) as [->|Hnz]; [apply Z.bits_0|].
      apply Z.bits_above_log2; [lia|].
      assert (Z.log2 v < 8)
        by (apply Z.log2_lt_pow2; [lia|]; change (2 ^ 8) with 256; lia).
      lia.
  - rewrite !lookup_ge_None_2; [reflexivity| |lia].
    unfold bytearray. rewrite length_replicate. simpl. lia.
Qed.

Lemma extract_mnist_region_grid self :
  length (buffer self) = Z.to_nat 9600 ->
  exists sample,
    extract_mnist_region self = Ok (sample, self) /\
    length sample = 98%nat /\ Forall (fun v => 0 <= v < 256) sample /\
    forall r c, 0 <= r < 28 -> 0 <= c < 28 ->
      sample_bit sample (28 * r + c) = ink (buffer self) (d_x + c) (d_y + r).
Proof.
  intros Hbuf.
  destruct (pack_grid get_pixel (ink (buffer self)) d_x d_y self
              (fun x y => get_pixel_ink x y self Hbuf))
    as (bits & Hrun & Hlen & Hbytes & Hbits).
  exists bits. split; [|auto].
  unfold extract_mnist_region.
  change (range_list (Range d_y (d_y + draw_area))) with (seqZ d_y 28).
  change (range_list (Range d_x (d_x + draw_area))) with (seqZ d_x 28).
  rewrite (bind_run _ _ _ _ _ Hrun). reflexivity.
Qed.

(** X1 (main_final.py, [extract_mnist_region]): on an object whose buffer
    has 9600 bytes the extraction returns without changing the object; the
    sample has 98 bytes, each in 0..255; and its bit [28 * r + c], counted
    row-major and most significant bit first, is what [get_pixel] returns for
    the pixel at column [d_x + c], row [d_y + r] of the window. *)
Theorem extract_mnist_region_bits self :
  length (buffer self) = Z.to_nat 9600 ->
  exists sample,
    extract_mnist_region self = Ok (sample, self) /\
    length sample = 98%nat /\ Forall (fun v => 0 <= v < 256) sample /\
    forall r c, 0 <= r < 28 -> 0 <= c < 28 ->
      get_pixel (d_x + c) (d_y + r) self = Ok (sample_bit sample (28 * r + c), self).
Proof.
  intros Hbuf.
  destruct (extract_mnist_region_grid self Hbuf) as (sample & Hrun & Hlen & Hbytes & Hbits).
  exists sample. split; [exact Hrun|]. split; [exact Hlen|]. split; [exact Hbytes|].
  intros r c Hr Hc. rewrite get_pixel_ink by exact Hbuf. rewrite Hbits by assumption.
  reflexivity.
Qed.

(** X2 (main_final.py, [extract_mnist_region]): the sample is the all-zero
    [bytearray(98)] exactly when no pixel of the 28 x 28 window
    [d_x .. d_x + 27] x [d_y .. d_y + 27] is set; ink elsewhere on the canvas
    does not reach the sample. *)
Theorem extract_blank_window self sample :
  length (buffer self) = Z.to_nat 9600 ->
  extract_mnist_region self = Ok (sample, self) ->
  sample = bytearray 98 <->
  forall x y, d_x <= x < d_x + 28 -> d_y <= y < d_y + 28 ->
    get_pixel x y self = Ok (false, self).
Proof.
  intros Hbuf Hrun.
  destruct (extract_mnist_region_grid self Hbuf) as (bits & Hrun' & Hlen & Hbytes & Hbits).
  rewrite Hrun in Hrun'. injection Hrun' as <-. split.
  - intros -> x y Hx Hy. rewrite get_pixel_ink by exact Hbuf.
    specialize (Hbits (y - d_y) (x - d_x) ltac:(lia) ltac:(lia)).
    rewrite sample_bit_bytearray in Hbits.
    replace (d_x + (x - d_x)) with x in Hbits by lia.
    replace (d_y + (y - d_y)) with y in Hbits by lia.
    rewrite <- Hbits. reflexivity.
  - intros Hblank. apply zero_sample; [exact Hlen|exact Hbytes|].
    intros k Hk.
    replace k with (28 * (k / 28) + k mod 28) by (Z.to_euclidean_division_equations; lia).
    rewrite Hbits by (Z.to_euclidean_division_equations; lia).
    specialize (Hblank (d_x + k mod 28) (d_y + k / 28)).
    rewrite get_pixel_ink in Hblank by exact Hbuf.
    assert (Hm : 0 <= k mod 28 < 28) by (Z.to_euclidean_division_equations; lia).
    assert (Hd : 0 <= k / 28 < 28) by (Z.to_euclidean_division_equations; lia).
    specialize (Hblank ltac:(lia) ltac:(lia)). congruence.
Qed.

Lemma scale_and_convert_grid `{Platform} x_start y_start src_width src_height self :
  length (buffer self) = Z.to_nat 9600 ->
  exists sample self',
    scale_and_convert_to_bytearray x_start y_start src_width src_height self
      = Ok (sample, self') /\
    length sample = 98%nat /\
    (forall r c, 0 <= r < 28 -> 0 <= c < 28 ->
       let src_x := float_sample x_start c src_width in
       let src_y := float_sample y_start r src_height in
       sample_bit sample (28 * r + c) = ink (buffer self) src_x src_y) /\
    buffer self' = buffer self /\
    trace self' = trace self ++
      (if tmp_writable
       then [FileWrite "tmp.txt" sample; Printed "[FILE] Saved to 'tmp.txt'" [98]]
       else [Printed "[ERROR] Failed to write file" []]).
Proof.
  intros Hbuf.
  pose (q := fun x y => ink (buffer self) (float_sample x_start x src_width)
                          (float_sample y_start y src_height)).
  destruct (pack_grid
              (fun x y =>
                 if in_canvas (float_sample x_start x src_width)
                      (float_sample y_start y src_height)
                 then get_pixel (float_sample x_start x src_width)
                        (float_sample y_start y src_height)
                 else ret false)
              q 0 0 self)
    as (bits & Hrun & Hlen & Hbytes & Hbits).
  { intros x y. subst q. cbv beta.
    destruct (in_canvas _ _) eqn:Hc.
    - apply get_pixel_ink. exact Hbuf.
    - unfold ink. rewrite Hc. reflexivity. }
  assert (Hsc :
            scale_and_convert_to_bytearray x_start y_start src_width src_height self
            = ((if tmp_writable
                then emit (FileWrite "tmp.txt" bits) ;;
                     emit (Printed "[FILE] Saved to 'tmp.txt'" [Z.of_nat (length bits)])
                else emit (Printed "[ERROR] Failed to write file" [])) ;;
               ret bits) self).
  { unfold scale_and_convert_to_bytearray. cbv zeta.
    change (range_list (Range 0 28)) with (seqZ 0 28).
    change (bytearray (28 * 28 / 8)) with (bytearray 98).
    rewrite (bind_run _ _ _ _ _ Hrun). reflexivity. }
  rewrite Hsc. exists bits. destruct tmp_writable.
  - eexists. split; [reflexivity|]. split; [exact Hlen|]. split.
    + intros r c Hr Hc. cbv zeta. rewrite Hbits by assumption. reflexivity.
    + cbn [buffer trace add_event]. rewrite Hlen, <- app_assoc. auto.
  - eexists. split; [reflexivity|]. split; [exact Hlen|]. split.
    + intros r c Hr Hc. cbv zeta. rewrite Hbits by assumption. reflexivity.
    + cbn [buffer trace add_event]. auto.
Qed.


(** The host decides the sampled point: at [x_start = -4], [c = 21],
    [src_width = 68] the exact value is 47; doubles give 46, single
    precision gives 47. *)
Lemma sample_point_by_host :
  sample_point 53 1024 (-4) 21 68 = Some 46 /\
  sample_point 24 128 (-4) 21 68 = Some 47.
Proof. split; vm_compute; reflexivity. Qed.

Lemma samples_finite_spec prec emax first extent k :
  samples_finite prec emax first extent = true -> 0 <= k < 28 ->
  exists v, sample_point prec emax first k extent = Some v.
Proof.
  unfold samples_finite. rewrite forallb_forall. intros Hall Hk.
  specialize (Hall k). destruct (sample_point prec emax first k extent) as [v|].
  - exists v. reflexivity.
  - discriminate Hall. apply list_elem_of_In, elem_of_seqZ. lia.
Qed.

(** X3 (mainESPold.py, [scale_and_convert_to_bytearray]): on a host with
    IEEE 754 floats of precision [prec] and exponent bound [emax], with
    arguments the floats hold exactly and none of the conversions [int(...)]
    raising, the resampling of a 9600-byte buffer returns a 98-byte sample
    whose bit [28 * r + c] is [get_pixel] at
    [(int(x_start + c * (src_width / 28)), int(y_start + r * (src_height / 28)))],
    the sum, product and quotient being rounded as the floats of the host
    round them; that pixel reads as off outside the canvas.  The buffer is not
    changed, and the only events are the write of the sample to tmp.txt with
    its log line, or the error line when the file cannot be written. *)
Theorem scale_and_convert_bits prec emax writable any
    x_start y_start src_width src_height self :
  length (buffer self) = Z.to_nat 9600 ->
  Z.abs x_start <= 2 ^ prec -> Z.abs src_width <= 2 ^ prec ->
  Z.abs y_start <= 2 ^ prec -> Z.abs src_height <= 2 ^ prec ->
  samples_finite prec emax x_start src_width = true ->
  samples_finite prec emax y_start src_height = true ->
  exists sample self',
    scale_and_convert_to_bytearray (H := ieee prec emax writable any)
      x_start y_start src_width src_height self = Ok (sample, self') /\
    length sample = 98%nat /\
    (forall r c, 0 <= r < 28 -> 0 <= c < 28 ->
       exists src_x src_y,
         sample_point prec emax x_start c src_width = Some src_x /\
         sample_point prec emax y_start r src_height = Some src_y /\
         get_pixel src_x src_y self = Ok (sample_bit sample (28 * r + c), self)) /\
    buffer self' = buffer self /\
    trace self' = trace self ++
      (if writable
       then [FileWrite "tmp.txt" sample; Printed "[FILE] Saved to 'tmp.txt'" [98]]
       else [Printed "[ERROR] Failed to write file" []]).
Proof.
  intros Hbuf _ _ _ _ Hxs Hys.
  destruct (scale_and_convert_grid (H := ieee prec emax writable any)
              x_start y_start src_width src_height self Hbuf)
    as (sample & self' & Hrun & Hlen & Hbits & Hrest).
  exists sample, self'. split; [exact Hrun|]. split; [exact Hlen|].
  split; [|exact Hrest].
  intros r c Hr Hc.
  destruct (samples_finite_spec _ _ _ _ c Hxs Hc) as (src_x & Hx).
  destruct (samples_finite_spec _ _ _ _ r Hys Hr) as (src_y & Hy).
  exists src_x, src_y. split; [exact Hx|]. split; [exact Hy|].
  rewrite get_pixel_ink by exact Hbuf.
  specialize (Hbits r c Hr Hc). cbv zeta in Hbits.
  cbn [float_sample ieee] in Hbits. rewrite Hx, Hy in Hbits.
  rewrite Hbits. reflexivity.
Qed.

(** ** What drawing does to the picture *)

#[local] Instance same_ui_refl : Reflexive same_ui.
Proof. intros s. repeat split. Qed.

#[local] Instance same_ui_trans : Transitive same_ui.
Proof. intros s1 s2 s3 (H1 & H2 & H3) (H4 & H5 & H6). repeat split; congruence. Qed.

#[local] Instance only_logged_refl : Reflexive only_logged.
Proof. intros s. repeat split. Qed.

#[local] Instance only_logged_trans : Transitive only_logged.
Proof.
  intros s1 s2 s3 (H1 & H2 & H3 & H4) (H5 & H6 & H7 & H8).
  split; [congruence|]. split; [congruence|]. split; [congruence|].
  transitivity s2; assumption.
Qed.

Lemma same_ui_draw_point v x y : keeps same_ui (draw_point v x y).
Proof.
  assert (Hmod : forall f, (forall s, same_ui s (f s)) -> keeps same_ui (modify f))
    by (intros f Hf; apply keeps_modify; exact Hf).
  unfold draw_point, set_pixel, emit.
  destruct v;
    repeat first [apply Hmod; intros ?; repeat split | footprint_step].
Qed.

Lemma brush_cases x y x' y' :
  Z.abs (x' - x) + Z.abs (y' - y) <= 1 <->
  (x' = x /\ y' = y) \/ (x' = x + 1 /\ y' = y) \/ (x' = x - 1 /\ y' = y) \/
  (x' = x /\ y' = y + 1) \/ (x' = x /\ y' = y - 1).
Proof. lia. Qed.

(** [draw_point] on a well-formed buffer: it returns, and the picture
    afterwards is the picture before plus one brush stamp. *)
Lemma draw_point_stamp v x y s :
  wf_buffer (buffer s) ->
  exists s',
    draw_point v x y s = Ok (tt, s') /\ wf_buffer (buffer s') /\
    forall x' y',
      ink (buffer s') x' y' = true <->
      ink (buffer s) x' y' = true \/ stamped v [(x, y)] x' y'.
Proof.
  intros Hwf. unfold draw_point. destruct (in_canvas x y) eqn:Hc.
  2:{ exists s. split; [reflexivity|]. split; [exact Hwf|].
      intros x' y'. split; [auto|]. intros [Hi|(p & [<-|[]] & Hp & _)]; [exact Hi|].
      cbn [fst snd] in Hp. congruence. }
  assert (Hstamp : forall x' y',
            stamped v [(x, y)] x' y' <-> in_canvas x' y' = true /\ brush v x y x' y').
  { intros x' y'. unfold stamped. split.
    - intros (p & [<-|[]] & _ & Hc' & Hb). auto.
    - intros [Hc' Hb]. exists (x, y). cbn [fst snd]. split; [left; reflexivity|auto]. }
  destruct v.
  - rewrite (bind_run _ _ _ _ _ (emit_run _ _)).
    destruct (set_pixel_ink x y true (add_event (FillCircle x y 3 BLACK) s) Hwf)
      as (b1 & Hr1 & Hwf1 & Hi1).
    rewrite (bind_run _ _ _ _ _ Hr1). eexists. split; [reflexivity|].
    split; [exact Hwf1|]. intros x' y'. cbn [buffer add_event set_buffer].
    rewrite Hi1, Hstamp. cbn [buffer add_event brush].
    rewrite orb_true_iff, !andb_true_iff, !Z.eqb_eq. rewrite Hc.
    split.
    + intros [(((_ & _) & ->) & ->)|Hold]; [right|left; exact Hold]. auto.
    + intros [Hold|(_ & -> & ->)]; [right; exact Hold|left]. auto.
  - rewrite (bind_run _ _ _ _ _ (emit_run _ _)).
    pose (s0 := add_event (FillCircle x y draw_size BLACK) s).
    destruct (set_pixel_ink x y true s0 Hwf) as (b1 & Hr1 & Hwf1 & Hi1).
    rewrite (bind_run _ _ _ _ _ Hr1).
    destruct (set_pixel_ink (x + 1) y true (set_buffer b1 s0) Hwf1)
      as (b2 & Hr2 & Hwf2 & Hi2).
    rewrite (bind_run _ _ _ _ _ Hr2).
    destruct (set_pixel_ink (x - 1) y true (set_buffer b2 (set_buffer b1 s0)) Hwf2)
      as (b3 & Hr3 & Hwf3 & Hi3).
    rewrite (bind_run _ _ _ _ _ Hr3).
    destruct (set_pixel_ink x (y + 1) true
                (set_buffer b3 (set_buffer b2 (set_buffer b1 s0))) Hwf3)
      as (b4 & Hr4 & Hwf4 & Hi4).
    rewrite (bind_run _ _ _ _ _ Hr4).
    destruct (set_pixel_ink x (y - 1) true
                (set_buffer b4 (set_buffer b3 (set_buffer b2 (set_buffer b1 s0)))) Hwf4)
      as (b5 & Hr5 & Hwf5 & Hi5).
    eexists. split; [exact Hr5|]. split; [exact Hwf5|].
    intros x' y'. cbn [buffer add_event set_buffer] in *.
    rewrite Hi5, Hi4, Hi3, Hi2, Hi1, Hstamp. cbn [brush].
    rewrite brush_cases, !orb_true_iff, !andb_true_iff, !Z.eqb_eq, !in_canvas_spec.
    split.
    + intros [Hn|[Hn|[Hn|[Hn|[Hn|Hold]]]]]; [right; lia..|left; exact Hold].
    + intros [Hold|Hn]; [do 5 right; exact Hold|].
      destruct Hn as (Hc' & [Hn|[Hn|[Hn|[Hn|Hn]]]]).
      * do 4 right. left. lia.
      * do 3 right. left. lia.
      * do 2 right. left. lia.
      * right. left. lia.
      * left. lia.
Qed.

Lemma stamped_cons v p pts x' y' :
  stamped v (p :: pts) x' y' <-> stamped v [p] x' y' \/ stamped v pts x' y'.
Proof.
  unfold stamped. split.
  - intros (q & [<-|Hq] & Hrest); [left; exists p|right; exists q]; simpl; auto.
  - intros [(q & [<-|[]] & Hrest)|(q & Hq & Hrest)];
      [exists p|exists q]; simpl; auto.
Qed.

Lemma stamped_nil v x' y' : ~ stamped v [] x' y'.
Proof. intros (q & [] & _). Qed.

(** Visiting a path stamps the brush at each of its points; nothing else
    changes but the last point and the log. *)
Lemma visit_stamp v pts : forall s,
  wf_buffer (buffer s) ->
  exists s',
    visit v pts s = Ok (tt, s') /\ wf_buffer (buffer s') /\ same_ui s s' /\
    (forall p, list.last pts = Some p ->
               last_x s' = Some (fst p) /\ last_y s' = Some (snd p)) /\
    forall x' y',
      ink (buffer s') x' y' = true <->
      ink (buffer s) x' y' = true \/ stamped v pts x' y'.
Proof.
  induction pts as [|p rest IH]; intros s Hwf.
  - exists s. split; [reflexivity|]. split; [exact Hwf|]. split; [reflexivity|].
    split; [discriminate|]. intros x' y'. pose proof (stamped_nil v x' y'). tauto.
  - pose (s0 := set_last_y (Some (snd p)) (set_last_x (Some (fst p)) s)).
    destruct (draw_point_stamp v (fst p) (snd p) s0 Hwf) as (s1 & Hdraw & Hwf1 & Hink1).
    destruct (IH s1 Hwf1) as (s2 & Hvisit & Hwf2 & Hui2 & Hlast & Hink2).
    pose proof (same_ui_draw_point v _ _ _ _ _ Hdraw) as Hui1.
    pose proof (cursor_draw_point v _ _ _ _ _ Hdraw) as [Hx1 Hy1].
    exists s2. rewrite visit_cons.
    rewrite (bind_run _ _ _ _ _
               (eq_trans (bind_run _ _ _ _ _ (move_to_run p s)) Hdraw)).
    split; [exact Hvisit|]. split; [exact Hwf2|]. split.
    { transitivity s1; [|exact Hui2]. destruct Hui1 as (? & ? & ?).
      repeat split; assumption. }
    split.
    { intros q Hq. destruct rest as [|r rest].
      - injection Hq as <-. injection Hvisit as <-. split; assumption.
      - apply Hlast. exact Hq. }
    intros x' y'. rewrite Hink2, Hink1, (stamped_cons v p rest).
    destruct p as [px py]. cbn [fst snd buffer set_last_x set_last_y s0]. tauto.
Qed.

(** [draw_line] with enough fuel, as a path and its stamps. *)
Lemma draw_line_run v fuel s x0 y0 x y :
  last_x s = Some x0 -> last_y s = Some y0 ->
  wf_buffer (buffer s) ->
  Z.abs (x - x0) + Z.abs (y - y0) < Z.of_nat fuel ->
  exists pts s',
    draw_line v fuel x y s = Ok (tt, s') /\
    wf_buffer (buffer s') /\ same_ui s s' /\
    last_x s' = Some x /\ last_y s' = Some y /\
    list.last pts = Some (x, y) /\ Forall (in_box x0 y0 x y) pts /\
    forall x' y',
      ink (buffer s') x' y' = true <->
      ink (buffer s) x' y' = true \/ stamped v pts x' y'.
Proof.
  intros Hlx Hly Hwf Hfuel.
  destruct (line_points_spec x0 y0 x y fuel x0 y0
              (Z.abs (x - x0) - Z.abs (y - y0)) (Z.abs (x - x0)) (Z.abs (y - y0)))
    as (pts & Hpts & _ & Hlast & _ & Hbox); try lia.
  { destruct (Z.gtb_spec x x0); lia. }
  { destruct (Z.gtb_spec y y0); lia. }
  destruct (visit_stamp v pts
              (add_event (Printed "[DRAW] Line from to" [x0; y0; x; y]) s) Hwf)
    as (s' & Hvisit & Hwf' & Hui & Hcursor & Hink).
  destruct (Hcursor _ Hlast) as [Hx Hy].
  exists pts, s'. split.
  - unfold draw_line.
    rewrite (bind_run _ _ _ _ _ (read_last_x s x0 Hlx)).
    rewrite (bind_run _ _ _ _ _ (read_last_y s y0 Hly)).
    rewrite (bind_run _ _ _ _ _ (emit_run _ _)).
    rewrite (draw_line_loop_visit v x y _ _ _ _ fuel x0 y0 _ pts); auto.
  - auto 10.
Qed.

Lemma process_drawing_run v fuel x y s :
  wf_buffer (buffer s) ->
  last_x s = None \/
  (exists lx ly, last_x s = Some lx /\ last_y s = Some ly /\
                 Z.abs (x - lx) + Z.abs (y - ly) < Z.of_nat fuel) ->
  exists pts s',
    process_drawing v fuel x y s = Ok (tt, s') /\
    wf_buffer (buffer s') /\ same_ui s s' /\
    last_x s' = Some x /\ last_y s' = Some y /\
    In (x, y) pts /\
    Forall (in_box (default x (last_x s)) (default y (last_y s)) x y) pts /\
    forall x' y',
      ink (buffer s') x' y' = true <->
      ink (buffer s) x' y' = true \/ stamped v pts x' y'.
Proof.
  intros Hwf [Hnone|(lx & ly & Hlx & Hly & Hfuel)].
  - destruct (draw_point_stamp v x y s Hwf) as (s1 & Hdraw & Hwf1 & Hink).
    pose proof (same_ui_draw_point v _ _ _ _ _ Hdraw) as Hui.
    exists [(x, y)]. eexists. split.
    + unfold process_drawing.
      rewrite (bind_run _ _ _ _ _ (eq_refl : get last_x s = Ok (last_x s, s))).
      rewrite Hnone. rewrite (bind_run _ _ _ _ _ Hdraw). reflexivity.
    + cbn [buffer last_x last_y set_last_x set_last_y].
      split; [exact Hwf1|]. split; [exact Hui|]. split; [reflexivity|].
      split; [reflexivity|]. split; [left; reflexivity|]. split; [|exact Hink].
      constructor; [|constructor]. rewrite Hnone. unfold in_box. cbn [default fst snd].
      lia.
  - destruct (draw_line_run v fuel s lx ly x y Hlx Hly Hwf Hfuel)
      as (pts & s1 & Hrun & Hwf1 & Hui & _ & _ & Hlast & Hbox & Hink).
    exists pts. eexists. split.
    + unfold process_drawing.
      rewrite (bind_run _ _ _ _ _ (eq_refl : get last_x s = Ok (last_x s, s))).
      rewrite Hlx. rewrite (bind_run _ _ _ _ _ Hrun). reflexivity.
    + cbn [buffer last_x last_y set_last_x set_last_y].
      split; [exact Hwf1|]. split; [exact Hui|]. split; [reflexivity|].
      split; [reflexivity|]. split.
      { apply last_Some in Hlast as (pre & ->). apply in_or_app. right. left.
        reflexivity. }
      split; [|exact Hink]. rewrite Hlx, Hly. exact Hbox.
Qed.

(** ** The save action returns *)

Lemma only_logged_emit e : keeps only_logged (emit e).
Proof. apply keeps_modify. intros s. repeat split. Qed.

Create HintDb logged.

Ltac logged_step :=
  lazymatch goal with
  | |- keeps only_logged (emit _) => apply only_logged_emit
  | |- keeps only_logged (pack_bit _ _) => solve [auto with logged nocore]
  | |- keeps only_logged (send_uart_data _ _) => solve [auto with logged nocore]
  | |- _ => footprint_step
  end.

Lemma only_logged_pack_bit pixel acc : keeps only_logged (pack_bit pixel acc).
Proof. unfold pack_bit. destruct acc. repeat logged_step. Qed.
#[local] Hint Resolve only_logged_pack_bit : logged.

Lemma only_logged_send_uart_data `{Platform} v data :
  keeps only_logged (send_uart_data v data).
Proof. unfold send_uart_data. repeat logged_step. Qed.
#[local] Hint Resolve only_logged_send_uart_data : logged.

Lemma only_logged_process_mnist_data `{Platform} v :
  keeps only_logged (process_mnist_data v).
Proof.
  unfold process_mnist_data, find_bounds, extract_mnist_region,
    scale_and_convert_to_bytearray.
  cbv zeta. repeat logged_step.
Qed.

Lemma send_uart_data_run `{Platform} v data s :
  exists s', send_uart_data v data s = Ok (tt, s').
Proof. eexists. unfold send_uart_data, bind, emit, modify. reflexivity. Qed.

Lemma scan_found p ys xs lo :
  min_x (scan p ys xs no_bounds) = Some lo ->
  exists x y, In y ys /\ In x xs /\ p x y = true.
Proof.
  intros Hmin.
  destruct (Exists_dec (fun c => p (fst c) (snd c) = true) (cells ys xs)) as [Hex|Hno].
  { intros c. destruct (p (fst c) (snd c)); [left|right]; congruence. }
  - apply Exists_exists in Hex as ([x y] & Hin & Hp). apply in_cells in Hin.
    exists x, y. tauto.
  - exfalso. assert (Hnone : min_x (scan p ys xs no_bounds) = None).
    { apply scan_min_x_none. split; [reflexivity|]. intros y x Hy Hx.
      destruct (p x y) eqn:Hp; [|reflexivity]. destruct Hno.
      apply Exists_exists. exists (x, y). split; [|exact Hp].
      apply in_cells. split; apply list_elem_of_In; assumption. }
    congruence.
Qed.

Lemma process_mnist_data_run `{Platform} v s :
  length (buffer s) = Z.to_nat 9600 ->
  exists s', process_mnist_data v s = Ok (tt, s').
Proof.
  intros Hlen. unfold process_mnist_data.
  rewrite (bind_run _ _ _ _ _ (emit_run _ _)).
  rewrite (bind_run _ _ _ _ _ (find_bounds_scan _
             ltac:(rewrite buffer_add_event; exact Hlen))).
  rewrite buffer_add_event.
  set (b := scan (ink (buffer s)) (seqZ 0 240) (seqZ 0 320) no_bounds).
  destruct (min_x b) as [lo|] eqn:Hmin.
  2:{ destruct v; eexists; reflexivity. }
  destruct (scan_settled _ _ _ _ Hmin) as (hi_x & lo_y & hi_y & Hmax & Hminy & Hmaxy).
  fold b in Hmax, Hminy, Hmaxy. rewrite Hmax, Hminy, Hmaxy.
  destruct v.
  - cbn [truthy]. destruct (negb (negb (lo =? 0))); [eexists; reflexivity|].
    cbv [as_int]. unfold bind at 1 2 3 4. cbv [ret].
    rewrite (bind_run _ _ _ _ _ (emit_run _ _)).
    destruct (scale_and_convert_grid (lo - 5) (lo_y - 5) (hi_x - lo + 10)
                (hi_y - lo_y + 10)
                (add_event (Printed "[MNIST] Bounds X Y" [lo; hi_x; lo_y; hi_y])
                   (add_event (Printed "[MNIST] Processing..." []) s)) Hlen)
      as (sample & s1 & Hsc & _).
    rewrite (bind_run _ _ _ _ _ Hsc). apply send_uart_data_run.
  - cbv [as_int]. unfold bind at 1 2 3 4. cbv [ret].
    rewrite (bind_run _ _ _ _ _ (emit_run _ _)).
    destruct (extract_mnist_region_grid
                (add_event (Printed "[MNIST] Bounds X Y" [lo; hi_x; lo_y; hi_y])
                   (add_event (Printed "[MNIST] Processing..." []) s)) Hlen)
      as (sample & Hex & _).
    rewrite (bind_run _ _ _ _ _ Hex).
    rewrite (bind_run _ _ _ _ _ (emit_run _ _)). apply send_uart_data_run.
Qed.

(** [save_mnist] on a 9600-byte buffer returns with a blank canvas, no last
    point, the latch released and the button registered once more. *)
Lemma save_mnist_run `{Platform} v s :
  length (buffer s) = Z.to_nat 9600 ->
  exists s',
    save_mnist v s = Ok (tt, s') /\
    buffer s' = bytearray 9600 /\ last_x s' = None /\ last_y s' = None /\
    freeze s' = false /\
    Touch_items s' = Touch_items s ++ [button v] /\
    Touch_callbacks s' = Touch_callbacks s ++ [save_mnist_method].
Proof.
  intros Hlen.
  pose (s0 := set_freeze true (add_event (Printed "[SAVE] Initiating..." []) s)).
  destruct (process_mnist_data_run v s0 Hlen) as (s1 & Hproc).
  destruct (only_logged_process_mnist_data v _ _ _ Hproc)
    as (_ & _ & _ & _ & Hitems & Hcbs).
  destruct v.
  all: eexists; split;
    [ unfold save_mnist;
      rewrite (bind_run _ _ _ _ _ (emit_run _ _));
      rewrite (bind_run _ _ _ _ _ (modify_run _ _));
      rewrite (bind_run _ _ _ _ _ Hproc);
      cbv [reset_canvas initialize_ui TouchArea_init addTouchItem bind emit modify ret];
      reflexivity
    | cbn [buffer last_x last_y freeze Touch_items Touch_callbacks add_event
             set_freeze set_buffer set_last_x set_last_y add_item add_callback];
      rewrite Hitems, Hcbs; auto 10 ].
Qed.

(** ** What holds between two touches *)

Lemma check_ui_button `{Platform} v x y s :
  Touch_items s <> [] ->
  Forall (eq (button v)) (Touch_items s) ->
  length (Touch_callbacks s) = length (Touch_items s) ->
  length (buffer s) = Z.to_nat 9600 ->
  (in_range x (x_range (button v)) && in_range y (y_range (button v)) = false /\
   check_ui v (Touch_items s) 0 x y s = Ok (false, s)) \/
  (in_range x (x_range (button v)) && in_range y (y_range (button v)) = true /\
   exists s',
     check_ui v (Touch_items s) 0 x y s = Ok (true, s') /\
     save_mnist v (add_event (Printed "[UI] Button pressed" [0]) s) = Ok (tt, s')).
Proof.
  intros Hne Hitems Hcbs Hlen.
  destruct (in_range x (x_range (button v)) && in_range y (y_range (button v)))
    eqn:Hhit.
  2:{ left. split; [reflexivity|]. apply check_ui_miss.
      eapply Forall_impl; [|exact Hitems]. intros a <-. exact Hhit. }
  destruct (Touch_items s) as [|a rest] eqn:Hi; [congruence|].
  right. split; [reflexivity|]. inversion Hitems as [|? ? Ha _]; subst a.
  destruct (Touch_callbacks s) as [|cb cbs] eqn:Hc; [discriminate|].
  destruct (save_mnist_run v (add_event (Printed "[UI] Button pressed" [0]) s) Hlen)
    as (s' & Hsave & _).
  exists s'. split; [|exact Hsave].
  cbn [check_ui]. rewrite Hhit.
  rewrite (bind_run _ _ _ _ _ (emit_run _ _)).
  rewrite (bind_run _ _ _ _ _
             (eq_refl : get Touch_callbacks
                          (add_event (Printed "[UI] Button pressed" [Z.of_nat 0]) s)
                        = Ok (Touch_callbacks s, _))).
  rewrite Hc. cbn [lookup list_lookup]. destruct cb. unfold call.
  rewrite (bind_run _ _ _ _ _ Hsave). reflexivity.
Qed.

Lemma Inv_add_event v B e s : Inv v B s -> Inv v B (add_event e s).
Proof. intros HI. exact HI. Qed.

Lemma reach_fuel v B fuel x y lx ly :
  (enough v B <= fuel)%nat -> reach v B x y -> reach v B lx ly ->
  Z.abs (x - lx) + Z.abs (y - ly) < Z.of_nat fuel.
Proof.
  intros Hfuel Hp Hl. destruct v; cbn [reach enough] in *.
  - lia.
  - unfold in_window, d_x, d_y, draw_area in *. lia.
Qed.

(** [process_drawing] between touches: it returns, keeps latch and
    registry, and leaves the last point at [(x, y)]. *)
Lemma Inv_process_drawing v B fuel x y s :
  (enough v B <= fuel)%nat -> reach v B x y -> Inv v B s ->
  exists s',
    process_drawing v fuel x y s = Ok (tt, s') /\ Inv v B s' /\ same_ui s s' /\
    last_x s' = Some x /\ last_y s' = Some y /\
    (forall x' y', ink (buffer s) x' y' = true -> ink (buffer s') x' y' = true) /\
    (in_canvas x y = true ->
     forall x' y', in_canvas x' y' = true -> brush v x y x' y' ->
                   ink (buffer s') x' y' = true).
Proof.
  intros Hfuel Hreach (Hwf & Hfreeze & Hne & Hitems & Hcbs & Hcur & Hconf).
  assert (Hpre : last_x s = None \/
                 exists lx ly, last_x s = Some lx /\ last_y s = Some ly /\
                               Z.abs (x - lx) + Z.abs (y - ly) < Z.of_nat fuel).
  { destruct Hcur as [[Hx _]|(lx & ly & Hx & Hy & Hl)]; [left; exact Hx|right].
    exists lx, ly. split; [exact Hx|]. split; [exact Hy|].
    eapply reach_fuel; eassumption. }
  destruct (process_drawing_run v fuel x y s Hwf Hpre)
    as (pts & s' & Hrun & Hwf' & (Hf & Hi & Hc) & Hlx & Hly & Hend & Hbox & Hink).
  exists s'. split; [exact Hrun|]. split; [|split; [repeat split; assumption|]].
  - split; [exact Hwf'|]. split; [congruence|]. split; [congruence|].
    split; [congruence|]. split; [congruence|]. split.
    { right. exists x, y. auto. }
    intros -> x' y' Hset. apply Hink in Hset as [Hold|(p & Hin & _ & _ & Hbrush)].
    { apply Hconf; auto. }
    rewrite Forall_forall in Hbox. specialize (Hbox p Hin).
    cbn [reach brush] in *. unfold in_window, in_box, d_x, d_y, draw_area in *.
    destruct Hcur as [[Hx Hy]|(lx & ly & Hx & Hy & Hl)]; rewrite Hx, Hy in Hbox;
      cbn [from_option default id] in Hbox; lia.
  - split; [exact Hlx|]. split; [exact Hly|]. split.
    + intros x' y' Hset. apply Hink. left. exact Hset.
    + intros Hin x' y' Hin' Hbrush. apply Hink. right. exists (x, y).
      split; [exact Hend|]. split; [exact Hin|]. split; [exact Hin'|exact Hbrush].
Qed.

Lemma Inv_save_mnist `{Platform} v B s :
  Inv v B s -> exists s', save_mnist v s = Ok (tt, s') /\ Inv v B s' /\
    Touch_items s' = Touch_items s ++ [button v] /\
    Touch_callbacks s' = Touch_callbacks s ++ [save_mnist_method].
Proof.
  intros (Hwf & Hfreeze & Hne & Hitems & Hcbs & Hcur & Hconf).
  destruct (save_mnist_run v s (proj1 Hwf))
    as (s' & Hrun & Hbuf & Hlx & Hly & Hfr & Hi & Hc).
  exists s'. split; [exact Hrun|]. split; [|split; assumption].
  split; [rewrite Hbuf; exact wf_bytearray|]. split; [exact Hfr|].
  split; [rewrite Hi; destruct (Touch_items s); discriminate|].
  split; [rewrite Hi; apply Forall_app; split; [exact Hitems|repeat constructor]|].
  split; [rewrite Hi, Hc, !length_app, Hcbs; reflexivity|].
  split; [left; auto|].
  intros _ x y Hset. rewrite Hbuf, ink_bytearray in Hset. discriminate.
Qed.

(** One touch between touches: the handler returns; a press appends one
    more copy of the button and of the callback, any other touch leaves the
    registry alone. *)
Lemma touch_handler_step `{Platform} v B fuel xr yr s :
  (enough v B <= fuel)%nat ->
  (v = Old -> Z.abs yr <= B /\ Z.abs xr <= B) ->
  Inv v B s ->
  exists s',
    touch_handler v fuel xr yr s = Ok (tt, s') /\ Inv v B s' /\
    Touch_items s' =
      Touch_items s ++ (if presses v (xr, yr) then [button v] else []) /\
    Touch_callbacks s' =
      Touch_callbacks s ++ (if presses v (xr, yr) then [save_mnist_method] else []).
Proof.
  intros Hfuel Hcanvas HI.
  pose proof HI as (Hwf & Hfreeze & Hne & Hitems & Hcbs & _).
  unfold touch_handler.
  rewrite (bind_run _ _ _ _ _ (eq_refl : get freeze s = Ok (freeze s, s))).
  rewrite Hfreeze. cbv beta iota zeta.
  rewrite (bind_run _ _ _ _ _ (emit_run _ _)).
  set (s0 := add_event (Printed "[TOUCH] Raw" [yr; xr]) s).
  assert (HI0 : Inv v B s0) by (apply Inv_add_event; exact HI).
  rewrite (bind_run _ _ _ _ _ (eq_refl : get Touch_items s0 = Ok (Touch_items s, s0))).
  unfold presses. cbn [fst snd].
  destruct (check_ui_button v yr xr s0 Hne Hitems Hcbs (proj1 Hwf))
    as [[Hno Hmiss]|(Hyes & s1 & Hhit & Hsave)].
  - change (Touch_items s0) with (Touch_items s) in Hmiss.
    rewrite (bind_run _ _ _ _ _ Hmiss). cbv iota. rewrite Hno, !app_nil_r.
    rewrite (bind_run _ _ _ _ _ (eq_refl : get freeze s0 = Ok (freeze s, s0))).
    rewrite Hfreeze. cbn [negb].
    assert (Hdraw : reach v B yr xr ->
              exists s',
                (emit (Printed "[DRAW] Start at" [yr; xr]) ;;
                 process_drawing v fuel yr xr) s0 = Ok (tt, s') /\ Inv v B s' /\
                Touch_items s' = Touch_items s /\
                Touch_callbacks s' = Touch_callbacks s).
    { intros Hreach.
      rewrite (bind_run _ _ _ _ _ (emit_run _ _)).
      destruct (Inv_process_drawing v B fuel yr xr
                  (add_event (Printed "[DRAW] Start at" [yr; xr]) s0) Hfuel Hreach)
        as (s' & Hrun & HI' & (_ & Hi & Hc) & _).
      { apply Inv_add_event. exact HI0. }
      exists s'. auto. }
    destruct v.
    + apply Hdraw. apply Hcanvas. reflexivity.
    + destruct ((d_x <? yr) && (yr <? d_x + draw_area) && (d_y <? xr)
                && (xr <? d_y + draw_area)) eqn:Htest.
      * apply Hdraw. apply window_test. exact Htest.
      * exists s0. split; [reflexivity|]. split; [exact HI0|]. split; reflexivity.
  - change (Touch_items s0) with (Touch_items s) in Hhit.
    rewrite (bind_run _ _ _ _ _ Hhit). cbv iota. rewrite Hyes.
    destruct (Inv_save_mnist v B (add_event (Printed "[UI] Button pressed" [0]) s0))
      as (s2 & Hsave2 & HI2 & Hi2 & Hc2).
    { apply Inv_add_event. exact HI0. }
    assert (s2 = s1) as -> by congruence.
    exists s1. split; [reflexivity|]. auto.
Qed.

Lemma Inv_power_on v B : Inv v B (power_on v).
Proof.
  split; [apply power_on_wf|].
  destruct v; (split; [reflexivity|]); (split; [discriminate|]);
    (split; [repeat constructor|]);
    (split; [reflexivity|]); (split; [left; split; reflexivity|]);
    intros _ x y Hset;
    change (ink (bytearray 9600) x y = true) in Hset;
    rewrite ink_bytearray in Hset; discriminate.
Qed.

Lemma play_cons `{Platform} v fuel t touches s :
  play v fuel (t :: touches) s =
  (touch_handler v fuel (fst t) (snd t) ;; play v fuel touches) s.
Proof.
  unfold play. cbn [for_fold].
  apply (bind_unit _ (fun acc => for_fold touches _ acc)).
Qed.

Lemma play_app `{Platform} v fuel touches more s s1 :
  play v fuel touches s = Ok (tt, s1) ->
  play v fuel (touches ++ more) s = play v fuel more s1.
Proof.
  revert s. induction touches as [|t touches IH]; intros s Hrun.
  - injection Hrun as ->. reflexivity.
  - rewrite <- app_comm_cons, play_cons. rewrite play_cons in Hrun.
    unfold bind in *. destruct (touch_handler v fuel (fst t) (snd t) s)
      as [[[] s2]| |]; try discriminate.
    apply IH. exact Hrun.
Qed.

Lemma span_bounds touches :
  Forall (fun t => Z.abs (snd t) <= span touches /\ Z.abs (fst t) <= span touches)
         touches.
Proof.
  induction touches as [|t touches IH]; [constructor|].
  cbn [span foldr]. fold (span touches). constructor; [lia|].
  eapply Forall_impl; [|exact IH]. cbv beta. intros a Ha. lia.
Qed.

Lemma play_inv `{Platform} v B fuel touches :
  (enough v B <= fuel)%nat ->
  Forall (fun t => Z.abs (snd t) <= B /\ Z.abs (fst t) <= B) touches ->
  forall s, Inv v B s ->
  exists s',
    play v fuel touches s = Ok (tt, s') /\ Inv v B s' /\
    Touch_items s' = Touch_items s ++ replicate (saves v touches) (button v) /\
    Touch_callbacks s' =
      Touch_callbacks s ++ replicate (saves v touches) save_mnist_method.
Proof.
  intros Hfuel. induction touches as [|t touches IH]; intros Hcanvas s HI.
  - exists s. split; [reflexivity|]. split; [exact HI|].
    cbn. rewrite !app_nil_r. auto.
  - destruct (touch_handler_step v B fuel (fst t) (snd t) s Hfuel)
      as (s1 & Hrun & HI1 & Hi1 & Hc1).
    { intros _. exact (Forall_inv Hcanvas). }
    { exact HI. }
    destruct (IH (Forall_inv_tail Hcanvas) s1 HI1) as (s' & Hrest & HI' & Hi & Hc).
    exists s'. split; [|split; [exact HI'|]].
    + rewrite play_cons, (bind_run _ _ _ _ _ Hrun). exact Hrest.
    + rewrite Hi, Hc, Hi1, Hc1, <- !app_assoc. unfold saves. cbn [List.filter].
      rewrite <- surjective_pairing.
      destruct (presses v t); split; reflexivity.
Qed.

(** Any touches, from power-on, with fuel for the longest line. *)
Lemma play_power_on `{Platform} v fuel touches :
  (enough v (span touches) <= fuel)%nat ->
  exists s,
    play v fuel touches (power_on v) = Ok (tt, s) /\ Inv v (span touches) s /\
    Touch_items s = replicate (S (saves v touches)) (button v) /\
    Touch_callbacks s = replicate (S (saves v touches)) save_mnist_method.
Proof.
  intros Hfuel.
  destruct (play_inv v (span touches) fuel touches Hfuel (span_bounds touches)
              (power_on v) (Inv_power_on v _)) as (s & Hrun & HI & Hi & Hc).
  exists s. split; [exact Hrun|]. split; [exact HI|].
  rewrite Hi, Hc. destruct v; split; reflexivity.
Qed.

(** ** The brush and the stroke *)

(** X4 ([draw_point], both files): on a well-formed buffer [draw_point]
    returns and sets exactly the pixels under the brush that are on the
    canvas, and only when the point itself is on the canvas: the point alone
    in mainESPold.py, the point and its four axis neighbours in
    main_final.py.  No other pixel changes, and the last point, the latch and
    the registry are left alone. *)
Theorem draw_point_exact v x y s :
  wf_buffer (buffer s) ->
  exists s',
    draw_point v x y s = Ok (tt, s') /\ wf_buffer (buffer s') /\
    last_x s' = last_x s /\ last_y s' = last_y s /\ same_ui s s' /\
    forall x' y',
      ink (buffer s') x' y' = true <->
      ink (buffer s) x' y' = true \/
      (in_canvas x y = true /\ in_canvas x' y' = true /\ brush v x y x' y').
Proof.
  intros Hwf. destruct (draw_point_stamp v x y s Hwf) as (s' & Hrun & Hwf' & Hink).
  exists s'. split; [exact Hrun|]. split; [exact Hwf'|].
  destruct (cursor_draw_point v _ _ _ _ _ Hrun) as [Hx Hy].
  split; [exact Hx|]. split; [exact Hy|].
  split; [exact (same_ui_draw_point v _ _ _ _ _ Hrun)|].
  intros x' y'. rewrite Hink. unfold stamped. split.
  - intros [Hold|(p & [<-|[]] & Hrest)]; [left; exact Hold|right; exact Hrest].
  - intros [Hold|Hrest]; [left; exact Hold|right].
    exists (x, y). split; [left; reflexivity|exact Hrest].
Qed.

Lemma draw_point_exact_witness :
  exists s',
    draw_point Final 319 0 (power_on Final) = Ok (tt, s') /\
    ink (buffer s') 318 0 = true /\ ink (buffer s') 319 1 = true /\
    ink (buffer s') 320 0 = false.
Proof.
  destruct (draw_point_exact Final 319 0 (power_on Final) (power_on_wf Final))
    as (s' & Hrun & _ & _ & _ & _ & Hink).
  exists s'. split; [exact Hrun|]. split; [|split].
  - apply Hink. right. vm_compute. intuition discriminate.
  - apply Hink. right. vm_compute. intuition discriminate.
  - apply not_true_iff_false. intros Hset. apply Hink in Hset as [Hold|(_ & Hin & _)].
    + vm_compute in Hold. discriminate.
    + vm_compute in Hin. discriminate.
Defined.



(** ** Any sequence of touches *)

(** X6 ([touch_handler] with [save_mnist], [process_mnist_data],
    [reset_canvas], [initialize_ui], [addTouchItem], both files): from
    power-on, any sequence of raw touches is handled to the end: no call
    raises (in particular [Touch_callbacks[i]] is always in range) and, given
    fuel for the longest possible line (53 iterations in main_final.py, four
    times the largest coordinate magnitude plus one in mainESPold.py), the
    line loop always ends.  Afterwards the latch is released and the buffer
    has its 9600 bytes.  Every touch on the button runs [reset_canvas], which
    registers the button and its callback once more: after [n] presses the
    registry holds [n + 1] copies of the same area and of the same
    callback. *)
Theorem touches_return `{Platform} v fuel touches :
  (enough v (span touches) <= fuel)%nat ->
  exists s,
    play v fuel touches (power_on v) = Ok (tt, s) /\
    freeze s = false /\ wf_buffer (buffer s) /\
    Touch_items s = replicate (S (saves v touches)) (button v) /\
    Touch_callbacks s = replicate (S (saves v touches)) save_mnist_method.
Proof.
  intros Hfuel.
  destruct (play_power_on v fuel touches Hfuel)
    as (s & Hrun & (Hwf & Hfreeze & _) & Hi & Hc).
  exists s. auto.
Qed.

Lemma touches_return_witness :
  exists s,
    play (H := bench) Old 1161 [(0, 0); (0, 5); (210, 290); (3, 3)] (power_on Old)
      = Ok (tt, s) /\
    freeze s = false /\ wf_buffer (buffer s) /\
    Touch_items s = [button Old; button Old] /\
    Touch_callbacks s = [save_mnist_method; save_mnist_method].
Proof.
  apply (touches_return (H := bench) Old 1161 [(0, 0); (0, 5); (210, 290); (3, 3)]).
  apply Nat.leb_le. vm_compute. reflexivity.
Defined.

(** X7 (main_final.py, [touch_handler] with [draw_point] and
    [draw_line]): whatever the touches since power-on, ink lies only in
    columns [d_x .. d_x + 28] and rows [d_y .. d_y + 28]: the open window of
    the handler's gate widened by the one-pixel reach of the brush. *)
Theorem final_ink_in_window `{Platform} touches :
  exists s,
    play Final 53 touches (power_on Final) = Ok (tt, s) /\
    forall x y, ink (buffer s) x y = true ->
                d_x <= x <= d_x + draw_area /\ d_y <= y <= d_y + draw_area.
Proof.
  destruct (play_power_on Final 53 touches (Nat.le_refl _))
    as (s & Hrun & (_ & _ & _ & _ & _ & _ & Hconf) & _).
  exists s. split; [exact Hrun|]. apply Hconf. reflexivity.
Qed.

(** X8 (main_final.py, the bounding-box scan of [process_mnist_data]
    after any touches): the scan returns, and either the canvas is blank and
    all four locals are still [None], or they hold exactly the minimal
    rectangle around the set pixels.  The truthiness test of the scan never
    misfires here, because ink never reaches column 0 or row 0. *)
Theorem final_bounds_exact `{Platform} touches :
  exists s b,
    play Final 53 touches (power_on Final) = Ok (tt, s) /\
    find_bounds s = Ok (b, s) /\
    ((b = no_bounds /\ forall x y, ink (buffer s) x y = false) \/
     bounding_box (ink (buffer s)) b).
Proof.
  destruct (play_power_on Final 53 touches (Nat.le_refl _))
    as (s & Hrun & ((Hlen & Hbytes) & _ & _ & _ & _ & _ & Hconf) & _).
  specialize (Hconf eq_refl).
  destruct (min_x (scan (ink (buffer s)) (seqZ 0 240) (seqZ 0 320) no_bounds))
    as [lo|] eqn:Hmin.
  - destruct (scan_found _ _ _ _ Hmin) as (x & y & _ & _ & Hset).
    destruct (find_bounds_box s x y Hlen) as (b & Hb & Hbox).
    { intros x' y' Hset'. apply Hconf in Hset'. unfold d_x, d_y in Hset'. lia. }
    { exact Hset. }
    exists s, b. auto.
  - pose proof (proj1 (scan_finds_nothing _) Hmin) as Hblank.
    exists s, no_bounds. split; [exact Hrun|]. split; [|left; auto].
    rewrite (find_bounds_scan s Hlen). rewrite scan_blank; [reflexivity|].
    intros y x _ _. apply Hblank.
Qed.

Lemma touch_draws `{Platform} v fuel s xr yr :
  freeze s = false ->
  Forall (eq (button v)) (Touch_items s) ->
  presses v (xr, yr) = false ->
  (v = Final -> in_window yr xr) ->
  touch_handler v fuel xr yr s =
    (emit (Printed "[DRAW] Start at" [yr; xr]) ;; process_drawing v fuel yr xr)
      (add_event (Printed "[TOUCH] Raw" [yr; xr]) s).
Proof.
  intros Hfreeze Hitems Hno Hin. unfold touch_handler.
  rewrite (bind_run _ _ _ _ _ (eq_refl : get freeze s = Ok (freeze s, s))).
  rewrite Hfreeze. cbv beta iota zeta.
  rewrite (bind_run _ _ _ _ _ (emit_run _ _)).
  rewrite (bind_run _ _ _ _ _
             (eq_refl : get Touch_items (add_event _ s) = Ok (Touch_items s, _))).
  rewrite (bind_run _ _ _ _ _ (check_ui_miss v (Touch_items s) yr xr 0 _
             ltac:(eapply Forall_impl; [|exact Hitems]; intros a <-; exact Hno))).
  rewrite (bind_run _ _ _ _ _
             (eq_refl : get freeze (add_event _ s) = Ok (freeze s, _))).
  rewrite Hfreeze. destruct v; [reflexivity|].
  rewrite (proj2 (window_test yr xr) (Hin eq_refl)). reflexivity.
Qed.

(** X9 ([touch_handler], both files): after any touches since power-on,
    a touch that misses the button and, transposed, lies on the canvas (and,
    in main_final.py, strictly inside the window) is always drawn: the
    handler returns, the last point is the transposed touch, and
    [get_pixel] is true at every pixel of the canvas under the brush there:
    the point itself and, in main_final.py, its four axis neighbours, also
    those in column [d_x + 28] or row [d_y + 28], next to the window. *)
Theorem touch_is_drawn `{Platform} v fuel touches xr yr :
  (enough v (span (touches ++ [(xr, yr)])) <= fuel)%nat ->
  presses v (xr, yr) = false ->
  in_canvas yr xr = true ->
  (v = Final -> in_window yr xr) ->
  exists s,
    play v fuel (touches ++ [(xr, yr)]) (power_on v) = Ok (tt, s) /\
    last_x s = Some yr /\ last_y s = Some xr /\
    forall x' y', in_canvas x' y' = true -> brush v yr xr x' y' ->
                  get_pixel x' y' s = Ok (true, s).
Proof.
  intros Hfuel Hno Hcanvas Hwin.
  set (B := span (touches ++ [(xr, yr)])) in *.
  pose proof (span_bounds (touches ++ [(xr, yr)])) as Hall. fold B in Hall.
  apply Forall_app in Hall as [Hall Hlast]. apply Forall_inv in Hlast.
  cbn [fst snd] in Hlast.
  destruct (play_inv v B fuel touches Hfuel Hall (power_on v) (Inv_power_on v B))
    as (s1 & Hrun1 & HI1 & _).
  pose proof HI1 as (_ & Hfreeze & _ & Hitems & _).
  destruct (Inv_process_drawing v B fuel yr xr
              (add_event (Printed "[DRAW] Start at" [yr; xr])
                 (add_event (Printed "[TOUCH] Raw" [yr; xr]) s1)) Hfuel)
    as (s & Hrun & HI & _ & Hlx & Hly & _ & Hset).
  { destruct v; cbn [reach]; [tauto|apply Hwin; reflexivity]. }
  { apply Inv_add_event, Inv_add_event. exact HI1. }
  exists s. split; [|split; [exact Hlx|split; [exact Hly|]]].
  - rewrite (play_app _ _ _ _ _ _ Hrun1), play_cons. cbn [fst snd].
    unfold bind at 1. rewrite (touch_draws v fuel s1 xr yr Hfreeze Hitems Hno Hwin).
    rewrite (bind_run _ _ _ _ _ (emit_run _ _)), Hrun. reflexivity.
  - intros x' y' Hin' Hbrush. destruct HI as ((Hlen & _) & _).
    rewrite (get_pixel_ink _ _ _ Hlen), (Hset Hcanvas x' y' Hin' Hbrush). reflexivity.
Qed.

Lemma touch_is_drawn_witness :
  exists s,
    play (H := bench) Final 53 ([(110, 150); (250, 200)] ++ [(120, 167)])
      (power_on Final) = Ok (tt, s) /\
    get_pixel 167 120 s = Ok (true, s) /\ get_pixel 168 120 s = Ok (true, s).
Proof.
  destruct (touch_is_drawn (H := bench) Final 53 [(110, 150); (250, 200)] 120 167)
    as (s & Hrun & _ & _ & Hset).
  - apply Nat.le_refl.
  - reflexivity.
  - reflexivity.
  - intros _. unfold in_window, d_x, d_y, draw_area. lia.
  - exists s. split; [exact Hrun|].
    split; apply Hset; try reflexivity; cbn [brush]; lia.
Defined.

(** ** What one save transmits *)

(** X10 (main_final.py, [save_mnist] with [process_mnist_data],
    [extract_mnist_region] and [send_uart_data]): on a well-formed buffer a
    save returns with the canvas cleared, the last point forgotten and the
    latch released.  If the canvas was blank, nothing is written to the
    serial line.  Otherwise exactly one frame is written: the byte 0 followed
    by the 98 bytes whose bit [28 * r + c], most significant bit first, is the
    pixel at column [d_x + c], row [d_y + r] of the canvas as it was before
    the save. *)
Theorem final_save_frame `{Platform} s :
  wf_buffer (buffer s) ->
  exists s' evs,
    save_mnist Final s = Ok (tt, s') /\
    trace s' = trace s ++ evs /\
    buffer s' = bytearray 9600 /\
    last_x s' = None /\ last_y s' = None /\ freeze s' = false /\
    ((forall x y, ink (buffer s) x y = false) -> uart_writes evs = []) /\
    ((exists x y, ink (buffer s) x y = true) ->
     exists sample,
       uart_writes evs = [0 :: sample] /\ length sample = 98%nat /\
       forall r c, 0 <= r < 28 -> 0 <= c < 28 ->
         get_pixel (d_x + c) (d_y + r) s = Ok (sample_bit sample (28 * r + c), s)).
Proof.
  intros [Hlen Hbytes].
  pose (s0 := set_freeze true (add_event (Printed "[SAVE] Initiating..." []) s)).
  assert (Hsave : forall s1,
            process_mnist_data Final s0 = Ok (tt, s1) ->
            save_mnist Final s =
              (reset_canvas Final ;; modify (set_freeze false) ;;
               emit (Printed "[SAVE] Completed" [])) s1).
  { intros s1 Hproc. unfold save_mnist.
    rewrite (bind_run _ _ _ _ _ (emit_run _ _)).
    rewrite (bind_run _ _ _ _ _ (modify_run _ _)).
    rewrite (bind_run _ _ _ _ _ Hproc). reflexivity. }
  destruct (min_x (scan (ink (buffer s)) (seqZ 0 240) (seqZ 0 320) no_bounds))
    as [lo|] eqn:Hmin.
  - destruct (scan_settled _ _ _ _ Hmin) as (hi_x & lo_y & hi_y & Hmax & Hminy & Hmaxy).
    destruct (scan_found _ _ _ _ Hmin) as (x0 & y0 & _ & _ & Hset).
    pose (s1 := add_event (Printed "[MNIST] Bounds X Y" [lo; hi_x; lo_y; hi_y])
                  (add_event (Printed "[MNIST] Processing..." []) s0)).
    destruct (extract_mnist_region_grid s1 Hlen) as (sample & Hex & Hsl & _ & Hbits).
    eexists. eexists. split.
    + erewrite Hsave.
      * cbv [reset_canvas initialize_ui TouchArea_init addTouchItem bind emit
               modify ret]. reflexivity.
      * unfold process_mnist_data.
        rewrite (bind_run _ _ _ _ _ (emit_run _ _)).
        rewrite (bind_run _ _ _ _ _
                   (find_bounds_scan (add_event (Printed "[MNIST] Processing..." []) s0)
                      Hlen)).
        change (buffer (add_event (Printed "[MNIST] Processing..." []) s0))
          with (buffer s).
        rewrite Hmin, Hmax, Hminy, Hmaxy.
        cbv [as_int]. unfold bind at 1 2 3 4. cbv [ret].
        rewrite (bind_run _ _ _ _ _ (emit_run _ _)).
        fold s1. rewrite (bind_run _ _ _ _ _ Hex).
        unfold send_uart_data, bind, emit, modify. reflexivity.
    + cbn [trace buffer freeze last_x last_y add_event set_freeze set_buffer
             set_last_x set_last_y add_item add_callback x_range y_range start stop].
      subst s1 s0. cbn [trace add_event set_freeze].
      repeat rewrite <- app_assoc. split; [reflexivity|].
      split; [reflexivity|]. split; [reflexivity|]. split; [reflexivity|].
      split; [reflexivity|]. split.
      * intros Hblank. rewrite Hblank in Hset. discriminate.
      * intros _. exists sample. split; [reflexivity|]. split; [exact Hsl|].
        intros r c Hr Hc. rewrite (get_pixel_ink _ _ _ Hlen).
        rewrite (Hbits r c Hr Hc). reflexivity.
  - pose proof (proj1 (scan_finds_nothing _) Hmin) as Hblank.
    eexists. eexists. split.
    + erewrite Hsave.
      * cbv [reset_canvas initialize_ui TouchArea_init addTouchItem bind emit
               modify ret]. reflexivity.
      * apply final_no_drawing_blank; [exact Hlen|exact Hblank].
    + cbn [trace buffer freeze last_x last_y add_event set_freeze set_buffer
             set_last_x set_last_y add_item add_callback x_range y_range start stop].
      subst s0. cbn [trace add_event set_freeze].
      repeat rewrite <- app_assoc. split; [reflexivity|].
      split; [reflexivity|]. split; [reflexivity|]. split; [reflexivity|].
      split; [reflexivity|]. split.
      * intros _. reflexivity.
      * intros (x & y & Hset). rewrite Hblank in Hset. discriminate.
Qed.

(** ** The theorems at work *)

Lemma window_dot_wf : wf_buffer (buffer window_dot).
Proof.
  destruct (play_power_on (H := bench) Final 53 [(110, 150)] (Nat.le_refl _))
    as (s & Hrun & (Hwf & _) & _).
  unfold window_dot, after. rewrite Hrun. exact Hwf.
Qed.

Lemma window_dot_ink : ink (buffer window_dot) 150 110 = true.
Proof. vm_compute. reflexivity. Qed.

Lemma extract_mnist_region_bits_witness :
  exists sample,
    extract_mnist_region window_dot = Ok (sample, window_dot) /\
    get_pixel (d_x + 10) (d_y + 10) window_dot
      = Ok (sample_bit sample (28 * 10 + 10), window_dot).
Proof.
  destruct (extract_mnist_region_bits window_dot (proj1 window_dot_wf))
    as (sample & Hrun & _ & _ & Hbits).
  exists sample. split; [exact Hrun|]. apply Hbits; lia.
Defined.

Lemma extract_blank_window_witness :
  bytearray 98 = bytearray 98 <->
  forall x y, d_x <= x < d_x + 28 -> d_y <= y < d_y + 28 ->
    get_pixel x y (power_on Final) = Ok (false, power_on Final).
Proof.
  apply (extract_blank_window (power_on Final) (bytearray 98)).
  - exact (proj1 (power_on_wf Final)).
  - vm_compute. reflexivity.
Defined.

Lemma scale_and_convert_bits_witness :
  exists sample self',
    scale_and_convert_to_bytearray (H := ieee 24 128 true 0) (-5) (-5) 10 10 origin_dot
      = Ok (sample, self') /\
    length sample = 98%nat /\ sample_bit sample (28 * 14 + 14) = true /\
    buffer self' = buffer origin_dot.
Proof.
  assert (Hsmall : forall n, (Z.abs n <=? 2 ^ 24) = true -> Z.abs n <= 2 ^ 24)
    by (intros n; apply Z.leb_le).
  assert (Hfinite : samples_finite 24 128 (-5) 10 = true)
    by (vm_compute; reflexivity).
  assert (Hpoint : sample_point 24 128 (-5) 14 10 = Some 0)
    by (vm_compute; reflexivity).
  destruct (scale_and_convert_bits 24 128 true 0 (-5) (-5) 10 10 origin_dot
              (proj1 origin_dot_wf) (Hsmall (-5) eq_refl) (Hsmall 10 eq_refl)
              (Hsmall (-5) eq_refl) (Hsmall 10 eq_refl) Hfinite Hfinite)
    as (sample & self' & Hrun & Hlen & Hbits & Hbuf & _).
  exists sample, self'. split; [exact Hrun|]. split; [exact Hlen|].
  split; [|exact Hbuf].
  destruct (Hbits 14 14) as (src_x & src_y & Hx & Hy & Hpix); [lia|lia|].
  rewrite Hpoint in Hx, Hy. injection Hx as <-. injection Hy as <-.
  rewrite origin_dot_ink in Hpix. congruence.
Defined.

Lemma final_save_frame_witness :
  exists s' sample,
    save_mnist (H := bench) Final window_dot = Ok (tt, s') /\
    uart_writes (drop (length (trace window_dot)) (trace s')) = [0 :: sample] /\
    sample_bit sample (28 * 10 + 10) = true /\
    buffer s' = bytearray 9600.
Proof.
  destruct (final_save_frame (H := bench) window_dot window_dot_wf)
    as (s' & evs & Hrun & Htrace & Hbuf & _ & _ & _ & _ & Hsent).
  destruct Hsent as (sample & Huart & _ & Hbits).
  { exists 150, 110. exact window_dot_ink. }
  exists s', sample. split; [exact Hrun|].
  split; [rewrite Htrace, drop_app_length; exact Huart|].
  split; [|exact Hbuf].
  specialize (Hbits 10 10 ltac:(lia) ltac:(lia)).
  rewrite (get_pixel_ink _ _ _ (proj1 window_dot_wf)) in Hbits.
  change (d_x + 10) with 150 in Hbits. change (d_y + 10) with 110 in Hbits.
  rewrite window_dot_ink in Hbits. congruence.
Defined.

(** ** The scan on any picture *)

Section ScanState.
Variable p : Z -> Z -> bool.

Lemma set_cells_snoc seen c :
  set_cells p (seen ++ [c]) =
  set_cells p seen ++ (if p (fst c) (snd c) then [c] else []).
Proof.
  unfold set_cells. rewrite list.filter_app. f_equal.
  destruct (p (fst c) (snd c)) eqn:Hp.
  - rewrite filter_cons_True by exact Hp. reflexivity.
  - rewrite filter_cons_False by (rewrite Hp; discriminate). reflexivity.
Qed.

Lemma set_cells_spec seen c :
  c ∈ set_cells p seen <-> c ∈ seen /\ p (fst c) (snd c) = true.
Proof. unfold set_cells. rewrite list_elem_of_filter. tauto. Qed.

Lemma scan_state_step seen b c :
  Forall (fun c => 0 <= fst c /\ 0 <= snd c) (seen ++ [c]) ->
  scan_state p seen b -> scan_state p (seen ++ [c]) (scan_step p b c).
Proof.
  intros Hpos Hb. unfold scan_state in *. rewrite set_cells_snoc.
  unfold scan_step, scan_cell. destruct (p (fst c) (snd c)) eqn:Hp.
  2:{ rewrite app_nil_r. exact Hb. }
  rewrite last_snoc.
  assert (Hc : 0 <= fst c /\ 0 <= snd c).
  { rewrite Forall_forall in Hpos. apply Hpos, in_or_app. right. left. reflexivity. }
  assert (Hseen : forall c', c' ∈ set_cells p seen -> 0 <= fst c' /\ 0 <= snd c').
  { intros c' Hc'. apply set_cells_spec in Hc' as [Hc' _].
    rewrite Forall_forall in Hpos. apply Hpos, in_or_app. left.
    apply list_elem_of_In. exact Hc'. }
  assert (Hnew : c ∈ set_cells p seen ++ [c]) by (apply elem_of_app; right; left).
  assert (Hold : forall c', c' ∈ set_cells p seen -> c' ∈ set_cells p seen ++ [c])
    by (intros c' Hc'; apply elem_of_app; left; exact Hc').
  destruct (list.last (set_cells p seen)) as [c0|] eqn:Hlast.
  - destruct Hb as (lx & hx & ly & hy & -> & Hlx0 & Hly0 & Hlx & Hly & Hmax & Hhx & Hhy).
    assert (0 <= lx) by (destruct Hlx as (c' & Hc' & <-); apply (Hseen c' Hc')).
    assert (0 <= ly) by (destruct Hly as (c' & Hc' & <-); apply (Hseen c' Hc')).
    assert (0 <= hx) by (destruct Hhx as (c' & Hc' & <-); apply (Hseen c' Hc')).
    assert (0 <= hy) by (destruct Hhy as (c' & Hc' & <-); apply (Hseen c' Hc')).
    exists (if lx =? 0 then fst c else Z.min (fst c) lx),
           (if hx =? 0 then fst c else Z.max (fst c) hx),
           (if ly =? 0 then snd c else Z.min (snd c) ly),
           (if hy =? 0 then snd c else Z.max (snd c) hy).
    split.
    { unfold widen, min_or, max_or.
      cbn [min_x max_x min_y max_y truthy fmap option_fmap option_map].
      destruct (lx =? 0), (hx =? 0), (ly =? 0), (hy =? 0); reflexivity. }
    split; [destruct (Z.eqb_spec lx 0); lia|].
    split; [destruct (Z.eqb_spec ly 0); lia|].
    split.
    { destruct (Z.eqb_spec lx 0); [exists c; auto|].
      destruct (Z.min_spec (fst c) lx) as [[_ ->]|[_ ->]]; [exists c; auto|].
      destruct Hlx as (c' & Hc' & Hfst). exists c'. auto. }
    split.
    { destruct (Z.eqb_spec ly 0); [exists c; auto|].
      destruct (Z.min_spec (snd c) ly) as [[_ ->]|[_ ->]]; [exists c; auto|].
      destruct Hly as (c' & Hc' & Hsnd). exists c'. auto. }
    split.
    { intros c' [Hc'|Hc']%elem_of_app.
      - specialize (Hmax c' Hc'). specialize (Hseen c' Hc').
        destruct (Z.eqb_spec hx 0), (Z.eqb_spec hy 0); lia.
      - apply list_elem_of_singleton in Hc' as ->.
        destruct (Z.eqb_spec hx 0), (Z.eqb_spec hy 0); lia. }
    split.
    { destruct (Z.eqb_spec hx 0); [exists c; auto|].
      destruct (Z.max_spec (fst c) hx) as [[_ ->]|[_ ->]]; [|exists c; auto].
      destruct Hhx as (c' & Hc' & Hfst). exists c'. auto. }
    { destruct (Z.eqb_spec hy 0); [exists c; auto|].
      destruct (Z.max_spec (snd c) hy) as [[_ ->]|[_ ->]]; [|exists c; auto].
      destruct Hhy as (c' & Hc' & Hsnd). exists c'. auto. }
  - subst b. apply last_None in Hlast.
    exists (fst c), (fst c), (snd c), (snd c).
    split; [reflexivity|]. split; [tauto|]. split; [tauto|].
    split; [exists c; auto|]. split; [exists c; auto|].
    split; [|split; exists c; auto].
    intros c' Hc'. rewrite Hlast in Hc'. apply list_elem_of_singleton in Hc' as ->. lia.
Qed.

Lemma scan_state_fold cs : forall seen b,
  Forall (fun c => 0 <= fst c /\ 0 <= snd c) (seen ++ cs) ->
  scan_state p seen b -> scan_state p (seen ++ cs) (foldl (scan_step p) b cs).
Proof.
  induction cs as [|c cs IH]; intros seen b Hpos Hb.
  - rewrite app_nil_r. exact Hb.
  - replace (seen ++ c :: cs) with ((seen ++ [c]) ++ cs) in *
      by (rewrite <- app_assoc; reflexivity).
    apply IH; [exact Hpos|]. apply scan_state_step; [|exact Hb].
    apply Forall_app in Hpos. tauto.
Qed.

End ScanState.

Lemma seq_sorted k : forall s, Sorted.StronglySorted lt (seq s k).
Proof.
  induction k as [|k IH]; intros s; [constructor|].
  cbn [seq]. constructor; [apply IH|].
  apply Forall_forall. intros i Hi. apply in_seq in Hi. lia.
Qed.

Lemma seqZ_sorted m n : Sorted.StronglySorted Z.lt (seqZ m n).
Proof.
  unfold seqZ. eapply sorting.StronglySorted_fmap; [|apply seq_sorted].
  intros i j Hij. cbv beta. lia.
Qed.

Lemma cells_sorted ys xs :
  Sorted.StronglySorted Z.lt ys -> Sorted.StronglySorted Z.lt xs ->
  Sorted.StronglySorted scanned_before (cells ys xs).
Proof.
  intros Hys Hxs. induction Hys as [|y ys Hys IH Hlt]; [constructor|].
  unfold cells. cbn [flat_map]. fold (cells ys xs).
  apply sorting.StronglySorted_app_2; [| |exact IH].
  - intros c c' Hc Hc'. left.
    apply list_elem_of_In, in_map_iff in Hc as (x & <- & _).
    destruct c' as [x' y']. apply list_elem_of_In, in_cells in Hc' as [Hy' _].
    rewrite Forall_forall in Hlt. cbn [snd]. apply Hlt. exact Hy'.
  - change (map (fun x => (x, y)) xs) with ((fun x => (x, y)) <$> xs).
    eapply sorting.StronglySorted_fmap; [|exact Hxs].
    intros x x' Hx. right. cbn [fst snd]. auto.
Qed.

(** In a sorted list, the last element that passes a test comes after
    every other one that does. *)
Lemma last_set_latest {A} (R : relation A) (f : A -> Prop) `{forall a, Decision (f a)}
    (l : list A) (c : A) :
  Sorted.StronglySorted R l ->
  list.last (filter f l) = Some c ->
  f c /\ c ∈ l /\ forall c', c' ∈ l -> f c' -> c' = c \/ R c' c.
Proof.
  intros Hsorted Hlast.
  assert (Hin : c ∈ filter f l).
  { apply last_Some in Hlast as (pre & ->). apply elem_of_app. right. left. }
  apply list_elem_of_filter in Hin as [Hf Hin]. split; [exact Hf|]. split; [exact Hin|].
  apply last_filter_Some in Hlast as (l1 & l2 & -> & Hrest).
  intros c' Hc' Hf'. apply elem_of_app in Hc' as [Hc'|Hc'].
  - right. eapply sorting.StronglySorted_app_1_elem_of; [exact Hsorted|exact Hc'|left].
  - apply elem_of_cons in Hc' as [->|Hc']; [left; reflexivity|].
    rewrite Forall_forall in Hrest. destruct (Hrest c'); [|exact Hf'].
    apply list_elem_of_In. exact Hc'.
Qed.

Lemma canvas_cells b x y :
  ink b x y = true -> (x, y) ∈ cells (seqZ 0 240) (seqZ 0 320).
Proof.
  intros Hxy. apply list_elem_of_In, in_cells.
  assert (Hc : in_canvas x y = true)
    by (unfold ink in Hxy; apply andb_true_iff in Hxy; tauto).
  apply in_canvas_spec in Hc.
  split; apply list_elem_of_In, elem_of_seqZ; lia.
Qed.

Lemma cells_nonneg :
  Forall (fun c => 0 <= fst c /\ 0 <= snd c) (cells (seqZ 0 240) (seqZ 0 320)).
Proof.
  apply Forall_forall. intros [x y] Hc. apply in_cells in Hc as [Hy Hx].
  apply list_elem_of_In, elem_of_seqZ in Hy, Hx. cbn [fst snd]. lia.
Qed.

Lemma scan_state_canvas p :
  scan_state p (cells (seqZ 0 240) (seqZ 0 320))
    (scan p (seqZ 0 240) (seqZ 0 320) no_bounds).
Proof.
  rewrite scan_cells.
  pose proof (scan_state_fold p (cells (seqZ 0 240) (seqZ 0 320)) [] no_bounds)
    as Hfold.
  rewrite app_nil_l in Hfold. apply Hfold; [exact cells_nonneg|].
  unfold scan_state, set_cells. rewrite filter_nil. reflexivity.
Qed.

(** The scan of [process_mnist_data] on any buffer. *)
Lemma find_bounds_state s :
  length (buffer s) = Z.to_nat 9600 ->
  exists b,
    find_bounds s = Ok (b, s) /\
    scan_state (ink (buffer s)) (cells (seqZ 0 240) (seqZ 0 320)) b.
Proof.
  intros Hlen. eexists. split; [apply find_bounds_scan; exact Hlen|].
  apply scan_state_canvas.
Qed.

(** X11 (the bounding-box scan of [process_mnist_data], both files):
    on any buffer of 9600 bytes with a set pixel the scan returns with all
    four locals set.  [max_x] and [max_y] are exactly the largest column and
    row holding a set pixel.  [min_x] and [min_y] are the column and the row
    of some set pixel, not necessarily the smallest: the box found always
    lies inside the minimal box and shares its right and bottom sides. *)
Theorem scan_box_inside s x0 y0 :
  length (buffer s) = Z.to_nat 9600 ->
  ink (buffer s) x0 y0 = true ->
  exists lx hx ly hy,
    find_bounds s =
      Ok ({| min_x := Some lx; max_x := Some hx;
             min_y := Some ly; max_y := Some hy |}, s) /\
    (forall x y, ink (buffer s) x y = true -> x <= hx /\ y <= hy) /\
    (exists y, ink (buffer s) hx y = true) /\
    (exists x, ink (buffer s) x hy = true) /\
    (exists y, ink (buffer s) lx y = true) /\
    (exists x, ink (buffer s) x ly = true).
Proof.
  intros Hlen Hset. destruct (find_bounds_state s Hlen) as (b & Hrun & Hb).
  unfold scan_state in Hb.
  destruct (list.last (set_cells (ink (buffer s)) (cells (seqZ 0 240) (seqZ 0 320))))
    as [c|] eqn:Hlast.
  2:{ apply last_None in Hlast.
      assert (Hin : (x0, y0) ∈ set_cells (ink (buffer s))
                                 (cells (seqZ 0 240) (seqZ 0 320))).
      { apply set_cells_spec. split; [eapply canvas_cells; exact Hset|exact Hset]. }
      rewrite Hlast in Hin. inversion Hin. }
  destruct Hb as (lx & hx & ly & hy & -> & _ & _ & Hlx & Hly & Hmax & Hhx & Hhy).
  exists lx, hx, ly, hy. split; [exact Hrun|]. split.
  { intros x y Hxy. apply (Hmax (x, y)). apply set_cells_spec.
    split; [eapply canvas_cells; exact Hxy|exact Hxy]. }
  split; [destruct Hhx as ([x y] & [_ Hc]%set_cells_spec & <-); exists y; exact Hc|].
  split; [destruct Hhy as ([x y] & [_ Hc]%set_cells_spec & <-); exists x; exact Hc|].
  split; [destruct Hlx as ([x y] & [_ Hc]%set_cells_spec & <-); exists y; exact Hc|].
  destruct Hly as ([x y] & [_ Hc]%set_cells_spec & <-); exists x; exact Hc.
Qed.

Lemma scan_box_inside_witness :
  exists lx hx ly hy,
    find_bounds origin_stroke =
      Ok ({| min_x := Some lx; max_x := Some hx;
             min_y := Some ly; max_y := Some hy |}, origin_stroke) /\
    (forall x y, ink (buffer origin_stroke) x y = true -> x <= hx /\ y <= hy).
Proof.
  destruct (scan_box_inside origin_stroke 0 0) as (lx & hx & ly & hy & Hrun & Hmax & _).
  - vm_compute. reflexivity.
  - vm_compute. reflexivity.
  - exists lx, hx, ly, hy. auto.
Defined.

(** The scan leaves [min_x] at [None] or [0] exactly on the pictures that
    look blank. *)
Lemma scan_min_x_falsy s :
  truthy (min_x (scan (ink (buffer s)) (seqZ 0 240) (seqZ 0 320) no_bounds)) = false
  <-> looks_blank (ink (buffer s)).
Proof.
  pose proof (scan_state_canvas (ink (buffer s))) as Hb.
  set (b := scan _ _ _ _) in *. set (grid := cells (seqZ 0 240) (seqZ 0 320)) in *.
  unfold scan_state in Hb.
  destruct (list.last (set_cells (ink (buffer s)) grid)) as [c|] eqn:Hlast.
  - destruct Hb as (lx & hx & ly & hy & Hb & Hlx0 & _).
    rewrite Hb. cbn [min_x truthy].
    destruct (last_set_latest scanned_before _ grid c
                (cells_sorted _ _ (seqZ_sorted 0 240) (seqZ_sorted 0 320)) Hlast)
      as (Hc & Hcin & Hlatest).
    pose proof cells_nonneg as Hpos. fold grid in Hpos. rewrite Forall_forall in Hpos.
    split.
    + intros Hz. apply negb_false_iff, Z.eqb_eq in Hz. right.
      destruct c as [cx cy]. cbn [fst snd] in *.
      assert (cx = 0) as -> by tauto.
      exists cy. split; [exact Hc|]. intros x y Hxy.
      destruct (Hlatest (x, y) (canvas_cells _ _ _ Hxy) Hxy) as [[= -> ->]|Hbefore];
        [right; auto|].
      unfold scanned_before in Hbefore. cbn [fst snd] in Hbefore.
      specialize (Hpos (x, y) (proj1 (list_elem_of_In _ _) (canvas_cells _ _ _ Hxy))).
      cbn [fst snd] in Hpos. lia.
    + intros [Hblank|(y0 & Hy0 & Hall)].
      * rewrite Hblank in Hc. discriminate.
      * apply negb_false_iff, Z.eqb_eq, Hlx0.
        destruct (Hall _ _ Hc) as [Habove|[Hx _]]; [|exact Hx].
        destruct (Hlatest (0, y0) (canvas_cells _ _ _ Hy0) Hy0) as [<-|Hbefore];
          [reflexivity|].
        unfold scanned_before in Hbefore. cbn [fst snd] in Hbefore.
        specialize (Hpos c (proj1 (list_elem_of_In _ _) Hcin)). lia.
  - rewrite Hb. cbn [min_x no_bounds truthy]. split; [|reflexivity].
    intros _. left. intros x y. destruct (ink (buffer s) x y) eqn:Hxy; [|reflexivity].
    apply last_None in Hlast.
    assert (Hin : (x, y) ∈ set_cells (ink (buffer s)) grid).
    { apply set_cells_spec. split; [eapply canvas_cells; exact Hxy|exact Hxy]. }
    rewrite Hlast in Hin. inversion Hin.
Qed.

(** X12 (mainESPold.py, [process_mnist_data] with
    [scale_and_convert_to_bytearray] and [send_uart_data]): on any buffer of
    9600 bytes the method returns and leaves the buffer alone.  It takes the
    no-drawing exit, logging the error line and sending nothing, exactly when
    the picture looks blank to the test [if not min_x]: no pixel is set, or a
    pixel of column 0 is set and every other set pixel lies in a row above
    it.  On every other picture it never logs the error line and makes one
    [uart.write], of the 98 sample bytes with no padding byte, the sample
    being resampled from the box the scan found, widened by 5 pixels on each
    side. *)
Theorem old_no_drawing_iff `{Platform} s :
  length (buffer s) = Z.to_nat 9600 ->
  exists s' evs,
    process_mnist_data Old s = Ok (tt, s') /\
    trace s' = trace s ++ evs /\ buffer s' = buffer s /\
    (looks_blank (ink (buffer s)) ->
     evs = [Printed "[MNIST] Processing..." [];
            Printed "[ERROR] No drawing found!" []]) /\
    (~ looks_blank (ink (buffer s)) ->
     Forall (fun e => is_no_drawing e = false) evs /\
     exists lx hx ly hy sample,
       find_bounds s =
         Ok ({| min_x := Some lx; max_x := Some hx;
                min_y := Some ly; max_y := Some hy |}, s) /\
       uart_writes evs = [sample] /\ length sample = 98%nat /\
       forall r c, 0 <= r < 28 -> 0 <= c < 28 ->
         get_pixel (float_sample (lx - 5) c (hx - lx + 10))
                   (float_sample (ly - 5) r (hy - ly + 10)) s
         = Ok (sample_bit sample (28 * r + c), s)).
Proof.
  intros Hlen.
  pose proof (scan_min_x_falsy s) as Hblank.
  pose proof (find_bounds_scan s Hlen) as Hfind0.
  pose proof (find_bounds_scan (add_event (Printed "[MNIST] Processing..." []) s) Hlen)
    as Hfind.
  change (buffer (add_event (Printed "[MNIST] Processing..." []) s))
    with (buffer s) in Hfind.
  remember (scan (ink (buffer s)) (seqZ 0 240) (seqZ 0 320) no_bounds) as b eqn:Hb.
  destruct (truthy (min_x b)) eqn:Ht.
  - destruct (min_x b) as [lo|] eqn:Hmin; [|discriminate].
    assert (Hmin' : min_x (scan (ink (buffer s)) (seqZ 0 240) (seqZ 0 320) no_bounds)
                    = Some lo) by (rewrite <- Hb; exact Hmin).
    destruct (scan_settled _ _ _ _ Hmin') as (hi_x & lo_y & hi_y & Hmax & Hminy & Hmaxy).
    rewrite <- Hb in Hmax, Hminy, Hmaxy.
    pose (s1 := add_event (Printed "[MNIST] Bounds X Y" [lo; hi_x; lo_y; hi_y])
                  (add_event (Printed "[MNIST] Processing..." []) s)).
    destruct (scale_and_convert_grid (lo - 5) (lo_y - 5) (hi_x - lo + 10)
                (hi_y - lo_y + 10) s1 Hlen)
      as (sample & s2 & Hsc & Hsl & Hbits & Hbuf & Htr).
    eexists. eexists. split.
    + unfold process_mnist_data.
      rewrite (bind_run _ _ _ _ _ (emit_run _ _)).
      rewrite (bind_run _ _ _ _ _ Hfind).
      rewrite Hmin, Hmax, Hminy, Hmaxy, Ht. cbn [negb].
      cbv [as_int]. unfold bind at 1 2 3 4. cbv [ret].
      rewrite (bind_run _ _ _ _ _ (emit_run _ _)).
      fold s1. rewrite (bind_run _ _ _ _ _ Hsc).
      unfold send_uart_data, bind, emit, modify. reflexivity.
    + cbn [trace buffer add_event]. rewrite Htr, Hbuf. subst s1.
      cbn [trace buffer add_event]. repeat rewrite <- app_assoc.
      split; [reflexivity|]. split; [reflexivity|]. split.
      * intros Hlooks. apply Hblank in Hlooks. discriminate.
      * intros _. split.
        { destruct tmp_writable; repeat constructor. }
        exists lo, hi_x, lo_y, hi_y, sample. split.
        { rewrite Hfind0. destruct b. cbn [min_x max_x min_y max_y] in *.
          congruence. }
        split; [destruct tmp_writable; reflexivity|]. split; [exact Hsl|].
        intros r c Hr Hc. rewrite (get_pixel_ink _ _ _ Hlen).
        rewrite (Hbits r c Hr Hc). reflexivity.
  - eexists. eexists. split.
    + unfold process_mnist_data.
      rewrite (bind_run _ _ _ _ _ (emit_run _ _)).
      rewrite (bind_run _ _ _ _ _ Hfind).
      rewrite Ht. cbn [negb]. apply emit_run.
    + cbn [trace buffer add_event]. repeat rewrite <- app_assoc.
      split; [reflexivity|]. split; [reflexivity|]. split.
      * intros _. reflexivity.
      * intros Hnot. destruct Hnot. apply Hblank. reflexivity.
Qed.

Lemma old_no_drawing_iff_witness :
  exists s',
    process_mnist_data (H := bench) Old origin_dot = Ok (tt, s') /\
    trace s' = trace origin_dot ++
      [Printed "[MNIST] Processing..." []; Printed "[ERROR] No drawing found!" []] /\
    buffer s' = buffer origin_dot.
Proof.
  destruct (old_no_drawing_iff (H := bench) origin_dot (proj1 origin_dot_wf))
    as (s' & evs & Hrun & Htrace & Hbuf & Hlooks & _).
  exists s'. split; [exact Hrun|]. split; [|exact Hbuf].
  rewrite Htrace, Hlooks; [reflexivity|].
  rewrite origin_dot_buffer.
  right. exists 0. split; [rewrite ink_first_byte; reflexivity|].
  intros x y Hxy. right.
  rewrite ink_first_byte, !andb_true_iff in Hxy.
  destruct Hxy as [[[Hx0 Hx8] Hy] Hbit].
  assert (Hcases : x = 0 \/ x = 1 \/ x = 2 \/ x = 3 \/ x = 4 \/ x = 5 \/ x = 6
                   \/ x = 7) by lia.
  repeat destruct Hcases as [->|Hcases]; try discriminate Hbit; try lia.
  subst x. discriminate Hbit.
Defined.

(** ** How many points a line has *)

Section BresenhamCount.
Variables x0 y0 x y : Z.
Let dx := Z.abs (x - x0).
Let dy := Z.abs (y - y0).
Let sx := if x >? x0 then 1 else -1.
Let sy := if y >? y0 then 1 else -1.

(** Along the longer axis the loop steps in every iteration: with
    [dy <= dx] the test [e2 > -dy] never fails, with [dx < dy] the test
    [e2 < dx] never fails. *)
Lemma line_points_count fuel : forall lx ly err rx ry pts,
  0 <= rx <= dx -> 0 <= ry <= dy ->
  x = lx + sx * rx -> y = ly + sy * ry ->
  err = dx - dy + rx * dy - ry * dx ->
  (if dy <=? dx then (dx = 0 \/ - dy < 2 * err) /\ (dx = dy -> err = 0)
   else 2 * err < dx) ->
  line_points fuel lx ly x y dx dy sx sy err = Some pts ->
  Z.of_nat (length pts) = (if dy <=? dx then rx else ry) + 1.
Proof.
  assert (Hsx : sx = 1 \/ sx = -1) by (subst sx; destruct (x >? x0); auto).
  assert (Hsy : sy = 1 \/ sy = -1) by (subst sy; destruct (y >? y0); auto).
  assert (Hdx : 0 <= dx) by (subst dx; lia).
  assert (Hdy : 0 <= dy) by (subst dy; lia).
  clearbody dx dy sx sy.
  induction fuel as [|fuel IH];
    intros lx ly err rx ry pts Hrx Hry Hx Hy Herr Hinv Hpts; [discriminate|].
  simpl line_points in Hpts.
  destruct ((lx =? x) && (ly =? y)) eqn:Hend.
  - injection Hpts as <-.
    apply andb_true_iff in Hend as [Hex%Z.eqb_eq Hey%Z.eqb_eq].
    assert (rx = 0) by (destruct Hsx as [Hs|Hs]; rewrite Hs in Hx; lia).
    assert (ry = 0) by (destruct Hsy as [Hs|Hs]; rewrite Hs in Hy; lia).
    subst rx ry. destruct (dy <=? dx); reflexivity.
  - assert (Hmore : 0 < rx \/ 0 < ry).
    { apply andb_false_iff in Hend as [Hne%Z.eqb_neq|Hne%Z.eqb_neq]; [left|right].
      - destruct (Z.eq_dec rx 0) as [->|]; [|lia]. destruct Hne. lia.
      - destruct (Z.eq_dec ry 0) as [->|]; [|lia]. destruct Hne. lia. }
    rewrite Z.gtb_ltb in Hpts.
    destruct (line_points fuel _ _ x y dx dy sx sy _) as [rest|] eqn:Hrest;
      [|discriminate].
    injection Hpts as <-. cbn [length]. rewrite Nat2Z.inj_succ.
    assert (Hstepx : - dy < 2 * err -> 0 < rx).
    { intros Hlt. destruct (Z.eq_dec rx 0) as [->|]; [|lia]. nia. }
    assert (Hstepy : 2 * err < dx -> 0 < ry).
    { intros Hlt. destruct (Z.eq_dec ry 0) as [->|]; [|lia]. nia. }
    assert (Hinv' : (dy <= dx /\ (dx = 0 \/ - dy < 2 * err) /\ (dx = dy -> err = 0))
                    \/ (dx < dy /\ 2 * err < dx))
      by (destruct (Z.leb_spec dy dx); [left|right]; tauto).
    clear Hinv.
    destruct (Z.ltb_spec (- dy) (2 * err)) as [Hsx'|Hsx'],
             (Z.ltb_spec (2 * err) dx) as [Hsy'|Hsy'].
    + rewrite (IH (lx + sx) (ly + sy) (err - dy + dx) (rx - 1) (ry - 1) rest);
        try exact Hrest.
      all: try (destruct Hsx as [->| ->]; lia).
      all: try (destruct Hsy as [->| ->]; lia).
      all: destruct (Z.leb_spec dy dx); lia.
    + rewrite (IH (lx + sx) ly (err - dy) (rx - 1) ry rest); try exact Hrest.
      all: try (destruct Hsx as [->| ->]; lia).
      all: try (destruct Hsy as [->| ->]; lia).
      all: destruct (Z.leb_spec dy dx); lia.
    + rewrite (IH lx (ly + sy) (err + dx) rx (ry - 1) rest); try exact Hrest.
      all: try (destruct Hsx as [->| ->]; lia).
      all: try (destruct Hsy as [->| ->]; lia).
      all: destruct (Z.leb_spec dy dx); lia.
    + destruct (Z.leb_spec dy dx); lia.
Qed.
End BresenhamCount.

Lemma line_points_more fuel : forall lx ly x y dx dy sx sy err pts fuel',
  line_points fuel lx ly x y dx dy sx sy err = Some pts ->
  (length pts <= fuel')%nat ->
  line_points fuel' lx ly x y dx dy sx sy err = Some pts.
Proof.
  induction fuel as [|fuel IH]; intros lx ly x y dx dy sx sy err pts fuel' Hpts Hlen;
    [discriminate|].
  simpl in Hpts.
  destruct ((lx =? x) && (ly =? y)) eqn:Hend.
  - injection Hpts as <-. destruct fuel' as [|fuel']; [simpl in Hlen; lia|].
    simpl. rewrite Hend. reflexivity.
  - destruct (line_points fuel _ _ x y dx dy sx sy _) as [rest|] eqn:Hrest;
      simpl in Hpts; [|discriminate].
    injection Hpts as <-. destruct fuel' as [|fuel']; [simpl in Hlen; lia|].
    simpl. rewrite Hend. rewrite (IH _ _ _ _ _ _ _ _ _ _ fuel' Hrest); [reflexivity|].
    simpl in Hlen. lia.
Qed.

Lemma line_points_less fuel : forall lx ly x y dx dy sx sy err pts fuel',
  line_points fuel lx ly x y dx dy sx sy err = Some pts ->
  (fuel' < length pts)%nat ->
  line_points fuel' lx ly x y dx dy sx sy err = None.
Proof.
  induction fuel as [|fuel IH]; intros lx ly x y dx dy sx sy err pts fuel' Hpts Hlen;
    [discriminate|].
  simpl in Hpts. destruct fuel' as [|fuel']; [reflexivity|].
  destruct ((lx =? x) && (ly =? y)) eqn:Hend.
  - injection Hpts as <-. simpl in Hlen. lia.
  - destruct (line_points fuel _ _ x y dx dy sx sy _) as [rest|] eqn:Hrest;
      simpl in Hpts; [|discriminate].
    injection Hpts as <-.
    simpl. rewrite Hend. rewrite (IH _ _ _ _ _ _ _ _ _ _ fuel' Hrest); [reflexivity|].
    simpl in Hlen. lia.
Qed.

(** Where the skeleton of the loop runs out of fuel, so does the loop. *)
Lemma draw_line_loop_out v x y dx dy sx sy fuel : forall lx ly err s,
  last_x s = Some lx -> last_y s = Some ly -> wf_buffer (buffer s) ->
  line_points fuel lx ly x y dx dy sx sy err = None ->
  draw_line_loop v fuel x y dx dy sx sy err s = OutOfFuel.
Proof.
  induction fuel as [|fuel IH]; intros lx ly err s Hlx Hly Hwf Hpts; [reflexivity|].
  simpl in Hpts. simpl draw_line_loop.
  rewrite (bind_run _ _ _ _ _ (read_last_x s lx Hlx)).
  rewrite (bind_run _ _ _ _ _ (read_last_y s ly Hly)).
  destruct (steady_draw_point v lx ly s Hwf) as (s1 & Hdraw & Hwf1 & Hx1 & Hy1).
  rewrite (bind_run _ _ _ _ _ Hdraw).
  destruct ((lx =? x) && (ly =? y)); [discriminate|].
  destruct (line_points fuel _ _ x y dx dy sx sy _) as [rest|] eqn:Hrest;
    simpl in Hpts; [discriminate|].
  clear Hpts. revert Hrest.
  destruct (2 * err >? - dy), (2 * err <? dx); intros Hrest;
    cbv [bind modify ret];
    (eapply IH; [| |exact Hwf1|exact Hrest]);
    cbn [last_x last_y set_last_x set_last_y]; congruence.
Qed.

Lemma circles_app t t' : circles (t ++ t') = circles t ++ circles t'.
Proof. apply omap_app. Qed.

Lemma paints_emit e :
  paints (match e with FillCircle x y _ _ => [(x, y)] | _ => [] end) (emit e).
Proof.
  intros s Hwf. exists (add_event e s), [e]. split; [reflexivity|].
  split; [exact Hwf|]. split; [split; reflexivity|]. split; [reflexivity|].
  destruct e; reflexivity.
Qed.

Lemma paints_set_pixel x y state : paints [] (set_pixel x y state).
Proof.
  intros s Hwf. destruct (set_pixel_total x y state s Hwf) as (buf & Hrun & Hwf').
  exists (set_buffer buf s), []. split; [exact Hrun|]. split; [exact Hwf'|].
  split; [split; reflexivity|]. split; [|reflexivity].
  rewrite app_nil_r. reflexivity.
Qed.

Lemma paints_seq l1 l2 m k : paints l1 m -> paints l2 k -> paints (l1 ++ l2) (m ;; k).
Proof.
  intros Hm Hk s Hwf.
  destruct (Hm s Hwf) as (s1 & evs1 & Hrun1 & Hwf1 & Hc1 & Ht1 & Hl1).
  destruct (Hk s1 Hwf1) as (s2 & evs2 & Hrun2 & Hwf2 & Hc2 & Ht2 & Hl2).
  exists s2, (evs1 ++ evs2). rewrite (bind_run _ _ _ _ _ Hrun1).
  split; [exact Hrun2|]. split; [exact Hwf2|].
  split; [transitivity s1; assumption|].
  split; [rewrite Ht2, Ht1, app_assoc; reflexivity|].
  rewrite circles_app, Hl1, Hl2. reflexivity.
Qed.

(** [draw_point] has one circle filled, at the point, when the point is on
    the canvas, and none otherwise. *)
Lemma paints_draw_point v x y :
  paints (if in_canvas x y then [(x, y)] else []) (draw_point v x y).
Proof.
  unfold draw_point. destruct (in_canvas x y).
  - destruct v.
    + apply (paints_seq [(x, y)] []); [apply (paints_emit (FillCircle x y 3 BLACK))|].
      apply (paints_seq [] []); [apply paints_set_pixel|].
      apply (paints_emit (Printed "[DRAW] Point" [x; y])).
    + apply (paints_seq [(x, y)] []);
        [apply (paints_emit (FillCircle x y draw_size BLACK))|].
      repeat (apply (paints_seq [] []); [apply paints_set_pixel|]).
      apply paints_set_pixel.
  - intros s Hwf. exists s, []. split; [reflexivity|]. split; [exact Hwf|].
    split; [split; reflexivity|]. rewrite app_nil_r. auto.
Qed.

(** Visiting a path has circles filled at its points on the canvas, one
    each, in the order of the path. *)
Lemma visit_circles v pts : forall s,
  wf_buffer (buffer s) ->
  exists s' evs,
    visit v pts s = Ok (tt, s') /\ trace s' = trace s ++ evs /\
    circles evs = List.filter (fun p => in_canvas (fst p) (snd p)) pts.
Proof.
  induction pts as [|p pts IH]; intros s Hwf.
  - exists s, []. split; [reflexivity|]. rewrite app_nil_r. auto.
  - destruct (paints_draw_point v (fst p) (snd p)
                (set_last_y (Some (snd p)) (set_last_x (Some (fst p)) s)) Hwf)
      as (s1 & evs1 & Hdraw & Hwf1 & _ & Ht1 & Hl1).
    destruct (IH s1 Hwf1) as (s2 & evs2 & Hrest & Ht2 & Hl2).
    exists s2, (evs1 ++ evs2). split; [|split].
    + rewrite visit_cons. unfold bind at 1.
      rewrite (bind_run _ _ _ _ _ (move_to_run p s)), Hdraw. exact Hrest.
    + rewrite Ht2, Ht1, app_assoc. reflexivity.
    + rewrite circles_app, Hl1, Hl2. cbn [List.filter]. destruct p as [px py].
      cbn [fst snd]. destruct (in_canvas px py); reflexivity.
Qed.

Lemma filter_all {A} (f : A -> bool) (l : list A) :
  Forall (fun a => f a = true) l -> List.filter f l = l.
Proof.
  induction 1 as [|a l Ha _ IH]; [reflexivity|].
  cbn [List.filter]. rewrite Ha, IH. reflexivity.
Qed.

Lemma in_box_canvas x0 y0 x y p :
  in_canvas x0 y0 = true -> in_canvas x y = true -> in_box x0 y0 x y p ->
  in_canvas (fst p) (snd p) = true.
Proof.
  rewrite !in_canvas_spec. unfold in_box. lia.
Qed.

(** X13 ([draw_line], both files): from the last point [(x0, y0)] to
    [(x, y)] the loop runs exactly [max(|x - x0|, |y - y0|) + 1] times, for
    it advances along the longer axis of the line in every iteration: given
    that many iterations of fuel it returns, with the last point at [(x, y)];
    given fewer it is still running when the fuel is spent.  When both end
    points are on the canvas, the display is asked to fill exactly that many
    circles, the first at [(x0, y0)], the last at [(x, y)], each at a
    neighbour of the one before (diagonals included): a shortest 8-connected
    path. *)
Theorem draw_line_point_count v fuel s x0 y0 x y :
  last_x s = Some x0 -> last_y s = Some y0 -> wf_buffer (buffer s) ->
  (Z.of_nat fuel <= Z.max (Z.abs (x - x0)) (Z.abs (y - y0)) ->
   draw_line v fuel x y s = OutOfFuel) /\
  (Z.max (Z.abs (x - x0)) (Z.abs (y - y0)) < Z.of_nat fuel ->
   exists s' evs,
     draw_line v fuel x y s = Ok (tt, s') /\ trace s' = trace s ++ evs /\
     last_x s' = Some x /\ last_y s' = Some y /\
     (in_canvas x0 y0 = true -> in_canvas x y = true ->
      Z.of_nat (length (circles evs))
        = Z.max (Z.abs (x - x0)) (Z.abs (y - y0)) + 1 /\
      head (circles evs) = Some (x0, y0) /\
      list.last (circles evs) = Some (x, y) /\
      connected8 (circles evs) = true)).
Proof.
  intros Hlx Hly Hwf.
  set (fuel0 := S (Z.to_nat (Z.abs (x - x0) + Z.abs (y - y0)))).
  destruct (line_points_spec x0 y0 x y fuel0 x0 y0
              (Z.abs (x - x0) - Z.abs (y - y0)) (Z.abs (x - x0)) (Z.abs (y - y0)))
    as (pts & Hpts & Hhead & Hlast & Hconn & Hbox); try lia.
  { destruct (Z.gtb_spec x x0); lia. }
  { destruct (Z.gtb_spec y y0); lia. }
  assert (Hcount : Z.of_nat (length pts)
                   = Z.max (Z.abs (x - x0)) (Z.abs (y - y0)) + 1).
  { rewrite (line_points_count x0 y0 x y fuel0 x0 y0
               (Z.abs (x - x0) - Z.abs (y - y0)) (Z.abs (x - x0)) (Z.abs (y - y0))
               pts); try exact Hpts; try lia.
    + destruct (Z.leb_spec (Z.abs (y - y0)) (Z.abs (x - x0))); lia.
    + destruct (Z.gtb_spec x x0); lia.
    + destruct (Z.gtb_spec y y0); lia.
    + destruct (Z.leb_spec (Z.abs (y - y0)) (Z.abs (x - x0))); lia. }
  assert (Hline :
            draw_line v fuel x y s =
              draw_line_loop v fuel x y (Z.abs (x - x0)) (Z.abs (y - y0))
                (if x >? x0 then 1 else -1) (if y >? y0 then 1 else -1)
                (Z.abs (x - x0) - Z.abs (y - y0))
                (add_event (Printed "[DRAW] Line from to" [x0; y0; x; y]) s)).
  { unfold draw_line.
    rewrite (bind_run _ _ _ _ _ (read_last_x s x0 Hlx)).
    rewrite (bind_run _ _ _ _ _ (read_last_y s y0 Hly)).
    rewrite (bind_run _ _ _ _ _ (emit_run _ _)). reflexivity. }
  split.
  - intros Hshort. rewrite Hline.
    apply (draw_line_loop_out v x y _ _ _ _ fuel x0 y0); auto.
    apply (line_points_less fuel0 _ _ _ _ _ _ _ _ _ pts); [exact Hpts|lia].
  - intros Hfuel.
    assert (Hpts' : line_points fuel x0 y0 x y (Z.abs (x - x0)) (Z.abs (y - y0))
                      (if x >? x0 then 1 else -1) (if y >? y0 then 1 else -1)
                      (Z.abs (x - x0) - Z.abs (y - y0)) = Some pts)
      by (apply (line_points_more fuel0); [exact Hpts|lia]).
    destruct (visit_circles v pts
                (add_event (Printed "[DRAW] Line from to" [x0; y0; x; y]) s) Hwf)
      as (s' & evs & Hvisit & Htrace & Hcircles).
    destruct (visit_run v pts
                (add_event (Printed "[DRAW] Line from to" [x0; y0; x; y]) s) Hwf)
      as (s'' & Hvisit' & _ & Hcursor).
    assert (s'' = s') as -> by congruence.
    destruct (Hcursor _ Hlast) as [Hx Hy].
    exists s', (Printed "[DRAW] Line from to" [x0; y0; x; y] :: evs).
    split; [|split; [|split; [exact Hx|split; [exact Hy|]]]].
    + rewrite Hline.
      rewrite (draw_line_loop_visit v x y _ _ _ _ fuel x0 y0 _ pts); auto.
    + rewrite Htrace. cbn [trace add_event]. rewrite <- app_assoc. reflexivity.
    + intros Hin0 Hin.
      change (circles (Printed "[DRAW] Line from to" [x0; y0; x; y] :: evs))
        with (circles evs).
      rewrite Hcircles, filter_all; [auto|].
      eapply Forall_impl; [|exact Hbox].
      intros p Hp. exact (in_box_canvas x0 y0 x y p Hin0 Hin Hp).
Qed.

Lemma draw_line_point_count_witness :
  exists s' evs,
    draw_line Old 6 5 3 origin_dot = Ok (tt, s') /\
    trace s' = trace origin_dot ++ evs /\
    Z.of_nat (length (circles evs)) = 6 /\
    head (circles evs) = Some (0, 0) /\ list.last (circles evs) = Some (5, 3) /\
    connected8 (circles evs) = true.
Proof.
  destruct (draw_line_point_count Old 6 origin_dot 0 0 5 3 eq_refl eq_refl
              origin_dot_wf) as [_ Hruns].
  destruct Hruns as (s' & evs & Hrun & Htrace & _ & _ & Hcircles);
    [vm_compute; reflexivity|].
  exists s', evs. split; [exact Hrun|]. split; [exact Htrace|].
  apply Hcircles; reflexivity.
Defined.
